(** * anti2api-golang: protocol translator and streaming relay

    A shallow embedding of the OpenAI <-> Antigravity converter
    (internal/converter/openai.go, types.go), of the streaming relay
    (internal/api: ProcessStreamResponse, extractValidUTF8, StreamWriter)
    and of the chat handlers (internal/server/handlers), followed by the
    properties proved about them.

    Conventions.
    - A Go [string] is a [string] (a sequence of 8-bit characters); a Go
      [[]byte] is a [list byte]; [[]byte(s)] and [string(b)] are
      [list_byte_of_string] and [string_of_list_byte].
    - A Go [int] is a [Z]; no arithmetic is performed on the ones met here.
    - A Go pointer that may be nil is an [option].
    - A value of type [interface{}] produced by encoding/json is a [JSON];
      a [map[string]interface{}] is a [gmap string JSON].
    - A Go function that can panic returns an [option]: [None] is the panic. *)

From Stdlib Require Import ZArith Lia.
From Stdlib Require Import Strings.String Strings.Ascii Strings.Byte.
From stdpp Require Import base strings pretty gmap list.

Set Warnings "-register-all".
Set Default Proof Using "Type".

Local Open Scope string_scope.
Local Open Scope list_scope.
Local Open Scope nat_scope.

(** ** Values decoded by encoding/json *)

(** A float64 is carried around as its IEEE-754 bit pattern; the
    translator only copies such values. *)
Definition float64 : Type := Z.

Inductive JSON : Type :=
| JNull
| JBool (b : bool)
| JNumber (x : float64)
| JString (s : string)
| JArray (xs : list JSON)
| JObject (m : gmap string JSON).

(** ** Go's strings package, as far as the code uses it *)

(** strings.CutPrefix: the rest of [s] after [p], when [s] starts with [p]. *)
Fixpoint CutPrefix (s p : string) : option string :=
  match p, s with
  | EmptyString, _ => Some s
  | String a p', String b s' => if Ascii.eqb a b then CutPrefix s' p' else None
  | String _ _, EmptyString => None
  end.

(** strings.HasPrefix *)
Definition HasPrefix (s p : string) : bool :=
  match CutPrefix s p with Some _ => true | None => false end.

(** strings.TrimSuffix on the reversed character list: drop [c] when it is
    the last character. *)
Definition TrimSuffixChar (s : string) (c : ascii) : string :=
  match rev (list_ascii_of_string s) with
  | d :: r => if Ascii.eqb d c then string_of_list_ascii (rev r) else s
  | [] => s
  end.

(** strings.Contains for a one-character needle. *)
Fixpoint ContainsChar (s : string) (c : ascii) : bool :=
  match s with
  | EmptyString => false
  | String a s' => Ascii.eqb a c || ContainsChar s' c
  end.

(** strings.Join *)
Definition Join (elems : list string) (sep : string) : string :=
  String.concat sep elems.

Definition nonempty_string (s : string) : bool :=
  match s with EmptyString => false | String _ _ => true end.

(** ** internal/converter/types.go *)

Module Converter.

Record FunctionCall := {
  fc_ID : string;
  fc_Name : string;
  fc_Args : gmap string JSON
}.

Record FunctionResponse := {
  fr_ID : string;
  fr_Name : string;
  fr_Response : gmap string JSON
}.

Record InlineData := {
  MimeType : string;
  Data : string
}.

(** [p_ThoughtSignature] is the field openai.go reads and writes on a part. *)
Record Part := {
  p_Text : string;
  p_FunctionCall : option FunctionCall;
  p_FunctionResponse : option FunctionResponse;
  p_InlineData : option InlineData;
  p_Thought : bool;
  p_ThoughtSignature : string
}.

Record Content := {
  c_Role : string;
  c_Parts : list Part
}.

Record SystemInstruction := { si_Parts : list Part }.

Record FunctionDeclaration := {
  fd_Name : string;
  fd_Description : string;
  fd_Parameters : gmap string JSON
}.

Record Tool := { FunctionDeclarations : list FunctionDeclaration }.

Record FunctionCallingConfig := {
  Mode : string;
  AllowedFunctionNames : list string
}.

Record ToolConfig := { tc_FunctionCallingConfig : option FunctionCallingConfig }.

Record ThinkingConfig := {
  IncludeThoughts : bool;
  ThinkingBudget : Z
}.

Record GenerationConfig := {
  CandidateCount : Z;
  StopSequences : list string;
  MaxOutputTokens : Z;
  Temperature : option float64;
  TopP : option float64;
  TopK : Z;
  gc_ThinkingConfig : option ThinkingConfig
}.

Record AntigravityInnerReq := {
  ir_SystemInstruction : option SystemInstruction;
  ir_Contents : list Content;
  ir_Tools : list Tool;
  ir_ToolConfig : option ToolConfig;
  ir_GenerationConfig : option GenerationConfig;
  ir_SessionID : string
}.

Record AntigravityRequest := {
  Project : string;
  RequestID : string;
  Request : AntigravityInnerReq;
  ar_Model : string;
  UserAgent : string;
  RequestType : string
}.

Record Candidate := {
  cand_Content : Content;
  cand_FinishReason : string;
  cand_Index : Z
}.

Record UsageMetadata := {
  PromptTokenCount : Z;
  CandidatesTokenCount : Z;
  TotalTokenCount : Z;
  ThoughtsTokenCount : Z
}.

Record AntigravityResponse := {
  resp_Candidates : list Candidate;
  resp_UsageMetadata : option UsageMetadata
}.

Record OpenAIFunctionCall := {
  ofc_Name : string;
  ofc_Arguments : string
}.

Record OpenAIToolCall := {
  otc_ID : string;
  otc_Type : string;
  otc_Function : OpenAIFunctionCall;
  otc_ThoughtSignature : string
}.

Record OpenAIMessage := {
  m_Role : string;
  m_Content : JSON;
  m_ToolCalls : list OpenAIToolCall;
  m_ToolCallID : string;
  m_Name : string
}.

Record OpenAIFunction := {
  of_Name : string;
  of_Description : string;
  of_Parameters : gmap string JSON
}.

Record OpenAITool := {
  ot_Type : string;
  ot_Function : OpenAIFunction
}.

Record OpenAIChatRequest := {
  req_Model : string;
  Messages : list OpenAIMessage;
  Stream : bool;
  req_Temperature : option float64;
  req_TopP : option float64;
  MaxTokens : Z;
  Stop : list string;
  Tools : list OpenAITool;
  ToolChoice : JSON
}.

Record Usage := {
  PromptTokens : Z;
  CompletionTokens : Z;
  TotalTokens : Z
}.

Record Message := {
  msg_Role : string;
  msg_Content : string;
  msg_ToolCalls : list OpenAIToolCall;
  msg_Reasoning : string
}.

Record Delta := {
  d_Role : string;
  d_Content : string;
  d_ToolCalls : list OpenAIToolCall;
  d_Reasoning : string
}.

(** The zero value [Delta{}]. *)
Definition Delta0 : Delta :=
  {| d_Role := ""; d_Content := ""; d_ToolCalls := []; d_Reasoning := "" |}.

Definition Message0 : Message :=
  {| msg_Role := ""; msg_Content := ""; msg_ToolCalls := []; msg_Reasoning := "" |}.

Record Choice := {
  ch_Index : Z;
  ch_Message : Message;
  ch_Delta : option Delta;
  ch_FinishReason : option string
}.

Record OpenAIChatCompletion := {
  cc_ID : string;
  cc_Object : string;
  cc_Created : Z;
  cc_Model : string;
  cc_Choices : list Choice;
  cc_Usage : option Usage
}.

Record OpenAIStreamChunk := {
  sc_ID : string;
  sc_Object : string;
  sc_Created : Z;
  sc_Model : string;
  sc_Choices : list Choice;
  sc_Usage : option Usage
}.

(** store.Account, restricted to the fields the translator and the
    handlers read. *)
Record Account := {
  acc_Email : string;
  acc_ProjectID : string;
  acc_SessionID : string
}.

(** *** What the converter takes from the rest of the repository

    The model table (internal/converter, models file), the JSON codec, the
    identifier generators of internal/utils, the clock and the configured
    user agent are not part of the translated functions; they are supplied
    by the environment. A generator takes a number that tells its draws
    apart: the draws of one request are numbered in the order in which
    they are made. *)
Class ModelTable := {
  ResolveModelName : string -> string;
  IsClaudeModel : string -> bool;
  GetClaudeMaxOutputTokens : string -> Z;
  ShouldEnableThinking : string -> option bool -> bool;
  BuildThinkingConfig : string -> option ThinkingConfig;
  DefaultStopSequences : list string;
  IsImageModel : string -> bool;
  IsBypassModel : string -> bool
}.

Class Runtime := {
  json_Marshal : gmap string JSON -> string;
  json_Unmarshal : string -> option (gmap string JSON);
  GenerateRequestID : nat -> string;
  GenerateProjectID : nat -> string;
  GenerateToolCallID : nat -> string;
  GenerateChatCompletionID : nat -> string;
  config_UserAgent : string;
  time_Now_Unix : Z
}.

(** ** internal/converter/openai.go *)

Section OpenAI.
Context `{MT : ModelTable} `{RT : Runtime}.

(** The [(string, ok)] result of a type assertion [v.(string)]. *)
Definition as_string (v : option JSON) : option string :=
  match v with Some (JString s) => Some s | _ => None end.

(** The result of a type assertion [v.(map[string]interface{})]. *)
Definition as_object (v : option JSON) : option (gmap string JSON) :=
  match v with Some (JObject m) => Some m | _ => None end.

(** [m["type"] == "text"]: an interface value equals a string constant
    when it holds that very string. *)
Definition field_is (m : gmap string JSON) (k v : string) : bool :=
  match m !! k with
  | Some (JString s) => String.eqb s v
  | _ => false
  end.

(** hasToolCallsInHistory *)
Definition hasToolCallsInHistory (messages : list OpenAIMessage) : bool :=
  existsb (fun msg =>
    negb (Nat.eqb (length (m_ToolCalls msg)) 0) || String.eqb (m_Role msg) "tool")
    messages.

(** getProjectID; [k] identifiers have been generated before the call. *)
Definition getProjectID (k : nat) (account : Account) : string :=
  if nonempty_string (acc_ProjectID account) then acc_ProjectID account
  else GenerateProjectID k.

(** The class \w of the regular expression syntax: [0-9A-Za-z_]. *)
Definition is_word_char (a : ascii) : bool :=
  let n := nat_of_ascii a in
  ((48 <=? n) && (n <=? 57)) || ((65 <=? n) && (n <=? 90))
  || ((97 <=? n) && (n <=? 122)) || (n =? 95).

(** The longest run of word characters at the head of [s], and the rest. *)
Fixpoint span_word (s : string) : string * string :=
  match s with
  | EmptyString => (EmptyString, EmptyString)
  | String a s' =>
      if is_word_char a
      then let '(w, r) := span_word s' in (String a w, r)
      else (EmptyString, s)
  end.

(** parseImageURL: a match of [^data:image/(\w+);base64,(.+)$]. The word
    run is followed by [;], which is no word character, so it is the
    longest run; [.] matches every character but the line feed and [$]
    only the end of the text. *)
Definition parseImageURL (url : string) : option InlineData :=
  match CutPrefix url "data:image/" with
  | None => None
  | Some r1 =>
      let '(fmt, r2) := span_word r1 in
      if negb (nonempty_string fmt) then None
      else match CutPrefix r2 ";base64," with
           | None => None
           | Some payload =>
               if nonempty_string payload && negb (ContainsChar payload "010"%char)
               then Some {| MimeType := "image/" +:+ fmt; Data := payload |}
               else None
           end
  end.

(** One iteration of the loop of extractParts over a content item. *)
Definition extractPart (item : JSON) : list Part :=
  match item with
  | JObject m =>
      if field_is m "type" "text" then
        match as_string (m !! "text") with
        | Some text => [ {| p_Text := text; p_FunctionCall := None;
                            p_FunctionResponse := None; p_InlineData := None;
                            p_Thought := false; p_ThoughtSignature := "" |} ]
        | None => []
        end
      else if field_is m "type" "image_url" then
        match as_object (m !! "image_url") with
        | Some imgURL =>
            match as_string (imgURL !! "url") with
            | Some url =>
                match parseImageURL url with
                | Some inlineData =>
                    [ {| p_Text := ""; p_FunctionCall := None;
                         p_FunctionResponse := None;
                         p_InlineData := Some inlineData;
                         p_Thought := false; p_ThoughtSignature := "" |} ]
                | None => []
                end
            | None => []
            end
        | None => []
        end
      else []
  | _ => []
  end.

(** extractParts *)
Definition extractParts (content : JSON) : list Part :=
  match content with
  | JString v => [ {| p_Text := v; p_FunctionCall := None;
                      p_FunctionResponse := None; p_InlineData := None;
                      p_Thought := false; p_ThoughtSignature := "" |} ]
  | JArray v => concat (map extractPart v)
  | _ => []
  end.

(** One iteration of the loop of getTextContent. *)
Definition textOfItem (item : JSON) : list string :=
  match item with
  | JObject m =>
      if field_is m "type" "text" then
        match as_string (m !! "text") with
        | Some text => [text]
        | None => []
        end
      else []
  | _ => []
  end.

(** getTextContent *)
Definition getTextContent (content : JSON) : string :=
  match content with
  | JString v => v
  | JArray v => Join (concat (map textOfItem v)) "
"
  | _ => ""
  end.

(** parseArgs *)
Definition parseArgs (argsStr : string) : gmap string JSON :=
  match json_Unmarshal argsStr with
  | Some args => args
  | None => ∅
  end.

(** The inner loop of findFunctionName over the parts of one turn. *)
Fixpoint findInParts (parts : list Part) (toolCallID : string) : option string :=
  match parts with
  | [] => None
  | part :: rest =>
      match p_FunctionCall part with
      | Some fc =>
          if String.eqb (fc_ID fc) toolCallID then Some (fc_Name fc)
          else findInParts rest toolCallID
      | None => findInParts rest toolCallID
      end
  end.

(** The outer loop of findFunctionName, over the turns from the last one
    down to the first; [rcontents] is the list of turns reversed. *)
Fixpoint findFromLast (rcontents : list Content) (toolCallID : string) : string :=
  match rcontents with
  | [] => ""
  | c :: rest =>
      match findInParts (c_Parts c) toolCallID with
      | Some name => name
      | None => findFromLast rest toolCallID
      end
  end.

(** findFunctionName *)
Definition findFunctionName (contents : list Content) (toolCallID : string) : string :=
  findFromLast (rev contents) toolCallID.

(** appendFunctionResponse; the slice behind the pointer is returned. *)
Definition appendFunctionResponse (contents : list Content) (part : Part) : list Content :=
  match last contents with
  | Some c =>
      if String.eqb (c_Role c) "model" then
        contents ++ [ {| c_Role := "user"; c_Parts := [part] |} ]
      else if String.eqb (c_Role c) "user" then
        alter (fun c' => {| c_Role := c_Role c'; c_Parts := c_Parts c' ++ [part] |})
              (length contents - 1)%nat contents
      else contents ++ [ {| c_Role := "user"; c_Parts := [part] |} ]
  | None => contents ++ [ {| c_Role := "user"; c_Parts := [part] |} ]
  end.

(** The part an assistant tool call becomes. *)
Definition toolCallPart (tc : OpenAIToolCall) : Part :=
  {| p_Text := "";
     p_FunctionCall := Some {| fc_ID := otc_ID tc;
                               fc_Name := ofc_Name (otc_Function tc);
                               fc_Args := parseArgs (ofc_Arguments (otc_Function tc)) |};
     p_FunctionResponse := None; p_InlineData := None; p_Thought := false;
     p_ThoughtSignature := otc_ThoughtSignature tc |}.

(** The parts built for an assistant message. *)
Definition assistantParts (msg : OpenAIMessage) : list Part :=
  let text := getTextContent (m_Content msg) in
  (if nonempty_string text
   then [ {| p_Text := text; p_FunctionCall := None; p_FunctionResponse := None;
             p_InlineData := None; p_Thought := false; p_ThoughtSignature := "" |} ]
   else [])
  ++ map toolCallPart (m_ToolCalls msg).

(** The function_response part built for a tool message, given the turns
    built so far. *)
Definition toolResponsePart (result : list Content) (msg : OpenAIMessage) : Part :=
  {| p_Text := ""; p_FunctionCall := None;
     p_FunctionResponse :=
       Some {| fr_ID := m_ToolCallID msg;
               fr_Name := findFunctionName result (m_ToolCallID msg);
               fr_Response := {[ "output" := JString (getTextContent (m_Content msg)) ]} |};
     p_InlineData := None; p_Thought := false; p_ThoughtSignature := "" |}.

(** The body of the loop of convertMessages: the switch on the role. *)
Definition convertMessage (result : list Content) (msg : OpenAIMessage) : list Content :=
  if String.eqb (m_Role msg) "system" then result
  else if String.eqb (m_Role msg) "user" then
    result ++ [ {| c_Role := "user"; c_Parts := extractParts (m_Content msg) |} ]
  else if String.eqb (m_Role msg) "assistant" then
    let parts := assistantParts msg in
    if negb (Nat.eqb (length parts) 0)
    then result ++ [ {| c_Role := "model"; c_Parts := parts |} ]
    else result
  else if String.eqb (m_Role msg) "tool" then
    appendFunctionResponse result (toolResponsePart result msg)
  else result.

(** convertMessages *)
Definition convertMessages (messages : list OpenAIMessage) : list Content :=
  fold_left convertMessage messages [].

(** extractSystemInstruction *)
Definition extractSystemInstruction (messages : list OpenAIMessage) : string :=
  Join (map (fun msg => getTextContent (m_Content msg))
            (filter (fun msg => String.eqb (m_Role msg) "system" = true) messages))
       "

".

(** convertTools *)
Definition convertTools (tools : list OpenAITool) : list Tool :=
  map (fun tool =>
         let params := delete "$schema" (of_Parameters (ot_Function tool)) in
         {| FunctionDeclarations :=
              [ {| fd_Name := of_Name (ot_Function tool);
                   fd_Description := of_Description (ot_Function tool);
                   fd_Parameters := params |} ] |})
      tools.

(** buildGenerationConfig *)
Definition buildGenerationConfig (req : OpenAIChatRequest) (modelName : string)
    (hasHistoryFunctionCalls : bool) : GenerationConfig :=
  let stops :=
    if negb (Nat.eqb (length (Stop req)) 0)
    then DefaultStopSequences ++ Stop req
    else DefaultStopSequences in
  if IsClaudeModel modelName then
    {| CandidateCount := 1;
       StopSequences := stops;
       MaxOutputTokens := GetClaudeMaxOutputTokens modelName;
       Temperature := None; TopP := None; TopK := 0;
       gc_ThinkingConfig :=
         if negb hasHistoryFunctionCalls && ShouldEnableThinking modelName None
         then BuildThinkingConfig modelName else None |}
  else
    {| CandidateCount := 1;
       StopSequences := stops;
       MaxOutputTokens := if (MaxTokens req >? 0)%Z then MaxTokens req else 0;
       Temperature := req_Temperature req;
       TopP := req_TopP req;
       TopK := 0;
       gc_ThinkingConfig :=
         if negb hasHistoryFunctionCalls && ShouldEnableThinking modelName None
         then BuildThinkingConfig modelName else None |}.

(** ConvertOpenAIToAntigravity; [k] identifiers have been generated before
    the call. *)
Definition ConvertOpenAIToAntigravity (k : nat) (req : OpenAIChatRequest)
    (account : Account) : AntigravityRequest :=
  let modelName := ResolveModelName (req_Model req) in
  let project := getProjectID k account in
  let k1 := if nonempty_string (acc_ProjectID account) then k else S k in
  let hasHistoryFunctionCalls := hasToolCallsInHistory (Messages req) in
  let contents := convertMessages (Messages req) in
  let systemText := extractSystemInstruction (Messages req) in
  let hasTools := negb (Nat.eqb (length (Tools req)) 0) in
  {| Project := project;
     RequestID := GenerateRequestID k1;
     Request :=
       {| ir_SystemInstruction :=
            if nonempty_string systemText
            then Some {| si_Parts :=
                   [ {| p_Text := systemText; p_FunctionCall := None;
                        p_FunctionResponse := None; p_InlineData := None;
                        p_Thought := false; p_ThoughtSignature := "" |} ] |}
            else None;
          ir_Contents := contents;
          ir_Tools := if hasTools then convertTools (Tools req) else [];
          ir_ToolConfig :=
            if hasTools
            then Some {| tc_FunctionCallingConfig :=
                   Some {| Mode := "AUTO"; AllowedFunctionNames := [] |} |}
            else None;
          ir_GenerationConfig :=
            Some (buildGenerationConfig req modelName hasHistoryFunctionCalls);
          ir_SessionID := acc_SessionID account |};
     ar_Model := modelName;
     UserAgent := config_UserAgent;
     RequestType := "" |}.

(** ConvertUsage *)
Definition ConvertUsage (metadata : option UsageMetadata) : option Usage :=
  match metadata with
  | None => None
  | Some md => Some {| PromptTokens := PromptTokenCount md;
                       CompletionTokens := CandidatesTokenCount md;
                       TotalTokens := TotalTokenCount md |}
  end.

(** The accumulators of the loop of ConvertToOpenAIResponse. *)
Record RespAcc := {
  acc_content : string;
  acc_thinking : string;
  acc_toolCalls : list OpenAIToolCall;
  acc_imageURLs : list string;
  acc_drawn : nat
}.

(** One iteration of that loop. *)
Definition convertPart (a : RespAcc) (part : Part) : RespAcc :=
  if p_Thought part then
    {| acc_content := acc_content a; acc_thinking := acc_thinking a +:+ p_Text part;
       acc_toolCalls := acc_toolCalls a; acc_imageURLs := acc_imageURLs a;
       acc_drawn := acc_drawn a |}
  else if nonempty_string (p_Text part) then
    {| acc_content := acc_content a +:+ p_Text part; acc_thinking := acc_thinking a;
       acc_toolCalls := acc_toolCalls a; acc_imageURLs := acc_imageURLs a;
       acc_drawn := acc_drawn a |}
  else match p_FunctionCall part with
  | Some fc =>
      let fresh := negb (nonempty_string (fc_ID fc)) in
      {| acc_content := acc_content a; acc_thinking := acc_thinking a;
         acc_toolCalls := acc_toolCalls a ++
           [ {| otc_ID := if fresh then GenerateToolCallID (acc_drawn a) else fc_ID fc;
                otc_Type := "function";
                otc_Function := {| ofc_Name := fc_Name fc;
                                   ofc_Arguments := json_Marshal (fc_Args fc) |};
                otc_ThoughtSignature := p_ThoughtSignature part |} ];
         acc_imageURLs := acc_imageURLs a;
         acc_drawn := if fresh then S (acc_drawn a) else acc_drawn a |}
  | None =>
      match p_InlineData part with
      | Some d =>
          {| acc_content := acc_content a; acc_thinking := acc_thinking a;
             acc_toolCalls := acc_toolCalls a;
             acc_imageURLs := acc_imageURLs a ++
               [ "data:" +:+ MimeType d +:+ ";base64," +:+ Data d ];
             acc_drawn := acc_drawn a |}
      | None => a
      end
  end.

(** ConvertToOpenAIResponse. [None] is the run-time panic of the index
    expression [Candidates[0]] on an empty slice; [k] identifiers have been
    generated before the call. *)
Definition ConvertToOpenAIResponse (k : nat) (antigravityResp : AntigravityResponse)
    (model : string) : option OpenAIChatCompletion :=
  match resp_Candidates antigravityResp !! 0%nat with
  | None => None
  | Some cand0 =>
      let parts := c_Parts (cand_Content cand0) in
      let a := fold_left convertPart parts
                 {| acc_content := ""; acc_thinking := ""; acc_toolCalls := [];
                    acc_imageURLs := []; acc_drawn := k |} in
      let content :=
        if negb (Nat.eqb (length (acc_imageURLs a)) 0) then
          (if nonempty_string (acc_content a) then acc_content a +:+ "

" else "")
          +:+ String.concat "" (map (fun url => "![image](" +:+ url +:+ ")

") (acc_imageURLs a))
        else acc_content a in
      let finishReason :=
        if negb (Nat.eqb (length (acc_toolCalls a)) 0) then "tool_calls" else "stop" in
      Some {| cc_ID := GenerateChatCompletionID (acc_drawn a);
              cc_Object := "chat.completion";
              cc_Created := time_Now_Unix;
              cc_Model := model;
              cc_Choices :=
                [ {| ch_Index := 0;
                     ch_Message := {| msg_Role := "assistant";
                                      msg_Content := content;
                                      msg_ToolCalls := acc_toolCalls a;
                                      msg_Reasoning := acc_thinking a |};
                     ch_Delta := None;
                     ch_FinishReason := Some finishReason |} ];
              cc_Usage := ConvertUsage (resp_UsageMetadata antigravityResp) |}
  end.

(** CreateStreamChunk *)
Definition CreateStreamChunk (id : string) (created : Z) (model : string)
    (delta : option Delta) (finishReason : option string) (usage : option Usage)
    : OpenAIStreamChunk :=
  {| sc_ID := id;
     sc_Object := "chat.completion.chunk";
     sc_Created := created;
     sc_Model := model;
     sc_Choices := [ {| ch_Index := 0; ch_Message := Message0;
                        ch_Delta := delta; ch_FinishReason := finishReason |} ];
     sc_Usage := usage |}.

End OpenAI.

End Converter.

(** ** unicode/utf8 *)

Module utf8.

(** The numeric value of a byte. *)
Definition u8 (b : byte) : Z := Z.of_N (Byte.to_N b).

Definition RuneSelf : Z := 0x80.
Definition locb : Z := 0x80.
Definition hicb : Z := 0xBF.

(** The table [first] together with [acceptRanges]: for a leading byte, the
    length of the encoding and the range accepted for the second byte;
    [None] is the entry [xx] of an illegal leading byte. ASCII bytes are
    handled before the table is consulted. *)
Definition first (b : byte) : option (nat * Z * Z) :=
  let x := u8 b in
  if (x <? 0xC2)%Z then None
  else if (x <? 0xE0)%Z then Some (2, locb, hicb)
  else if (x =? 0xE0)%Z then Some (3, 0xA0%Z, hicb)
  else if (x <? 0xED)%Z then Some (3, locb, hicb)
  else if (x =? 0xED)%Z then Some (3, locb, 0x9F%Z)
  else if (x <? 0xF0)%Z then Some (3, locb, hicb)
  else if (x =? 0xF0)%Z then Some (4, 0x90%Z, hicb)
  else if (x <? 0xF4)%Z then Some (4, locb, hicb)
  else if (x =? 0xF4)%Z then Some (4, locb, 0x8F%Z)
  else None.

(** [c < lo || hi < c] *)
Definition outside (lo hi : Z) (c : byte) : bool :=
  (u8 c <? lo)%Z || (hi <? u8 c)%Z.

(** utf8.Valid *)
Fixpoint Valid (p : list byte) : bool :=
  match p with
  | [] => true
  | p0 :: r0 =>
      if (u8 p0 <? RuneSelf)%Z then Valid r0
      else
        match first p0 with
        | None => false
        | Some (size, lo, hi) =>
            match r0 with
            | [] => false
            | c1 :: r1 =>
                if outside lo hi c1 then false
                else if size =? 2 then Valid r1
                else
                  match r1 with
                  | [] => false
                  | c2 :: r2 =>
                      if outside locb hicb c2 then false
                      else if size =? 3 then Valid r2
                      else
                        match r2 with
                        | [] => false
                        | c3 :: r3 =>
                            if outside locb hicb c3 then false else Valid r3
                        end
                  end
            end
        end
  end.

(** utf8.ValidString *)
Definition ValidString (s : string) : bool := Valid (list_byte_of_string s).

(** utf8.RuneError, U+FFFD, as it is encoded. *)
Definition RuneError : list byte := [Byte.xef; Byte.xbf; Byte.xbd].

End utf8.

(** ** internal/api: the streaming relay *)

Module Api.
Import Converter.

(** *** extractValidUTF8 *)

(** The first loop of extractValidUTF8, [for i := 1; i <= checkLen; i++],
    with [n] iterations left. [Some idx] is the early return that splits
    the data at [idx]; [None] is leaving the loop. *)
Fixpoint scanTail (data : list byte) (checkLen n : nat) : option nat :=
  match n with
  | 0 => None
  | S n' =>
      let i := checkLen - n' in
      let idx := length data - i in
      match data !! idx with
      | None => None
      | Some b =>
          if (0xC0 <=? utf8.u8 b)%Z then
            let expectedLen :=
              if (0xF0 <=? utf8.u8 b)%Z then 4
              else if (0xE0 <=? utf8.u8 b)%Z then 3 else 2 in
            let actualLen := length data - idx in
            if actualLen <? expectedLen then Some idx else None
          else if (0x80 <=? utf8.u8 b)%Z && (utf8.u8 b <? 0xC0)%Z then
            scanTail data checkLen n'
          else None
      end
  end.

(** The second loop of extractValidUTF8, [for len(data) > 0], on the data
    reversed: [rdata] is what is left of the data, last byte first, and
    [remaining] the bytes taken off its end so far. When what is left is
    valid, the code returns it with a nil remainder. *)
Fixpoint stripTail (rdata : list byte) (remaining : list byte) : string * list byte :=
  match rdata with
  | [] => ("", remaining)
  | b :: rdata' =>
      if utf8.Valid (rev rdata) then (string_of_list_byte (rev rdata), [])
      else stripTail rdata' (b :: remaining)
  end.

(** extractValidUTF8 *)
Definition extractValidUTF8 (data : list byte) : string * list byte :=
  if length data =? 0 then ("", [])
  else if utf8.Valid data then (string_of_list_byte data, [])
  else
    let checkLen := if length data <? 4 then length data else 4 in
    match scanTail data checkLen checkLen with
    | Some idx => (string_of_list_byte (take idx data), drop idx data)
    | None => stripTail (rev data) []
    end.

(** *** The output sink

    What has been written to the http.ResponseWriter, one entry per
    server-sent event, and whether the connection is gone; a write on a
    connection that is gone fails and writes nothing. An entry is the
    value that WriteStreamData hands to json.Marshal; what a client reads
    of its texts is given by [json_String] below. *)
Inductive Event :=
| EvChunk (c : OpenAIStreamChunk)
| EvError (message : string)
| EvDone.

Record ResponseWriter := {
  wire : list Event;
  gone : bool
}.

(** A Go [error]: [None] is nil. *)
Definition error : Type := option string.

(** WriteStreamData for a stream chunk. *)
Definition WriteStreamData (w : ResponseWriter) (e : Event) : ResponseWriter * error :=
  if gone w then (w, Some "write: broken pipe")
  else ({| wire := wire w ++ [e]; gone := gone w |}, None).

(** A Go string as json.Marshal writes it and a JSON decoder reads it
    back. The encoder goes through the string as utf8.DecodeRuneInString
    cuts it: an encoding that is valid is written as it is, and for a
    byte that begins none the encoder writes U+FFFD and goes on with the
    next byte. *)
Fixpoint json_String (p : list byte) : list byte :=
  match p with
  | [] => []
  | p0 :: r0 =>
      if (utf8.u8 p0 <? utf8.RuneSelf)%Z then p0 :: json_String r0
      else
        match utf8.first p0 with
        | None => utf8.RuneError ++ json_String r0
        | Some (size, lo, hi) =>
            match r0 with
            | [] => utf8.RuneError
            | c1 :: r1 =>
                if utf8.outside lo hi c1 then utf8.RuneError ++ json_String r0
                else if size =? 2 then p0 :: c1 :: json_String r1
                else
                  match r1 with
                  | [] => utf8.RuneError ++ json_String r0
                  | c2 :: r2 =>
                      if utf8.outside utf8.locb utf8.hicb c2
                      then utf8.RuneError ++ json_String r0
                      else if size =? 3 then p0 :: c1 :: c2 :: json_String r2
                      else
                        match r2 with
                        | [] => utf8.RuneError ++ json_String r0
                        | c3 :: r3 =>
                            if utf8.outside utf8.locb utf8.hicb c3
                            then utf8.RuneError ++ json_String r0
                            else p0 :: c1 :: c2 :: c3 :: json_String r3
                        end
                  end
            end
        end
  end.

(** WriteStreamDone *)
Definition WriteStreamDone (w : ResponseWriter) : ResponseWriter :=
  fst (WriteStreamData w EvDone).

(** WriteStreamError *)
Definition WriteStreamError (w : ResponseWriter) (errMsg : string) : ResponseWriter :=
  WriteStreamDone (fst (WriteStreamData w (EvError errMsg))).

(** *** StreamWriter *)

Record StreamWriter := {
  sw_w : ResponseWriter;
  sw_id : string;
  sw_created : Z;
  sw_model : string;
  sentRole : bool;
  contentBuffer : list byte;
  reasoningBuffer : list byte
}.

(** NewStreamWriter *)
Definition NewStreamWriter (w : ResponseWriter) (id : string) (created : Z)
    (model : string) : StreamWriter :=
  {| sw_w := w; sw_id := id; sw_created := created; sw_model := model;
     sentRole := false; contentBuffer := []; reasoningBuffer := [] |}.

(** The chunk a writer builds around a delta. *)
Definition chunkOf (sw : StreamWriter) (delta : Delta) (finishReason : option string)
    (usage : option Usage) : Event :=
  EvChunk (CreateStreamChunk (sw_id sw) (sw_created sw) (sw_model sw)
             (Some delta) finishReason usage).

(** The writer after a write of [e] to its sink. *)
Definition emit (sw : StreamWriter) (e : Event) : StreamWriter * error :=
  let '(w', err) := WriteStreamData (sw_w sw) e in
  ({| sw_w := w'; sw_id := sw_id sw; sw_created := sw_created sw;
      sw_model := sw_model sw; sentRole := sentRole sw;
      contentBuffer := contentBuffer sw; reasoningBuffer := reasoningBuffer sw |}, err).

(** writeRoleLocked *)
Definition writeRoleLocked (sw : StreamWriter) : StreamWriter * error :=
  if sentRole sw then (sw, None)
  else
    let sw1 := {| sw_w := sw_w sw; sw_id := sw_id sw; sw_created := sw_created sw;
                  sw_model := sw_model sw; sentRole := true;
                  contentBuffer := contentBuffer sw;
                  reasoningBuffer := reasoningBuffer sw |} in
    emit sw1 (chunkOf sw1 {| d_Role := "assistant"; d_Content := "";
                             d_ToolCalls := []; d_Reasoning := "" |} None None).

(** WriteRole; the mutex makes every method of the writer one atomic step. *)
Definition WriteRole (sw : StreamWriter) : StreamWriter * error :=
  writeRoleLocked sw.

(** WriteContent *)
Definition WriteContent (sw : StreamWriter) (content : string) : StreamWriter * error :=
  let sw1 := fst (writeRoleLocked sw) in
  let data := contentBuffer sw1 ++ list_byte_of_string content in
  let '(validContent, remaining) := extractValidUTF8 data in
  let sw2 := {| sw_w := sw_w sw1; sw_id := sw_id sw1; sw_created := sw_created sw1;
                sw_model := sw_model sw1; sentRole := sentRole sw1;
                contentBuffer := remaining;
                reasoningBuffer := reasoningBuffer sw1 |} in
  if negb (nonempty_string validContent) then (sw2, None)
  else emit sw2 (chunkOf sw2 {| d_Role := ""; d_Content := validContent;
                                d_ToolCalls := []; d_Reasoning := "" |} None None).

(** WriteReasoning *)
Definition WriteReasoning (sw : StreamWriter) (reasoning : string) : StreamWriter * error :=
  let sw1 := fst (writeRoleLocked sw) in
  let data := reasoningBuffer sw1 ++ list_byte_of_string reasoning in
  let '(validReasoning, remaining) := extractValidUTF8 data in
  let sw2 := {| sw_w := sw_w sw1; sw_id := sw_id sw1; sw_created := sw_created sw1;
                sw_model := sw_model sw1; sentRole := sentRole sw1;
                contentBuffer := contentBuffer sw1;
                reasoningBuffer := remaining |} in
  if negb (nonempty_string validReasoning) then (sw2, None)
  else emit sw2 (chunkOf sw2 {| d_Role := ""; d_Content := "";
                                d_ToolCalls := []; d_Reasoning := validReasoning |}
                         None None).

(** WriteToolCalls *)
Definition WriteToolCalls (sw : StreamWriter) (toolCalls : list OpenAIToolCall)
    : StreamWriter * error :=
  let sw1 := fst (writeRoleLocked sw) in
  emit sw1 (chunkOf sw1 {| d_Role := ""; d_Content := ""; d_ToolCalls := toolCalls;
                           d_Reasoning := "" |} None None).

(** The first half of flushLocked: the content buffer. *)
Definition flushContent (sw : StreamWriter) : StreamWriter * error :=
  if 0 <? length (contentBuffer sw) then
    let content := string_of_list_byte (contentBuffer sw) in
    let sw1 := {| sw_w := sw_w sw; sw_id := sw_id sw; sw_created := sw_created sw;
                  sw_model := sw_model sw; sentRole := sentRole sw;
                  contentBuffer := [];
                  reasoningBuffer := reasoningBuffer sw |} in
    if nonempty_string content
    then emit sw1 (chunkOf sw1 {| d_Role := ""; d_Content := content;
                                  d_ToolCalls := []; d_Reasoning := "" |} None None)
    else (sw1, None)
  else (sw, None).

(** The second half of flushLocked: the reasoning buffer. *)
Definition flushReasoning (sw : StreamWriter) : StreamWriter * error :=
  if 0 <? length (reasoningBuffer sw) then
    let reasoning := string_of_list_byte (reasoningBuffer sw) in
    let sw1 := {| sw_w := sw_w sw; sw_id := sw_id sw; sw_created := sw_created sw;
                  sw_model := sw_model sw; sentRole := sentRole sw;
                  contentBuffer := contentBuffer sw;
                  reasoningBuffer := [] |} in
    if nonempty_string reasoning
    then emit sw1 (chunkOf sw1 {| d_Role := ""; d_Content := "";
                                  d_ToolCalls := []; d_Reasoning := reasoning |}
                           None None)
    else (sw1, None)
  else (sw, None).

(** flushLocked: a failed write of the content returns before the
    reasoning buffer is looked at. *)
Definition flushLocked (sw : StreamWriter) : StreamWriter * error :=
  match flushContent sw with
  | (sw1, Some err) => (sw1, Some err)
  | (sw1, None) => flushReasoning sw1
  end.

(** Flush *)
Definition Flush (sw : StreamWriter) : StreamWriter * error := flushLocked sw.

(** WriteFinish *)
Definition WriteFinish (sw : StreamWriter) (reason : string) (usage : option Usage)
    : StreamWriter * error :=
  let sw1 := fst (flushLocked sw) in
  match emit sw1 (chunkOf sw1 Delta0 (Some reason) usage) with
  | (sw2, Some err) => (sw2, Some err)
  | (sw2, None) =>
      ({| sw_w := WriteStreamDone (sw_w sw2); sw_id := sw_id sw2;
          sw_created := sw_created sw2; sw_model := sw_model sw2;
          sentRole := sentRole sw2; contentBuffer := contentBuffer sw2;
          reasoningBuffer := reasoningBuffer sw2 |}, None)
  end.

(** WriteHeartbeat *)
Definition WriteHeartbeat (sw : StreamWriter) : StreamWriter * error :=
  let sw1 := fst (writeRoleLocked sw) in
  emit sw1 (chunkOf sw1 Delta0 None None).

(** *** ProcessStreamResponse *)

Record StreamChunk := {
  sk_Type : string;
  sk_Content : string;
  sk_ToolCalls : list OpenAIToolCall;
  sk_Usage : option UsageMetadata
}.

Record StreamPart := {
  sp_Text : string;
  sp_FunctionCall : option FunctionCall;
  sp_Thought : bool
}.

Record StreamCandidate := {
  scand_Parts : list StreamPart;
  scand_FinishReason : string
}.

Record StreamData := {
  sd_Candidates : list StreamCandidate;
  sd_UsageMetadata : option UsageMetadata
}.

(** How the reads of the body end: [io.EOF] or another error. *)
Inductive ReadEnd :=
| EOF
| ReadError (err : string).

(** The *http.Response handed to ProcessStreamResponse: the
    Content-Encoding header, the error of gzip.NewReader when the body is
    compressed, the lines that successive [ReadString('\n')] calls return
    with a nil error (each one ends with its line feed), and the error of
    the read that follows them. *)
Record Response := {
  ContentEncoding : string;
  gzip_NewReader : error;
  body_lines : list string;
  body_end : ReadEnd
}.

(** json.Unmarshal into a StreamData. *)
Class StreamCodec := {
  json_Unmarshal_StreamData : string -> option StreamData
}.

Section Stream.
Context `{RT : Runtime} `{SC : StreamCodec}.

(** The variables of the loop: the usage seen last, the pending tool
    calls, the number of identifiers generated, and the chunks handed to
    the callback so far, in order. *)
Record LoopState := {
  ls_usage : option UsageMetadata;
  ls_toolCalls : list OpenAIToolCall;
  ls_drawn : nat;
  ls_out : list StreamChunk
}.

Definition callback (st : LoopState) (c : StreamChunk) : LoopState :=
  {| ls_usage := ls_usage st; ls_toolCalls := ls_toolCalls st;
     ls_drawn := ls_drawn st; ls_out := ls_out st ++ [c] |}.

(** The body of [for _, part := range candidate.Content.Parts]. *)
Definition processPart (st : LoopState) (part : StreamPart) : LoopState :=
  if sp_Thought part then
    callback st {| sk_Type := "thinking"; sk_Content := sp_Text part;
                   sk_ToolCalls := []; sk_Usage := None |}
  else if nonempty_string (sp_Text part) then
    callback st {| sk_Type := "text"; sk_Content := sp_Text part;
                   sk_ToolCalls := []; sk_Usage := None |}
  else match sp_FunctionCall part with
  | Some fc =>
      let fresh := negb (nonempty_string (fc_ID fc)) in
      {| ls_usage := ls_usage st;
         ls_toolCalls := ls_toolCalls st ++
           [ {| otc_ID := if fresh then GenerateToolCallID (ls_drawn st) else fc_ID fc;
                otc_Type := "function";
                otc_Function := {| ofc_Name := fc_Name fc;
                                   ofc_Arguments := json_Marshal (fc_Args fc) |};
                otc_ThoughtSignature := "" |} ];
         ls_drawn := if fresh then S (ls_drawn st) else ls_drawn st;
         ls_out := ls_out st |}
  | None => st
  end.

(** The chunk that carries the pending tool calls. *)
Definition toolCallsChunk (toolCalls : list OpenAIToolCall) : StreamChunk :=
  {| sk_Type := "tool_calls"; sk_Content := ""; sk_ToolCalls := toolCalls;
     sk_Usage := None |}.

(** The rest of an iteration once the line has been decoded. *)
Definition processData (st : LoopState) (data : StreamData) : LoopState :=
  let st1 :=
    match sd_UsageMetadata data with
    | Some u => {| ls_usage := Some u; ls_toolCalls := ls_toolCalls st;
                   ls_drawn := ls_drawn st; ls_out := ls_out st |}
    | None => st
    end in
  match sd_Candidates data with
  | [] => st1
  | candidate :: _ =>
      let st2 := fold_left processPart (scand_Parts candidate) st1 in
      if nonempty_string (scand_FinishReason candidate)
         && negb (Nat.eqb (length (ls_toolCalls st2)) 0)
      then {| ls_usage := ls_usage st2; ls_toolCalls := [];
              ls_drawn := ls_drawn st2;
              ls_out := ls_out st2 ++ [toolCallsChunk (ls_toolCalls st2)] |}
      else st2
  end.

(** What one line read from the body is to the loop. *)
Inductive LineKind :=
| Skipped
| Sentinel
| Payload (data : StreamData).

Definition classify (line : string) : LineKind :=
  let line1 := TrimSuffixChar line "010"%char in
  let line2 := TrimSuffixChar line1 "013"%char in
  match CutPrefix line2 "data: " with
  | None => Skipped
  | Some jsonData =>
      if String.eqb jsonData "[DONE]" then Sentinel
      else match json_Unmarshal_StreamData jsonData with
           | None => Skipped
           | Some data => Payload data
           end
  end.

(** The [for] loop. The error is [Some] when the loop is left by
    [return usage, err]; it is [None] when it is left by [break]. *)
Fixpoint readLoop (lines : list string) (fin : ReadEnd) (st : LoopState)
    : LoopState * error :=
  match lines with
  | [] =>
      match fin with
      | EOF => (st, None)
      | ReadError err => (st, Some err)
      end
  | line :: rest =>
      match classify line with
      | Skipped => readLoop rest fin st
      | Sentinel =>
          (callback st {| sk_Type := "done"; sk_Content := ""; sk_ToolCalls := [];
                          sk_Usage := None |}, None)
      | Payload data => readLoop rest fin (processData st data)
      end
  end.

(** ProcessStreamResponse: the chunks handed to the callback, in order,
    and the two results. [k] identifiers have been generated before. *)
Definition ProcessStreamResponse (k : nat) (resp : Response)
    : list StreamChunk * option UsageMetadata * error :=
  match (if String.eqb (ContentEncoding resp) "gzip" then gzip_NewReader resp else None) with
  | Some err => ([], None, Some err)
  | None =>
      let st0 := {| ls_usage := None; ls_toolCalls := []; ls_drawn := k; ls_out := [] |} in
      match readLoop (body_lines resp) (body_end resp) st0 with
      | (st, Some err) => (ls_out st, ls_usage st, Some err)
      | (st, None) =>
          let out :=
            if negb (Nat.eqb (length (ls_toolCalls st)) 0)
            then ls_out st ++ [toolCallsChunk (ls_toolCalls st)]
            else ls_out st in
          (out, ls_usage st, None)
      end
  end.

End Stream.

(** *** Calls on a writer

    One call of a method of the StreamWriter; the callers in the handlers
    drop the error that the call returns. *)
Inductive Op :=
| OpRole
| OpContent (content : string)
| OpReasoning (reasoning : string)
| OpToolCalls (toolCalls : list OpenAIToolCall)
| OpFlush
| OpFinish (reason : string) (usage : option Usage)
| OpHeartbeat.

Definition call (sw : StreamWriter) (op : Op) : StreamWriter * error :=
  match op with
  | OpRole => WriteRole sw
  | OpContent content => WriteContent sw content
  | OpReasoning reasoning => WriteReasoning sw reasoning
  | OpToolCalls toolCalls => WriteToolCalls sw toolCalls
  | OpFlush => Flush sw
  | OpFinish reason usage => WriteFinish sw reason usage
  | OpHeartbeat => WriteHeartbeat sw
  end.

Definition exec (sw : StreamWriter) (op : Op) : StreamWriter := fst (call sw op).

Definition execs (sw : StreamWriter) (ops : list Op) : StreamWriter :=
  fold_left exec ops sw.

End Api.

(** ** internal/server/handlers *)

Module Handlers.
Import Converter Api.

(** A Go error met by a handler: the text of [err.Error()], and the status
    when the error is an [*api.APIError]. *)
Record GoError := {
  err_Status : option Z;
  err_Error : string
}.

(** The account store and the upstream client, which live in
    internal/store and internal/api, and the decoding of the request body. *)
Class Services := {
  GetToken : Account + GoError;
  GetTokenByEmail : string -> Account + GoError;
  GetTokenByProjectID : string -> Account + GoError;
  api_GenerateContent : AntigravityRequest -> Account -> AntigravityResponse + GoError;
  api_GenerateContentStream : AntigravityRequest -> Account -> Response + GoError;
  json_Decode : string -> OpenAIChatRequest + GoError
}.

Definition StatusOK : Z := 200.
Definition StatusBadRequest : Z := 400.
Definition StatusNotFound : Z := 404.
Definition StatusInternalServerError : Z := 500.
Definition StatusServiceUnavailable : Z := 503.

(** getErrorStatus *)
Definition getErrorStatus (err : GoError) : Z :=
  match err_Status err with
  | Some status => status
  | None => StatusInternalServerError
  end.

(** What a handler does, in order: its calls of the upstream client and
    what it answers. [Streamed w] is the sink as a stream handler leaves
    it. The bypass relay runs two tasks once its first heartbeat is
    written; its runs are the ones of [fire] below. *)
Inductive Action :=
| CallGenerateContent (req : AntigravityRequest) (token : Account)
| CallGenerateContentStream (req : AntigravityRequest) (token : Account)
| WriteError (status : Z) (message : string)
| WriteJSON (status : Z) (body : OpenAIChatCompletion)
| Streamed (w : ResponseWriter)
| BypassRelay (model : string) (result : AntigravityResponse + GoError)
| Panic.

Section Handlers.
Context `{MT : ModelTable} `{RT : Runtime} `{SC : StreamCodec} `{SV : Services}.

Definition setModel (req : OpenAIChatRequest) (model : string) : OpenAIChatRequest :=
  {| req_Model := model; Messages := Messages req; Stream := Stream req;
     req_Temperature := req_Temperature req; req_TopP := req_TopP req;
     MaxTokens := MaxTokens req; Stop := Stop req; Tools := Tools req;
     ToolChoice := ToolChoice req |}.

(** The special handling of image models in handleNonStreamRequest. *)
Definition imageGen (a : AntigravityRequest) : AntigravityRequest :=
  let r := Request a in
  let si :=
    match ir_SystemInstruction r with
    | Some {| si_Parts := p :: ps |} =>
        Some {| si_Parts :=
          {| p_Text := p_Text p +:+ "（当前作为图像生成模型使用，请根据描述生成图片）";
             p_FunctionCall := p_FunctionCall p;
             p_FunctionResponse := p_FunctionResponse p;
             p_InlineData := p_InlineData p; p_Thought := p_Thought p;
             p_ThoughtSignature := p_ThoughtSignature p |} :: ps |}
    | other => other
    end in
  {| Project := Project a; RequestID := RequestID a;
     Request := {| ir_SystemInstruction := si; ir_Contents := ir_Contents r;
                   ir_Tools := []; ir_ToolConfig := None;
                   ir_GenerationConfig := ir_GenerationConfig r;
                   ir_SessionID := ir_SessionID r |};
     ar_Model := ar_Model a; UserAgent := UserAgent a;
     RequestType := "image_gen" |}.

(** handleNonStreamRequest *)
Definition handleNonStreamRequest (req : OpenAIChatRequest) (token : Account)
    : list Action :=
  let antigravityReq0 := ConvertOpenAIToAntigravity 0 req token in
  let antigravityReq :=
    if IsImageModel (req_Model req) then imageGen antigravityReq0
    else antigravityReq0 in
  CallGenerateContent antigravityReq token ::
  match api_GenerateContent antigravityReq token with
  | inr err => [WriteError (getErrorStatus err) (err_Error err)]
  | inl resp =>
      match ConvertToOpenAIResponse 2 resp (req_Model req) with
      | None => [Panic]
      | Some openAIResp => [WriteJSON StatusOK openAIResp]
      end
  end.

(** The callback that handleStreamRequest hands to ProcessStreamResponse,
    on the writer and on the variable [toolCalls]. *)
Definition relayChunk (st : StreamWriter * list OpenAIToolCall) (chunk : StreamChunk)
    : StreamWriter * list OpenAIToolCall :=
  let '(sw, toolCalls) := st in
  if String.eqb (sk_Type chunk) "thinking" then
    (exec sw (OpReasoning (sk_Content chunk)), toolCalls)
  else if String.eqb (sk_Type chunk) "text" then
    (exec sw (OpContent (sk_Content chunk)), toolCalls)
  else if String.eqb (sk_Type chunk) "tool_calls" then
    (exec sw (OpToolCalls (sk_ToolCalls chunk)), sk_ToolCalls chunk)
  else st.

(** The relay of handleStreamRequest once the upstream stream is open. *)
Definition relayStream (w : ResponseWriter) (model : string) (resp : Response)
    : ResponseWriter :=
  let sw0 := NewStreamWriter w (GenerateChatCompletionID 2) time_Now_Unix model in
  let '(chunks, usage, _) := ProcessStreamResponse 3 resp in
  let '(sw1, toolCalls) := fold_left relayChunk chunks (sw0, []) in
  let finishReason :=
    if negb (Nat.eqb (length toolCalls) 0) then "tool_calls" else "stop" in
  sw_w (exec sw1 (OpFinish finishReason (ConvertUsage usage))).

(** The upstream call of handleBypassStream, made while the heartbeat task
    runs. *)
Definition bypassRequest (req : OpenAIChatRequest) (token : Account)
    : AntigravityRequest :=
  ConvertOpenAIToAntigravity 1 (setModel req (ResolveModelName (req_Model req))) token.

(** handleBypassStream, as far as the upstream call goes. The handler
    writes the first heartbeat itself and returns when that write fails,
    before the heartbeat goroutine is started and before the upstream
    client is called. Otherwise the call is made while the two tasks run;
    their runs are the ones of [fire] below. (In the earlier revision of
    the handler the goroutine writes the first heartbeat and the handler
    goes on to the call in any case.) *)
Definition handleBypassStream (w : ResponseWriter) (req : OpenAIChatRequest)
    (token : Account) : list Action :=
  let streamWriter :=
    NewStreamWriter w (GenerateChatCompletionID 0) time_Now_Unix (req_Model req) in
  match WriteHeartbeat streamWriter with
  | (streamWriter', Some _) => [Streamed (sw_w streamWriter')]
  | (_, None) =>
      let antigravityReq := bypassRequest req token in
      [ CallGenerateContent antigravityReq token;
        BypassRelay (req_Model req) (api_GenerateContent antigravityReq token) ]
  end.

(** handleStreamRequest on the sink [w]. *)
Definition handleStreamRequest (w : ResponseWriter) (req : OpenAIChatRequest)
    (token : Account) : list Action :=
  if IsBypassModel (req_Model req) then handleBypassStream w req token
  else
    let antigravityReq := ConvertOpenAIToAntigravity 0 req token in
    CallGenerateContentStream antigravityReq token ::
    match api_GenerateContentStream antigravityReq token with
    | inr err => [Streamed (WriteStreamError w (err_Error err))]
    | inl resp => [Streamed (relayStream w (req_Model req) resp)]
    end.

(** HandleChatCompletions *)
Definition HandleChatCompletions (w : ResponseWriter) (body : string) : list Action :=
  match json_Decode body with
  | inr err => [WriteError StatusBadRequest ("Invalid request: " +:+ err_Error err)]
  | inl req =>
      match GetToken with
      | inr err => [WriteError StatusServiceUnavailable (err_Error err)]
      | inl token =>
          if Stream req then handleStreamRequest w req token
          else handleNonStreamRequest req token
      end
  end.

(** HandleChatCompletionsWithCredential; [credential] is the path value. *)
Definition HandleChatCompletionsWithCredential (w : ResponseWriter)
    (credential : string) (body : string) : list Action :=
  match json_Decode body with
  | inr err => [WriteError StatusBadRequest ("Invalid request: " +:+ err_Error err)]
  | inl req =>
      let lookup :=
        if ContainsChar credential "@"%char then GetTokenByEmail credential
        else GetTokenByProjectID credential in
      match lookup with
      | inr _ => [WriteError StatusNotFound ("Credential not found: " +:+ credential)]
      | inl token =>
          if Stream req then handleStreamRequest w req token
          else handleNonStreamRequest req token
      end
  end.

(** *** handleBypassStream

    The handler and the heartbeat goroutine, as two tasks that take turns
    in any order. A method of the writer holds the mutex from its first to
    its last statement and is one step. *)

(** Where the handler is. *)
Inductive MainPc :=
| AtFirstHeartbeat
| AtGo
| AtGenerateContent
| AtCloseDone
| AtBurst (ops : list Op)
| Returned
| Panicked.

(** Where the goroutine is: not started, at its [select], about to call
    WriteHeartbeat after the ticker case was chosen, or returned. *)
Inductive HbPc :=
| NotStarted
| AtSelect
| AtWriteHeartbeat
| Exited.

Record Bypass := {
  b_main : MainPc;
  b_hb : HbPc;
  b_sw : StreamWriter;
  b_done : bool;
  b_ctxDone : bool;
  b_tick : bool
}.

(** The writer calls that follow [close(done)]; [None] is the panic of
    ConvertToOpenAIResponse. *)
Definition burst (model : string) (result : AntigravityResponse + GoError)
    : option (list Op) :=
  match result with
  | inr err => Some [OpContent ("Error: " +:+ err_Error err); OpFinish "stop" None]
  | inl resp =>
      match ConvertToOpenAIResponse 2 resp model with
      | None => None
      | Some openAIResp =>
          match cc_Choices openAIResp with
          | choice :: _ =>
              let msg := ch_Message choice in
              Some ((if nonempty_string (msg_Reasoning msg)
                     then [OpReasoning (msg_Reasoning msg)] else [])
                    ++ (if negb (Nat.eqb (length (msg_ToolCalls msg)) 0)
                        then [OpToolCalls (msg_ToolCalls msg)] else [])
                    ++ (if nonempty_string (msg_Content msg)
                        then [OpContent (msg_Content msg)] else [])
                    ++ [OpFinish (match ch_FinishReason choice with
                                  | Some r => r
                                  | None => "stop"
                                  end)
                                 (cc_Usage openAIResp)])
          | [] => Some [OpFinish "stop" None]
          end
      end
  end.

(** The state in which handleBypassStream starts. *)
Definition bypassInit (w : ResponseWriter) (model : string) : Bypass :=
  {| b_main := AtFirstHeartbeat; b_hb := NotStarted;
     b_sw := NewStreamWriter w (GenerateChatCompletionID 0) time_Now_Unix model;
     b_done := false; b_ctxDone := false; b_tick := false |}.

(** Who moves: the handler, the ticker, the goroutine taking one of the
    three cases of its [select], the goroutine calling WriteHeartbeat, or
    the client going away. *)
Inductive Label :=
| Main
| Tick
| SelectTick
| SelectDone
| SelectCtx
| HeartbeatWrite
| ClientGone.

Definition setMain (s : Bypass) (pc : MainPc) : Bypass :=
  {| b_main := pc; b_hb := b_hb s; b_sw := b_sw s; b_done := b_done s;
     b_ctxDone := b_ctxDone s; b_tick := b_tick s |}.

Definition setHb (s : Bypass) (pc : HbPc) : Bypass :=
  {| b_main := b_main s; b_hb := pc; b_sw := b_sw s; b_done := b_done s;
     b_ctxDone := b_ctxDone s; b_tick := b_tick s |}.

(** One step of the handler. *)
Definition fireMain (model : string) (result : AntigravityResponse + GoError)
    (s : Bypass) : option Bypass :=
  match b_main s with
  | AtFirstHeartbeat =>
      let '(sw', err) := WriteHeartbeat (b_sw s) in
      Some {| b_main := match err with Some _ => Returned | None => AtGo end;
              b_hb := b_hb s; b_sw := sw'; b_done := b_done s;
              b_ctxDone := b_ctxDone s; b_tick := b_tick s |}
  | AtGo => Some (setHb (setMain s AtGenerateContent) AtSelect)
  | AtGenerateContent => Some (setMain s AtCloseDone)
  | AtCloseDone =>
      Some {| b_main := match burst model result with
                        | Some ops => AtBurst ops
                        | None => Panicked
                        end;
              b_hb := b_hb s; b_sw := b_sw s; b_done := true;
              b_ctxDone := match burst model result with
                           | Some _ => b_ctxDone s
                           | None => true
                           end;
              b_tick := b_tick s |}
  | AtBurst (op :: ops) =>
      Some {| b_main := AtBurst ops; b_hb := b_hb s; b_sw := exec (b_sw s) op;
              b_done := b_done s; b_ctxDone := b_ctxDone s; b_tick := b_tick s |}
  | AtBurst [] =>
      Some {| b_main := Returned; b_hb := b_hb s; b_sw := b_sw s;
              b_done := b_done s; b_ctxDone := true; b_tick := b_tick s |}
  | Returned => None
  | Panicked => None
  end.

(** One step of the system; [None] when the move is not enabled. *)
Definition fire (model : string) (result : AntigravityResponse + GoError)
    (l : Label) (s : Bypass) : option Bypass :=
  match l with
  | Main => fireMain model result s
  | Tick =>
      match b_hb s with
      | AtSelect | AtWriteHeartbeat =>
          Some {| b_main := b_main s; b_hb := b_hb s; b_sw := b_sw s;
                  b_done := b_done s; b_ctxDone := b_ctxDone s; b_tick := true |}
      | _ => None
      end
  | SelectTick =>
      match b_hb s with
      | AtSelect =>
          if b_tick s
          then Some {| b_main := b_main s; b_hb := AtWriteHeartbeat; b_sw := b_sw s;
                       b_done := b_done s; b_ctxDone := b_ctxDone s; b_tick := false |}
          else None
      | _ => None
      end
  | SelectDone =>
      match b_hb s with
      | AtSelect => if b_done s then Some (setHb s Exited) else None
      | _ => None
      end
  | SelectCtx =>
      match b_hb s with
      | AtSelect => if b_ctxDone s then Some (setHb s Exited) else None
      | _ => None
      end
  | HeartbeatWrite =>
      match b_hb s with
      | AtWriteHeartbeat =>
          let '(sw', err) := WriteHeartbeat (b_sw s) in
          Some {| b_main := b_main s;
                  b_hb := match err with Some _ => Exited | None => AtSelect end;
                  b_sw := sw'; b_done := b_done s; b_ctxDone := b_ctxDone s;
                  b_tick := b_tick s |}
      | _ => None
      end
  | ClientGone =>
      Some {| b_main := b_main s; b_hb := b_hb s;
              b_sw := {| sw_w := {| wire := wire (sw_w (b_sw s)); gone := true |};
                         sw_id := sw_id (b_sw s); sw_created := sw_created (b_sw s);
                         sw_model := sw_model (b_sw s); sentRole := sentRole (b_sw s);
                         contentBuffer := contentBuffer (b_sw s);
                         reasoningBuffer := reasoningBuffer (b_sw s) |};
              b_done := b_done s; b_ctxDone := true; b_tick := b_tick s |}
  end.

(** A run: the moves of a schedule, one after the other. *)
Fixpoint run (model : string) (result : AntigravityResponse + GoError)
    (schedule : list Label) (s : Bypass) : option Bypass :=
  match schedule with
  | [] => Some s
  | l :: rest =>
      match fire model result l s with
      | Some s' => run model result rest s'
      | None => None
      end
  end.

End Handlers.

End Handlers.

(** ** internal/api, earlier revision: the writer without buffers *)

Module Unbuffered.
Import Converter Api.

(** StreamWriter *)
Record StreamWriter := {
  sw_w : ResponseWriter;
  sw_id : string;
  sw_created : Z;
  sw_model : string;
  sentRole : bool
}.

(** NewStreamWriter *)
Definition NewStreamWriter (w : ResponseWriter) (id : string) (created : Z)
    (model : string) : StreamWriter :=
  {| sw_w := w; sw_id := id; sw_created := created; sw_model := model;
     sentRole := false |}.

(** The write of the chunk built around a delta. *)
Definition emit (sw : StreamWriter) (delta : Delta) (finishReason : option string)
    (usage : option Usage) : StreamWriter * error :=
  let '(w', err) :=
    WriteStreamData (sw_w sw)
      (EvChunk (CreateStreamChunk (sw_id sw) (sw_created sw) (sw_model sw)
                  (Some delta) finishReason usage)) in
  ({| sw_w := w'; sw_id := sw_id sw; sw_created := sw_created sw;
      sw_model := sw_model sw; sentRole := sentRole sw |}, err).

(** WriteRole *)
Definition WriteRole (sw : StreamWriter) : StreamWriter * error :=
  if sentRole sw then (sw, None)
  else
    emit {| sw_w := sw_w sw; sw_id := sw_id sw; sw_created := sw_created sw;
            sw_model := sw_model sw; sentRole := true |}
         {| d_Role := "assistant"; d_Content := ""; d_ToolCalls := [];
            d_Reasoning := "" |} None None.

(** WriteContent *)
Definition WriteContent (sw : StreamWriter) (content : string) : StreamWriter * error :=
  emit (fst (WriteRole sw))
       {| d_Role := ""; d_Content := content; d_ToolCalls := []; d_Reasoning := "" |}
       None None.

(** WriteReasoning *)
Definition WriteReasoning (sw : StreamWriter) (reasoning : string)
    : StreamWriter * error :=
  emit (fst (WriteRole sw))
       {| d_Role := ""; d_Content := ""; d_ToolCalls := []; d_Reasoning := reasoning |}
       None None.

(** WriteToolCalls *)
Definition WriteToolCalls (sw : StreamWriter) (toolCalls : list OpenAIToolCall)
    : StreamWriter * error :=
  emit (fst (WriteRole sw))
       {| d_Role := ""; d_Content := ""; d_ToolCalls := toolCalls; d_Reasoning := "" |}
       None None.

(** WriteFinish *)
Definition WriteFinish (sw : StreamWriter) (reason : string) (usage : option Usage)
    : StreamWriter * error :=
  match emit sw Delta0 (Some reason) usage with
  | (sw1, Some err) => (sw1, Some err)
  | (sw1, None) =>
      ({| sw_w := WriteStreamDone (sw_w sw1); sw_id := sw_id sw1;
          sw_created := sw_created sw1; sw_model := sw_model sw1;
          sentRole := sentRole sw1 |}, None)
  end.

(** WriteHeartbeat; its delta is [Delta{Content: ""}], the zero value. *)
Definition WriteHeartbeat (sw : StreamWriter) : StreamWriter * error :=
  emit (fst (WriteRole sw)) Delta0 None None.

(** A call of a method of this writer; it has no Flush. *)
Definition call (sw : StreamWriter) (op : Op) : StreamWriter * error :=
  match op with
  | OpRole => WriteRole sw
  | OpContent content => WriteContent sw content
  | OpReasoning reasoning => WriteReasoning sw reasoning
  | OpToolCalls toolCalls => WriteToolCalls sw toolCalls
  | OpFlush => (sw, None)
  | OpFinish reason usage => WriteFinish sw reason usage
  | OpHeartbeat => WriteHeartbeat sw
  end.

Definition exec (sw : StreamWriter) (op : Op) : StreamWriter := fst (call sw op).

Definition execs (sw : StreamWriter) (ops : list Op) : StreamWriter :=
  fold_left exec ops sw.

End Unbuffered.

(** ** internal/server/handlers/admin.go *)

Module Admin.

(** strings.Split for a separator of one character. *)
Fixpoint SplitChar (s : string) (sep : ascii) : list string :=
  match s with
  | EmptyString => [EmptyString]
  | String a s' =>
      if Ascii.eqb a sep then EmptyString :: SplitChar s' sep
      else
        match SplitChar s' sep with
        | head :: rest => String a head :: rest
        | [] => [String a EmptyString]
        end
  end.

(** The width of the first rune as utf8.DecodeRuneInString finds it on a
    text that is not empty: the length of a well-formed encoding, or 0 when
    the first bytes are no such encoding and the result is RuneError with
    width 1. *)
Definition runeWidth (p : list byte) : nat :=
  match p with
  | [] => 0
  | p0 :: r0 =>
      if (utf8.u8 p0 <? utf8.RuneSelf)%Z then 1
      else
        match utf8.first p0 with
        | None => 0
        | Some (size, lo, hi) =>
            match r0 with
            | [] => 0
            | c1 :: r1 =>
                if utf8.outside lo hi c1 then 0
                else if size =? 2 then 2
                else
                  match r1 with
                  | [] => 0
                  | c2 :: r2 =>
                      if utf8.outside utf8.locb utf8.hicb c2 then 0
                      else if size =? 3 then 3
                      else
                        match r2 with
                        | [] => 0
                        | c3 :: _ =>
                            if utf8.outside utf8.locb utf8.hicb c3 then 0 else 4
                        end
                  end
            end
        end
  end.

(** The encoding of U+FFFD, which is what [string(utf8.RuneError)] is. *)
Definition RuneErrorString : string :=
  string_of_list_byte [Byte.xef; Byte.xbf; Byte.xbd].

(** [string([]rune(s)[0])]: the first rune of [s], encoded again. [None]
    is the panic of the index on an empty slice. *)
Definition firstRune (s : string) : option string :=
  match list_byte_of_string s with
  | [] => None
  | p =>
      let n := runeWidth p in
      if n =? 0 then Some RuneErrorString
      else Some (string_of_list_byte (take n p))
  end.

(** valueOrDefault *)
Definition valueOrDefault (val def : string) : string :=
  if nonempty_string val then val else def.

(** maskString *)
Definition maskString (s : string) : string :=
  if negb (nonempty_string s) then "未设置"
  else if String.length s <=? 8 then "****"
  else substring 0 4 s +:+ "****" +:+ substring (String.length s - 4) 4 s.

(** maskEmail; [None] is a panic. *)
Definition maskEmail (email : string) : option string :=
  if negb (nonempty_string email) then Some ""
  else
    let parts := SplitChar email "@"%char in
    if negb (length parts =? 2) then
      if String.length email <=? 1 then Some email
      else
        match firstRune email with
        | None => None
        | Some r => Some (r +:+ "****")
        end
    else
      match parts !! 0, parts !! 1 with
      | Some username, Some domain =>
          match firstRune username with
          | None => None
          | Some u =>
              match firstRune domain with
              | None => None
              | Some d => Some (u +:+ "****" +:+ "@" +:+ d +:+ "****")
              end
          end
      | _, _ => None
      end.

(** getModeLabel *)
Definition getModeLabel (mode : string) : string :=
  if String.eqb mode "round-robin" then "轮询(全部)"
  else if String.eqb mode "round-robin-dp" then "轮询(D+P)"
  else if String.eqb mode "daily" then "Daily"
  else if String.eqb mode "autopush" then "Autopush"
  else if String.eqb mode "production" then "Production"
  else mode.

(** An endpoint of the endpoint manager, as far as the handler reads it. *)
Record Endpoint := {
  ep_Label : string;
  ep_Host : string
}.

(** The item built for an endpoint. *)
Definition endpointItem (key : string) (ep : Endpoint) : gmap string JSON :=
  {[ "key" := JString key; "label" := JString (ep_Label ep);
     "host" := JString (ep_Host ep) ]}.

(** The body of the loop of HandleGetEndpoints, on the list of items and
    on [current]. *)
Definition endpointStep (mode : string)
    (st : list (gmap string JSON) * option (gmap string JSON))
    (entry : string * Endpoint) : list (gmap string JSON) * option (gmap string JSON) :=
  let '(endpoints, current) := st in
  let '(key, ep) := entry in
  let item := endpointItem key ep in
  (endpoints ++ [item],
   if String.eqb key mode
      || (String.eqb mode "round-robin" && String.eqb key "daily")
      || (String.eqb mode "round-robin-dp" && String.eqb key "daily")
   then Some item else current).

(** HandleGetEndpoints: the three fields of the answer. [allEndpoints] is
    the map of the endpoint manager in the order in which the range loop
    goes through it, which Go leaves open. *)
Definition HandleGetEndpoints (allEndpoints : list (string * Endpoint)) (mode : string)
    : list (gmap string JSON) * option (gmap string JSON) * string :=
  let '(endpoints, current) := fold_left (endpointStep mode) allEndpoints ([], None) in
  let current' :=
    if String.eqb mode "round-robin" || String.eqb mode "round-robin-dp"
    then Some {[ "key" := JString mode; "label" := JString (getModeLabel mode);
                 "host" := JString "多端点轮询" ]}
    else current in
  (endpoints, current', mode).

End Admin.

(** * Vocabulary of the properties *)

(** ** An environment to run the code on

    A model table with the model names of the README, and a runtime whose
    generators number their draws. *)
Module Sample.
Import Converter Api Handlers.

Definition endsWith (s suffix : string) : bool :=
  HasPrefix (string_of_list_ascii (rev (list_ascii_of_string s)))
            (string_of_list_ascii (rev (list_ascii_of_string suffix))).

Definition models : ModelTable :=
  {| ResolveModelName := fun m =>
       if String.eqb m "gemini-3-pro-high-bypass" then "gemini-3-pro-high" else m;
     IsClaudeModel := fun m => HasPrefix m "claude";
     GetClaudeMaxOutputTokens := fun _ => 64000%Z;
     ShouldEnableThinking := fun m enable =>
       match enable with
       | Some b => b
       | None => endsWith m "-thinking" || HasPrefix m "gemini-3-pro"
       end;
     BuildThinkingConfig := fun _ =>
       Some {| IncludeThoughts := true; ThinkingBudget := 1024 |};
     DefaultStopSequences := ["<|user|>"; "<|end_of_turn|>"];
     IsImageModel := fun m => String.eqb m "gemini-3-pro-image";
     IsBypassModel := fun m => endsWith m "-bypass" |}.

Definition runtime : Runtime :=
  {| json_Marshal := fun _ => "{}";
     json_Unmarshal := fun s => if String.eqb s "{}" then Some ∅ else None;
     GenerateRequestID := fun n => "agent-" +:+ pretty n;
     GenerateProjectID := fun n => "project-" +:+ pretty n;
     GenerateToolCallID := fun n => "call_" +:+ pretty n;
     GenerateChatCompletionID := fun n => "chatcmpl-" +:+ pretty n;
     config_UserAgent := "antigravity";
     time_Now_Unix := 1700000000%Z |}.

Definition account : Account :=
  {| acc_Email := "dev@example.com"; acc_ProjectID := "proj-1";
     acc_SessionID := "session-1" |}.

Definition message (role : string) (content : string) : OpenAIMessage :=
  {| m_Role := role; m_Content := JString content; m_ToolCalls := [];
     m_ToolCallID := ""; m_Name := "" |}.

Definition toolCall (id name : string) : OpenAIToolCall :=
  {| otc_ID := id; otc_Type := "function";
     otc_Function := {| ofc_Name := name; ofc_Arguments := "{}" |};
     otc_ThoughtSignature := "" |}.

Definition withToolCalls (msg : OpenAIMessage) (tcs : list OpenAIToolCall)
    : OpenAIMessage :=
  {| m_Role := m_Role msg; m_Content := m_Content msg; m_ToolCalls := tcs;
     m_ToolCallID := m_ToolCallID msg; m_Name := m_Name msg |}.

Definition toolResult (id : string) (content : string) : OpenAIMessage :=
  {| m_Role := "tool"; m_Content := JString content; m_ToolCalls := [];
     m_ToolCallID := id; m_Name := "" |}.

Definition request (model : string) (messages : list OpenAIMessage)
    : OpenAIChatRequest :=
  {| req_Model := model; Messages := messages; Stream := false;
     req_Temperature := None; req_TopP := None; MaxTokens := 0; Stop := [];
     Tools := []; ToolChoice := JNull |}.

End Sample.

(** ** Turns and messages *)

Module Turns.
Import Converter.

Section Turns.
Context `{RT : Runtime}.

(** The turn a user or an assistant message stands for by itself: a user
    turn for a user message, a model turn for an assistant message that
    has text or tool calls, nothing otherwise. *)
Definition turnOf (msg : OpenAIMessage) : option Content :=
  if String.eqb (m_Role msg) "user" then
    Some {| c_Role := "user"; c_Parts := extractParts (m_Content msg) |}
  else if String.eqb (m_Role msg) "assistant" then
    match assistantParts msg with
    | [] => None
    | parts => Some {| c_Role := "model"; c_Parts := parts |}
    end
  else None.

End Turns.

(** A part that holds a function response. *)
Definition isResponse (p : Part) : Prop := is_Some (p_FunctionResponse p).

(** The turn [c] with the parts [frs] appended. *)
Definition extend (c : Content) (frs : list Part) : Content :=
  {| c_Role := c_Role c; c_Parts := c_Parts c ++ frs |}.

(** [carries ts rs]: the turns [rs] are the turns [ts], each one as it
    is and in the same order, but for function responses: a user turn
    may have got function responses appended, and user turns made of
    function responses only may stand in between. A model turn stands as
    it is. *)
Inductive carries : list Content -> list Content -> Prop :=
| carries_nil : carries [] []
| carries_same t ts rs :
    carries ts rs ->
    carries (t :: ts) (t :: rs)
| carries_user t frs ts rs :
    c_Role t = "user" ->
    Forall isResponse frs ->
    carries ts rs ->
    carries (t :: ts) (extend t frs :: rs)
| carries_fold r ts rs :
    c_Role r = "user" ->
    Forall isResponse (c_Parts r) ->
    carries ts rs ->
    carries ts (r :: rs).

(** The number of turns with a given role. *)
Definition countRole (role : string) (contents : list Content) : nat :=
  length (filter (fun c => c_Role c = role) contents).

(** The number of messages with a given role. *)
Definition countMessages (role : string) (messages : list OpenAIMessage) : nat :=
  length (filter (fun m => m_Role m = role) messages).

End Turns.

(** ** The wire and the byte channels *)

Module Wire.
Import Converter Api.

(** [[]byte(s)] *)
Definition bytes (s : string) : list byte := list_byte_of_string s.

(** The delta of the first choice of a chunk event. *)
Definition deltaOf (e : Event) : option Delta :=
  match e with
  | EvChunk c =>
      match sc_Choices c with
      | choice :: _ => ch_Delta choice
      | [] => None
      end
  | _ => None
  end.

(** The finish reason of the first choice of a chunk event. *)
Definition finishOf (e : Event) : option string :=
  match e with
  | EvChunk c =>
      match sc_Choices c with
      | choice :: _ => ch_FinishReason choice
      | [] => None
      end
  | _ => None
  end.

Definition contentOf (e : Event) : string :=
  match deltaOf e with Some d => d_Content d | None => "" end.

Definition reasoningOf (e : Event) : string :=
  match deltaOf e with Some d => d_Reasoning d | None => "" end.

(** The role announcement: a delta with a role. *)
Definition isRole (e : Event) : bool :=
  match deltaOf e with Some d => nonempty_string (d_Role d) | None => false end.

(** The texts written on the content channel, and on the reasoning one. *)
Definition contentDeltas (es : list Event) : list string :=
  filter (fun s => s <> "") (map contentOf es).

Definition reasoningDeltas (es : list Event) : list string :=
  filter (fun s => s <> "") (map reasoningOf es).

(** What a call writes to the sink. *)
Definition emittedBy (sw : StreamWriter) (op : Op) : list Event :=
  drop (length (wire (sw_w sw))) (wire (sw_w (exec sw op))).

(** The bytes fed to the content channel, and to the reasoning one. *)
Definition fedContent (ops : list Op) : list byte :=
  concat (map (fun op => match op with OpContent s => bytes s | _ => [] end) ops).

Definition fedReasoning (ops : list Op) : list byte :=
  concat (map (fun op => match op with OpReasoning s => bytes s | _ => [] end) ops).

Definition isWrite (op : Op) : Prop :=
  match op with OpContent _ | OpReasoning _ => True | _ => False end.

(** The calls that announce the role before they write. *)
Definition announces (op : Op) : Prop :=
  match op with
  | OpContent _ | OpReasoning _ | OpToolCalls _ | OpHeartbeat => True
  | _ => False
  end.

(** [v] is the longest prefix of [data] that is valid UTF-8. *)
Definition longestValidPrefix (v data : list byte) : Prop :=
  v `prefix_of` data
  /\ utf8.Valid v = true
  /\ forall v', v' `prefix_of` data -> utf8.Valid v' = true -> length v' <= length v.

(** The first bytes of a multi-byte encoding, at least one and not all of
    them. *)
Definition incomplete (t : list byte) : bool :=
  match t with
  | [] => false
  | p0 :: r0 =>
      if (utf8.u8 p0 <? utf8.RuneSelf)%Z then false
      else
        match utf8.first p0 with
        | None => false
        | Some (size, lo, hi) =>
            match r0 with
            | [] => true
            | [c1] => negb (utf8.outside lo hi c1) && negb (size =? 2)
            | [c1; c2] =>
                negb (utf8.outside lo hi c1) && negb (size =? 2)
                && negb (utf8.outside utf8.locb utf8.hicb c2) && negb (size =? 3)
            | _ => false
            end
        end
  end.

(** What an event is. *)
Inductive Kind :=
| KRole
| KHeartbeat
| KContent
| KReasoning
| KToolCalls
| KFinish
| KDone
| KError.

Definition kind (e : Event) : Kind :=
  match e with
  | EvDone => KDone
  | EvError _ => KError
  | EvChunk _ =>
      match finishOf e, deltaOf e with
      | Some _, _ => KFinish
      | None, Some d =>
          if nonempty_string (d_Role d) then KRole
          else if nonempty_string (d_Content d) then KContent
          else if nonempty_string (d_Reasoning d) then KReasoning
          else if negb (Nat.eqb (length (d_ToolCalls d)) 0) then KToolCalls
          else KHeartbeat
      | None, None => KHeartbeat
      end
  end.

(** A sink nothing has been written to. *)
Definition freshSink : ResponseWriter := {| wire := []; gone := false |}.

(** The length that extractValidUTF8 expects after a leading byte. *)
Definition expectedLen (b : byte) : nat :=
  if (0xF0 <=? utf8.u8 b)%Z then 4 else if (0xE0 <=? utf8.u8 b)%Z then 3 else 2.

(** A continuation byte, 10xxxxxx. *)
Definition isCont (b : byte) : Prop := (0x80 <= utf8.u8 b < 0xC0)%Z.

Definition roleDelta : Delta :=
  {| d_Role := "assistant"; d_Content := ""; d_ToolCalls := []; d_Reasoning := "" |}.

Definition contentDelta (s : string) : Delta :=
  {| d_Role := ""; d_Content := s; d_ToolCalls := []; d_Reasoning := "" |}.

Definition reasoningDelta (s : string) : Delta :=
  {| d_Role := ""; d_Content := ""; d_ToolCalls := []; d_Reasoning := s |}.

Definition toolCallsDelta (tcs : list OpenAIToolCall) : Delta :=
  {| d_Role := ""; d_Content := ""; d_ToolCalls := tcs; d_Reasoning := "" |}.

(** The events of the role announcement still due. *)
Definition roleDue (sw : StreamWriter) : list Event :=
  if sentRole sw then [] else [chunkOf sw roleDelta None None].

(** The chunk of a text, when the text is not empty. *)
Definition chunkIf (sw : StreamWriter) (d : string -> Delta) (s : string) : list Event :=
  if nonempty_string s then [chunkOf sw (d s) None None] else [].

(** What flushLocked writes on a sink that takes the writes. *)
Definition flushed (sw : StreamWriter) : list Event :=
  chunkIf sw contentDelta (string_of_list_byte (contentBuffer sw))
  ++ chunkIf sw reasoningDelta (string_of_list_byte (reasoningBuffer sw)).

(** What a call writes on a sink that takes the writes. *)
Definition emits (sw : StreamWriter) (op : Op) : list Event :=
  match op with
  | OpRole => roleDue sw
  | OpContent s =>
      roleDue sw
      ++ chunkIf sw contentDelta (fst (extractValidUTF8 (contentBuffer sw ++ bytes s)))
  | OpReasoning s =>
      roleDue sw
      ++ chunkIf sw reasoningDelta (fst (extractValidUTF8 (reasoningBuffer sw ++ bytes s)))
  | OpToolCalls tcs => roleDue sw ++ [chunkOf sw (toolCallsDelta tcs) None None]
  | OpFlush => flushed sw
  | OpFinish reason usage => flushed sw ++ [chunkOf sw Delta0 (Some reason) usage; EvDone]
  | OpHeartbeat => roleDue sw ++ [chunkOf sw Delta0 None None]
  end.

(** Whether the role has been announced after a call. *)
Definition roleAfter (sw : StreamWriter) (op : Op) : bool :=
  match op with
  | OpFlush | OpFinish _ _ => sentRole sw
  | _ => true
  end.

End Wire.

(** ** The upstream stream *)

Module Relay.
Import Converter Api.

Section Relay.
Context `{RT : Runtime} `{SC : StreamCodec}.

(** The parts and the finish reason of the first candidate of an event;
    an event without candidates has neither. *)
Definition partsOf (data : StreamData) : list StreamPart :=
  match sd_Candidates data with
  | candidate :: _ => scand_Parts candidate
  | [] => []
  end.

Definition finishReasonOf (data : StreamData) : string :=
  match sd_Candidates data with
  | candidate :: _ => scand_FinishReason candidate
  | [] => ""
  end.

(** The function call that a part adds to the pending list: the one of a
    part that is no thought and has no text. *)
Definition callOfPart (part : StreamPart) : option FunctionCall :=
  if sp_Thought part then None
  else if nonempty_string (sp_Text part) then None
  else sp_FunctionCall part.

(** The function calls of a list of events, in order. *)
Definition callsOf (datas : list StreamData) : list FunctionCall :=
  concat (map (fun data => omap callOfPart (partsOf data)) datas).

(** The tool calls made of function calls, the ones without an identifier
    getting the next generated ones, from the draw [drawn] on. *)
Fixpoint assignIds (drawn : nat) (fcs : list FunctionCall) : list OpenAIToolCall :=
  match fcs with
  | [] => []
  | fc :: rest =>
      let fresh := negb (nonempty_string (fc_ID fc)) in
      {| otc_ID := if fresh then GenerateToolCallID drawn else fc_ID fc;
         otc_Type := "function";
         otc_Function := {| ofc_Name := fc_Name fc;
                            ofc_Arguments := json_Marshal (fc_Args fc) |};
         otc_ThoughtSignature := "" |}
      :: assignIds (if fresh then S drawn else drawn) rest
  end.

(** The number of draws after these function calls. *)
Fixpoint drawnAfter (drawn : nat) (fcs : list FunctionCall) : nat :=
  match fcs with
  | [] => drawn
  | fc :: rest =>
      drawnAfter (if negb (nonempty_string (fc_ID fc)) then S drawn else drawn) rest
  end.

(** The events that the loop handles: the decoded payload lines that come
    before the sentinel. *)
Fixpoint payloads (lines : list string) : list StreamData :=
  match lines with
  | [] => []
  | line :: rest =>
      match classify line with
      | Skipped => payloads rest
      | Sentinel => []
      | Payload data => data :: payloads rest
      end
  end.

(** Whether the sentinel is among the lines. *)
Definition hasSentinel (lines : list string) : bool :=
  existsb (fun line => match classify line with Sentinel => true | _ => false end) lines.

(** The chunk handed over for a part as soon as it is met: a thought, or
    a text that is not empty. *)
Definition spoken (part : StreamPart) : option StreamChunk :=
  if sp_Thought part then
    Some {| sk_Type := "thinking"; sk_Content := sp_Text part; sk_ToolCalls := [];
            sk_Usage := None |}
  else if nonempty_string (sp_Text part) then
    Some {| sk_Type := "text"; sk_Content := sp_Text part; sk_ToolCalls := [];
            sk_Usage := None |}
  else None.






End Relay.

(** The lists carried by the tool_calls chunks among the chunks handed to
    the callback, in order. *)
Definition toolCallChunks (out : list StreamChunk) : list (list OpenAIToolCall) :=
  map sk_ToolCalls (filter (fun c => sk_Type c = "tool_calls") out).


(** The body can be read: it is not compressed, or the gzip reader opens. *)
Definition readable (resp : Response) : Prop :=
  (if String.eqb (ContentEncoding resp) "gzip" then gzip_NewReader resp else None) = None.

(** The chunk of the pending list after the loop. *)
Definition flushEnd (st : LoopState) (out : list StreamChunk) : list StreamChunk :=
  if negb (Nat.eqb (length (ls_toolCalls st)) 0)
  then out ++ [toolCallsChunk (ls_toolCalls st)] else out.

(** The chunk handed over for the sentinel. *)
Definition doneChunk : StreamChunk :=
  {| sk_Type := "done"; sk_Content := ""; sk_ToolCalls := []; sk_Usage := None |}.

End Relay.

(** ** The handlers *)

Module Calls.
Import Converter Api Handlers.

(** A call of the upstream client. *)
Definition isUpstreamCall (a : Action) : bool :=
  match a with
  | CallGenerateContent _ _ | CallGenerateContentStream _ _ => true
  | _ => false
  end.

(** The number of upstream calls among the actions of a handler. *)
Definition upstreamCalls (actions : list Action) : nat :=
  length (filter (fun a => isUpstreamCall a = true) actions).

Section Calls.
Context `{MT : ModelTable} `{RT : Runtime} `{SC : StreamCodec} `{SV : Services}.

(** The end of both chat handlers, once the request and the account are
    there. *)
Definition dispatch (w : ResponseWriter) (req : OpenAIChatRequest) (token : Account)
    : list Action :=
  if Stream req then handleStreamRequest w req token
  else handleNonStreamRequest req token.

End Calls.

End Calls.

(** ** More of the environment: upstream events, accounts, responses *)

Module Fixtures.
Import Converter Api Handlers.

(** The text [s] with every apostrophe turned into a double quote, to
    write JSON down. *)
Definition json (s : string) : string :=
  string_of_list_ascii
    (map (fun a => if Ascii.eqb a "'"%char then ascii_of_nat 34 else a)
         (list_ascii_of_string s)).

Definition callPart (id name : string) : StreamPart :=
  {| sp_Text := "";
     sp_FunctionCall := Some {| fc_ID := id; fc_Name := name; fc_Args := ∅ |};
     sp_Thought := false |}.

Definition textPart (text : string) : StreamPart :=
  {| sp_Text := text; sp_FunctionCall := None; sp_Thought := false |}.

Definition event (parts : list StreamPart) (finishReason : string) : StreamData :=
  {| sd_Candidates := [ {| scand_Parts := parts; scand_FinishReason := finishReason |} ];
     sd_UsageMetadata := None |}.

(** Four payloads and what they decode to. *)
Definition payloadWeatherStop : string :=
  json "{'response':{'candidates':[{'content':{'parts':[{'functionCall':{'id':'c1','name':'get_weather','args':{}}}]},'finishReason':'STOP'}]}}".

Definition payloadTimeStop : string :=
  json "{'response':{'candidates':[{'content':{'parts':[{'functionCall':{'id':'c2','name':'get_time','args':{}}}]},'finishReason':'STOP'}]}}".

Definition payloadWeather : string :=
  json "{'response':{'candidates':[{'content':{'parts':[{'functionCall':{'id':'c1','name':'get_weather','args':{}}}]}}]}}".

Definition payloadText : string :=
  json "{'response':{'candidates':[{'content':{'parts':[{'text':'hi'}]}}]}}".

Definition codec : StreamCodec :=
  {| json_Unmarshal_StreamData := fun s =>
       if String.eqb s payloadWeatherStop then Some (event [callPart "c1" "get_weather"] "STOP")
       else if String.eqb s payloadTimeStop then Some (event [callPart "c2" "get_time"] "STOP")
       else if String.eqb s payloadWeather then Some (event [callPart "c1" "get_weather"] "")
       else if String.eqb s payloadText then Some (event [textPart "hi"] "")
       else None |}.

(** A line of the body: the marker, the payload and the line feed. *)
Definition dataLine (payload : string) : string :=
  "data: " +:+ payload +:+ String "010"%char EmptyString.

Definition stream (lines : list string) (fin : ReadEnd) : Response :=
  {| ContentEncoding := ""; gzip_NewReader := None; body_lines := lines; body_end := fin |}.

(** An upstream answer with one candidate that says hello. *)
Definition hello : AntigravityResponse :=
  {| resp_Candidates :=
       [ {| cand_Content :=
              {| c_Role := "model";
                 c_Parts := [ {| p_Text := "hello"; p_FunctionCall := None;
                                 p_FunctionResponse := None; p_InlineData := None;
                                 p_Thought := false; p_ThoughtSignature := "" |} ] |};
            cand_FinishReason := "STOP"; cand_Index := 0 |} ];
     resp_UsageMetadata := None |}.

Definition notFound : GoError :=
  {| err_Status := None; err_Error := "account not found" |}.

Definition chatBody : string := json "{'model':'gemini-3-pro-high','messages':[{'role':'user','content':'hi'}]}".

(** A store with the one account of [Sample], an upstream that says
    hello, and a decoder that knows [chatBody]. *)
Definition services : Services :=
  {| GetToken := inl Sample.account;
     GetTokenByEmail := fun email =>
       if String.eqb email (acc_Email Sample.account) then inl Sample.account
       else inr notFound;
     GetTokenByProjectID := fun projectID =>
       if String.eqb projectID (acc_ProjectID Sample.account) then inl Sample.account
       else inr notFound;
     api_GenerateContent := fun _ _ => inl hello;
     api_GenerateContentStream := fun _ _ =>
       inl (stream [dataLine payloadText; dataLine "[DONE]"] EOF);
     json_Decode := fun body =>
       if String.eqb body chatBody
       then inl (Sample.request "gemini-3-pro-high" [Sample.message "user" "hi"])
       else inr {| err_Status := None; err_Error := "unexpected end of JSON input" |} |}.

(** A streaming request for a bypass model, and the same services with
    a decoder that knows it as well. *)
Definition bypassBody : string := json "{'model':'gemini-3-pro-high-bypass','stream':true,'messages':[{'role':'user','content':'hi'}]}".

Definition bypassServices : Services :=
  {| GetToken := GetToken (Services := services);
     GetTokenByEmail := GetTokenByEmail (Services := services);
     GetTokenByProjectID := GetTokenByProjectID (Services := services);
     api_GenerateContent := api_GenerateContent (Services := services);
     api_GenerateContentStream := api_GenerateContentStream (Services := services);
     json_Decode := fun body =>
       if String.eqb body bypassBody
       then inl {| req_Model := "gemini-3-pro-high-bypass";
                   Messages := [Sample.message "user" "hi"]; Stream := true;
                   req_Temperature := None; req_TopP := None; MaxTokens := 0;
                   Stop := []; Tools := []; ToolChoice := JNull |}
       else json_Decode (Services := services) body |}.

(** A sink whose client is gone. *)
Definition deadSink : ResponseWriter := {| wire := []; gone := true |}.

End Fixtures.

(** ** The answer of the upstream, part by part *)

Module Answer.
Import Converter.

(** A message role that convertMessages has a case for, apart from
    system. *)
Definition builds (m : OpenAIMessage) : Prop :=
  m_Role m = "user" \/ m_Role m = "assistant" \/ m_Role m = "tool".

(** The function call that ConvertToOpenAIResponse takes from a part: the
    one of a part that is no thought and has no text. *)
Definition callOf (part : Part) : option FunctionCall :=
  if p_Thought part then None
  else if nonempty_string (p_Text part) then None
  else p_FunctionCall part.

(** The inline data that it takes from a part: the one of a part that is
    no thought and has neither text nor function call. *)
Definition imageOf (part : Part) : option InlineData :=
  if p_Thought part then None
  else if nonempty_string (p_Text part) then None
  else match p_FunctionCall part with
       | Some _ => None
       | None => p_InlineData part
       end.

(** The texts of the thoughts, and the texts of the other parts, each in
    one piece. *)
Definition thoughtText (parts : list Part) : string :=
  String.concat "" (map p_Text (filter (fun p => p_Thought p = true) parts)).

Definition plainText (parts : list Part) : string :=
  String.concat "" (map p_Text (filter (fun p => p_Thought p = false) parts)).

(** The data URL written for an inline data. *)
Definition dataURL (d : InlineData) : string :=
  "data:" +:+ MimeType d +:+ ";base64," +:+ Data d.

(** The markdown written for the images. *)
Definition markdown (text : string) (urls : list string) : string :=
  (if nonempty_string text then text +:+ "

" else "")
  +:+ String.concat "" (map (fun url => "![image](" +:+ url +:+ ")

") urls).

(** Every character of [s] is a word character. *)
Definition isWord (s : string) : Prop :=
  Forall (fun a => is_word_char a = true) (list_ascii_of_string s).

(** The function calls taken from the parts, each with the thought
    signature of its part, and the inline data taken from them. *)
Definition calls (parts : list Part) : list (FunctionCall * string) :=
  omap (fun p => (fun fc => (fc, p_ThoughtSignature p)) <$> callOf p) parts.

Definition images (parts : list Part) : list InlineData :=
  omap imageOf parts.

(** A part as extractParts builds them: a text, or an inline data, and
    nothing else. *)
Definition plainPart (p : Part) : Prop :=
  p_FunctionCall p = None /\ p_FunctionResponse p = None /\ p_Thought p = false
  /\ p_ThoughtSignature p = "" /\ (p_InlineData p = None \/ p_Text p = "").

End Answer.

(** ** Calls that leave the buffers alone *)

Module Channels.
Import Converter Api Wire.

(** A call other than Flush and WriteFinish. *)
Definition steady (op : Op) : Prop :=
  match op with OpFlush | OpFinish _ _ => False | _ => True end.

(** A call that the writer without buffers takes as the writer with
    buffers does: no Flush, and texts that are not empty and are valid
    UTF-8 on their own. *)
Definition whole (op : Op) : Prop :=
  match op with
  | OpContent s | OpReasoning s => s <> "" /\ utf8.ValidString s = true
  | OpFlush => False
  | _ => True
  end.

(** The bytes written on the content channel, and on the reasoning
    one. *)
Definition contentBytes (es : list Event) : list byte :=
  bytes (String.concat "" (contentDeltas es)).

Definition reasoningBytes (es : list Event) : list byte :=
  bytes (String.concat "" (reasoningDeltas es)).

(** The bytes that a client reads on the content channel, and on the
    reasoning one: every delta goes through json.Marshal on its own. *)
Definition contentRead (es : list Event) : list byte :=
  concat (map (fun s => json_String (bytes s)) (contentDeltas es)).

Definition reasoningRead (es : list Event) : list byte :=
  concat (map (fun s => json_String (bytes s)) (reasoningDeltas es)).

(** The states of the two writers that go together. *)
Definition paired (sw : StreamWriter) (usw : Unbuffered.StreamWriter) : Prop :=
  sw_w sw = Unbuffered.sw_w usw /\ sw_id sw = Unbuffered.sw_id usw
  /\ sw_created sw = Unbuffered.sw_created usw /\ sw_model sw = Unbuffered.sw_model usw
  /\ sentRole sw = Unbuffered.sentRole usw
  /\ contentBuffer sw = [] /\ reasoningBuffer sw = [].

End Channels.

(** ** What the upstream events say *)

Module Events.
Import Converter Api Relay.

(** The thinking and text chunks among the chunks handed over. *)
Definition spokenChunks (out : list StreamChunk) : list StreamChunk :=
  filter (fun c => sk_Type c = "thinking" \/ sk_Type c = "text") out.

(** The usage reported last by the events. *)
Definition lastUsage (datas : list StreamData) : option UsageMetadata :=
  last (omap sd_UsageMetadata datas).

(** The line feed and the carriage return. *)
Definition LF : string := String "010" "".
Definition CR : string := String "013" "".

End Events.

(** ** Events of a stream that goes on *)

Module Running.
Import Converter Api Wire.

(** An event that is neither the finish event, nor the end marker, nor an
    error. *)
Definition running (e : Event) : Prop :=
  kind e <> KFinish /\ kind e <> KDone /\ kind e <> KError.

(** The finish event of a stream. *)
Definition finishEvent (id : string) (created : Z) (model : string) (reason : string)
    (usage : option Usage) : Event :=
  EvChunk (CreateStreamChunk id created model (Some Delta0) (Some reason) usage).

End Running.

(** ** States of the bypass relay *)

Module Tasks.
Import Converter Api Handlers Wire Running.




(** What holds in every state of a run that starts on a sink that is
    gone. *)
Definition deadInv (w : ResponseWriter) (s : Bypass) : Prop :=
  gone (sw_w (b_sw s)) = true /\ wire (sw_w (b_sw s)) = wire w
  /\ b_hb s = NotStarted
  /\ (b_main s = AtFirstHeartbeat \/ b_main s = Returned).

End Tasks.

(** ** The form of a bypass stream *)

Module Form.
Import Converter Api Handlers Wire Channels Running.

Definition heartbeat (e : Event) : Prop := kind e = KHeartbeat.

(** A stream that has been opened: the role announcement, then events
    that are neither a finish event nor an end marker nor an error. *)
Definition openWire (sw0 : StreamWriter) (es : list Event) : Prop :=
  exists mid, es = chunkOf sw0 roleDelta None None :: mid /\ Forall running mid.

(** A stream that has been closed: an opened stream, one finish event,
    the end marker, and then heartbeats only. *)
Definition closedWire (sw0 : StreamWriter) (es : list Event) : Prop :=
  exists mid reason usage hbs,
    es = chunkOf sw0 roleDelta None None :: mid
         ++ [chunkOf sw0 Delta0 (Some reason) usage; EvDone] ++ hbs
    /\ Forall running mid /\ Forall heartbeat hbs.

(** Two writers that build the same chunks. *)
Definition sameIds (sw sw0 : StreamWriter) : Prop :=
  sw_id sw = sw_id sw0 /\ sw_created sw = sw_created sw0 /\ sw_model sw = sw_model sw0.

(** Calls that end with a WriteFinish and have no other, and no Flush. *)
Definition endsWithFinish (ops : list Op) : Prop :=
  exists pre reason usage, ops = pre ++ [OpFinish reason usage] /\ Forall steady pre.

(** What holds in every state of a run on a fresh sink from which the
    client does not go away. *)
Definition formInv (sw0 : StreamWriter) (s : Bypass) : Prop :=
  gone (sw_w (b_sw s)) = false /\ sameIds (b_sw s) sw0
  /\ match b_main s with
     | AtFirstHeartbeat =>
         wire (sw_w (b_sw s)) = [] /\ sentRole (b_sw s) = false /\ b_hb s = NotStarted
     | AtBurst [] | Returned =>
         sentRole (b_sw s) = true /\ closedWire sw0 (wire (sw_w (b_sw s)))
     | AtBurst ops =>
         sentRole (b_sw s) = true /\ openWire sw0 (wire (sw_w (b_sw s)))
         /\ endsWithFinish ops
     | _ => sentRole (b_sw s) = true /\ openWire sw0 (wire (sw_w (b_sw s)))
     end.

End Form.

(** ** Bytes that begin no character *)

Module Stray.
Import Converter Api Wire.

(** A byte that is not ASCII and that begins no UTF-8 encoding: a
    continuation byte, C0, C1, or F5 and above. *)
Definition stray (b : byte) : Prop :=
  (0x80 <= utf8.u8 b)%Z /\ utf8.first b = None.

(** A text of ASCII characters. *)
Definition plainASCII (s : string) : Prop :=
  Forall (fun b => (utf8.u8 b < 0x80)%Z) (bytes s).

End Stray.

(** * Properties *)

Import Converter Api Handlers Turns Wire Relay Calls.

(** ** The translator *)

Section ConverterFacts.
Context `{MT : ModelTable} `{RT : Runtime}.

Lemma hasToolCallsInHistory_true messages :
  hasToolCallsInHistory messages = true <->
  exists msg, msg ∈ messages /\ (m_Role msg = "tool" \/ m_ToolCalls msg <> []).
Proof.
  unfold hasToolCallsInHistory. rewrite existsb_exists. split.
  - intros (msg & Hin & Hb). exists msg. split; [by apply list_elem_of_In|].
    apply orb_true_iff in Hb as [Hb|Hb].
    + right. destruct (m_ToolCalls msg); [discriminate|congruence].
    + left. by apply String.eqb_eq.
  - intros (msg & Hin & Hc). exists msg. split; [by apply list_elem_of_In|].
    apply orb_true_iff. destruct Hc as [Hc|Hc].
    + right. by apply String.eqb_eq.
    + left. by destruct (m_ToolCalls msg).
Qed.

Lemma hasToolCallsInHistory_false messages :
  (forall msg, msg ∈ messages -> m_Role msg <> "tool" /\ m_ToolCalls msg = []) ->
  hasToolCallsInHistory messages = false.
Proof.
  intros Hall. destruct (hasToolCallsInHistory messages) eqn:E; [|done].
  apply hasToolCallsInHistory_true in E as (msg & Hin & Hc).
  destruct (Hall msg Hin) as [Hr Ht]. destruct Hc; congruence.
Qed.

Lemma thinking_of_buildGenerationConfig req modelName h :
  gc_ThinkingConfig (buildGenerationConfig req modelName h) =
  if negb h && ShouldEnableThinking modelName None
  then BuildThinkingConfig modelName else None.
Proof. unfold buildGenerationConfig. by destruct (IsClaudeModel modelName). Qed.

(** C1 (as amended). A history with a tool-role message, or with a message
    of any role that carries tool calls, gives an upstream request whose
    generation config has no thinking config, whatever the model; a history
    without tool-role messages and without tool calls on any message gets
    the thinking config of the resolved model whenever ShouldEnableThinking
    holds for it. *)
Theorem C1_thinking_suppression (k : nat) (req : OpenAIChatRequest) (account : Account) :
  let modelName := ResolveModelName (req_Model req) in
  let gc := ir_GenerationConfig (Request (ConvertOpenAIToAntigravity k req account)) in
  ((exists msg, msg ∈ Messages req /\ (m_Role msg = "tool" \/ m_ToolCalls msg <> [])) ->
   exists c, gc = Some c /\ gc_ThinkingConfig c = None)
  /\ ((forall msg, msg ∈ Messages req -> m_Role msg <> "tool" /\ m_ToolCalls msg = []) ->
      ShouldEnableThinking modelName None = true ->
      exists c, gc = Some c /\ gc_ThinkingConfig c = BuildThinkingConfig modelName).
Proof.
  intros modelName gc. subst gc. cbn [ConvertOpenAIToAntigravity Request ir_GenerationConfig].
  split.
  - intros Hex. apply hasToolCallsInHistory_true in Hex.
    eexists. split; [reflexivity|].
    rewrite thinking_of_buildGenerationConfig, Hex. done.
  - intros Hall Hen. eexists. split; [reflexivity|].
    rewrite thinking_of_buildGenerationConfig, (hasToolCallsInHistory_false _ Hall).
    fold modelName. by rewrite Hen.
Qed.

End ConverterFacts.

(** C1, on a run: a history with a tool result loses the thinking config,
    a plain history keeps it. *)
Lemma C1_thinking_suppression_witness :
  let MT := Sample.models in
  let RT := Sample.runtime in
  let tools :=
    Sample.request "claude-sonnet-4-5-thinking"
      [ Sample.message "user" "weather?";
        Sample.withToolCalls (Sample.message "assistant" "") [Sample.toolCall "c1" "get"];
        Sample.toolResult "c1" "sunny" ] in
  let plain :=
    Sample.request "claude-sonnet-4-5-thinking" [Sample.message "user" "hello"] in
  (exists c,
     ir_GenerationConfig (Request (ConvertOpenAIToAntigravity 0 tools Sample.account)) = Some c
     /\ gc_ThinkingConfig c = None)
  /\ (exists c,
     ir_GenerationConfig (Request (ConvertOpenAIToAntigravity 0 plain Sample.account)) = Some c
     /\ gc_ThinkingConfig c = Some {| IncludeThoughts := true; ThinkingBudget := 1024 |}).
Proof.
  intros MT RT tools plain. split.
  - apply (proj1 (C1_thinking_suppression (MT := MT) (RT := RT) 0 tools Sample.account)).
    exists (Sample.toolResult "c1" "sunny"). split; [|by left].
    apply list_elem_of_In. simpl. tauto.
  - apply (proj2 (C1_thinking_suppression (MT := MT) (RT := RT) 0 plain Sample.account)).
    + intros msg Hin. apply list_elem_of_In in Hin. simpl in Hin.
      destruct Hin as [<-|[]]. split; [discriminate|reflexivity].
    + reflexivity.
Defined.

(** C1 as it was stated fails: a user message that carries tool calls is
    neither a tool-role message nor an assistant tool call, the model
    enables thinking by default, and yet the request has no thinking
    config. *)
Lemma C1_counterexample :
  let MT := Sample.models in
  let RT := Sample.runtime in
  let req :=
    Sample.request "gemini-3-pro-high"
      [ Sample.withToolCalls (Sample.message "user" "hi") [Sample.toolCall "c1" "get"] ] in
  (forall msg, msg ∈ Messages req ->
     m_Role msg <> "tool" /\ ~ (m_Role msg = "assistant" /\ m_ToolCalls msg <> []))
  /\ ShouldEnableThinking (ResolveModelName (req_Model req)) None = true
  /\ is_Some (BuildThinkingConfig (ResolveModelName (req_Model req)))
  /\ exists c,
       ir_GenerationConfig (Request (ConvertOpenAIToAntigravity 0 req Sample.account)) = Some c
       /\ gc_ThinkingConfig c = None.
Proof.
  intros MT RT req. split; [|split; [|split]].
  - intros msg Hin. apply list_elem_of_In in Hin. simpl in Hin.
    destruct Hin as [<-|[]]. split; [discriminate|]. intros [Hr _]. discriminate.
  - reflexivity.
  - eexists. reflexivity.
  - eexists. split; reflexivity.
Qed.

Section TurnFacts.
Context `{RT : Runtime}.

Lemma convertMessages_app (a b : list OpenAIMessage) :
  convertMessages (a ++ b) = fold_left convertMessage b (convertMessages a).
Proof. unfold convertMessages. apply fold_left_app. Qed.

Lemma last_alter_snoc {A} (f : A -> A) (l : list A) (x : A) :
  alter f (length (l ++ [x]) - 1) (l ++ [x]) = l ++ [f x].
Proof.
  rewrite length_app. simpl.
  replace (length l + 1 - 1) with (length l + 0) by lia.
  by rewrite alter_app_r.
Qed.

Lemma appendFunctionResponse_model (cs : list Content) (c : Content) (part : Part) :
  c_Role c = "model" ->
  appendFunctionResponse (cs ++ [c]) part
  = cs ++ [c; {| c_Role := "user"; c_Parts := [part] |}].
Proof.
  intros Hr. unfold appendFunctionResponse. rewrite last_snoc, Hr. simpl.
  by rewrite <- app_assoc.
Qed.

Lemma appendFunctionResponse_user (cs : list Content) (c : Content) (part : Part) :
  c_Role c = "user" ->
  appendFunctionResponse (cs ++ [c]) part = cs ++ [extend c [part]].
Proof.
  intros Hr. unfold appendFunctionResponse. rewrite last_snoc, Hr. simpl.
  by rewrite last_alter_snoc.
Qed.

Lemma findInParts_app (ps frs : list Part) (id : string) :
  Forall (fun p => p_FunctionCall p = None) frs ->
  findInParts (ps ++ frs) id = findInParts ps id.
Proof.
  intros Hfrs. induction ps as [|p ps IH]; simpl.
  - induction Hfrs as [|p frs Hp _ IH]; simpl; [done|]. by rewrite Hp.
  - destruct (p_FunctionCall p) as [fc|]; [|done].
    by destruct (String.eqb (fc_ID fc) id).
Qed.

Lemma findFunctionName_snoc (cs : list Content) (c : Content) (id : string) :
  findFunctionName (cs ++ [c]) id
  = match findInParts (c_Parts c) id with
    | Some name => name
    | None => findFunctionName cs id
    end.
Proof. unfold findFunctionName. by rewrite rev_app_distr. Qed.

Lemma toolResponsePart_extend (cs : list Content) (c : Content) (frs : list Part)
    (msg : OpenAIMessage) :
  Forall (fun p => p_FunctionCall p = None) frs ->
  toolResponsePart (cs ++ [extend c frs]) msg = toolResponsePart (cs ++ [c]) msg.
Proof.
  intros Hfrs. unfold toolResponsePart.
  rewrite !findFunctionName_snoc. simpl. by rewrite findInParts_app.
Qed.

Lemma convertMessage_tool (result : list Content) (msg : OpenAIMessage) :
  m_Role msg = "tool" ->
  convertMessage result msg
  = appendFunctionResponse result (toolResponsePart result msg).
Proof. intros Hr. unfold convertMessage. by rewrite Hr. Qed.

Lemma fold_tools_user (cs : list Content) (u : Content) (tools : list OpenAIMessage) :
  c_Role u = "user" ->
  Forall (fun m => m_Role m = "tool") tools ->
  forall frs, Forall (fun p => p_FunctionCall p = None) frs ->
  fold_left convertMessage tools (cs ++ [extend u frs])
  = cs ++ [extend u (frs ++ map (toolResponsePart (cs ++ [u])) tools)].
Proof.
  intros Hu Htools. induction Htools as [|msg tools Hmsg _ IH]; intros frs Hfrs; simpl.
  - by rewrite app_nil_r.
  - rewrite (convertMessage_tool _ _ Hmsg), appendFunctionResponse_user by done.
    rewrite toolResponsePart_extend by done.
    replace (extend (extend u frs) [toolResponsePart (cs ++ [u]) msg])
      with (extend u (frs ++ [toolResponsePart (cs ++ [u]) msg]))
      by (unfold extend; simpl; by rewrite app_assoc).
    rewrite IH.
    + by rewrite <- app_assoc.
    + apply Forall_app. split; [done|]. repeat constructor.
Qed.

(** C2. When the turns built so far end with a model turn, the tool
    messages that follow become one new user turn with one
    function_response part per tool message, in order; when they end with
    a user turn, the function_response parts are appended to that turn and
    no turn is created. *)
Theorem C2_tool_results_fold (pre tools : list OpenAIMessage)
    (cs : list Content) (c : Content) :
  convertMessages pre = cs ++ [c] ->
  Forall (fun m => m_Role m = "tool") tools ->
  tools <> [] ->
  let responses := map (toolResponsePart (cs ++ [c])) tools in
  (c_Role c = "model" ->
   convertMessages (pre ++ tools)
   = cs ++ [c; {| c_Role := "user"; c_Parts := responses |}])
  /\ (c_Role c = "user" ->
      convertMessages (pre ++ tools)
      = cs ++ [{| c_Role := "user"; c_Parts := c_Parts c ++ responses |}]).
Proof.
  intros Hpre Htools Hne responses. rewrite convertMessages_app, Hpre. split.
  - intros Hc. destruct Htools as [|msg tools Hmsg Htools]; [done|]. simpl.
    rewrite (convertMessage_tool _ _ Hmsg), appendFunctionResponse_model by done.
    set (u0 := {| c_Role := "user"; c_Parts := [] |}).
    pose proof (fold_tools_user (cs ++ [c]) u0 tools eq_refl Htools
                  [toolResponsePart (cs ++ [c]) msg]) as H.
    unfold extend in H. simpl in H. rewrite <- !app_assoc in H. simpl in H.
    rewrite H by (repeat constructor). subst responses. simpl.
    do 5 f_equal. apply map_ext. intros m. unfold toolResponsePart.
    replace (cs ++ [c; u0]) with ((cs ++ [c]) ++ [u0]) by (by rewrite <- app_assoc).
    by rewrite (findFunctionName_snoc (cs ++ [c]) u0).
  - intros Hc.
    pose proof (fold_tools_user cs c tools Hc Htools [] (Forall_nil_2 _)) as H.
    unfold extend in H. rewrite app_nil_r in H. simpl in H.
    replace ({| c_Role := c_Role c; c_Parts := c_Parts c |}) with c in H by (by destruct c).
    rewrite H, Hc. done.
Qed.

End TurnFacts.

(** C2, on a run: an assistant turn with two tool calls followed by the
    two tool results gives three turns, the last one holding both
    function responses; and a tool result that follows a user turn lands
    in that turn. *)
Lemma C2_tool_results_fold_witness :
  let RT := Sample.runtime in
  let pre :=
    [ Sample.message "user" "weather?";
      Sample.withToolCalls (Sample.message "assistant" "")
        [Sample.toolCall "c1" "get_weather"; Sample.toolCall "c2" "get_time"] ] in
  let tools := [Sample.toolResult "c1" "sunny"; Sample.toolResult "c2" "noon"] in
  (exists u m r1 r2,
     convertMessages (pre ++ tools)
     = [u; m; {| c_Role := "user"; c_Parts := [r1; r2] |}]
     /\ option_map fr_Name (p_FunctionResponse r1) = Some "get_weather"
     /\ option_map fr_Name (p_FunctionResponse r2) = Some "get_time")
  /\ (exists t r,
     convertMessages ([Sample.message "user" "hi"] ++ [Sample.toolResult "c9" "late"])
     = [ {| c_Role := "user"; c_Parts := [t; r] |} ]
     /\ option_map fr_Name (p_FunctionResponse r) = Some "").
Proof.
  intros RT pre tools. split.
  - do 4 eexists. split.
    + apply (proj1 (C2_tool_results_fold (RT := RT) pre tools
                      [ {| c_Role := "user"; c_Parts := extractParts (JString "weather?") |} ]
                      {| c_Role := "model";
                         c_Parts := map toolCallPart
                           [Sample.toolCall "c1" "get_weather"; Sample.toolCall "c2" "get_time"] |}
                      eq_refl ltac:(repeat constructor) ltac:(discriminate))).
      reflexivity.
    + split; reflexivity.
  - do 2 eexists. split.
    + apply (proj2 (C2_tool_results_fold (RT := RT)
                      [Sample.message "user" "hi"] [Sample.toolResult "c9" "late"]
                      [] {| c_Role := "user"; c_Parts := extractParts (JString "hi") |}
                      eq_refl ltac:(repeat constructor) ltac:(discriminate))).
      reflexivity.
    + reflexivity.
Defined.

Section OrderFacts.
Context `{RT : Runtime}.

Lemma carries_snoc_turn (ts rs : list Content) (t : Content) :
  carries ts rs -> carries (ts ++ [t]) (rs ++ [t]).
Proof.
  induction 1 as [|t0 ts rs _ IH|t0 frs ts rs Hr Hfrs _ IH|r ts rs Hr Hp _ IH]; simpl.
  - apply carries_same. constructor.
  - by apply carries_same.
  - by apply carries_user.
  - by apply carries_fold.
Qed.

Lemma carries_snoc_fold (ts rs : list Content) (r : Content) :
  c_Role r = "user" -> Forall isResponse (c_Parts r) ->
  carries ts rs -> carries ts (rs ++ [r]).
Proof.
  intros Hr Hp.
  induction 1 as [|t0 ts rs _ IH|t0 frs ts rs Hr' Hfrs _ IH|r' ts rs Hr' Hp' _ IH]; simpl.
  - apply carries_fold; [done|done|constructor].
  - by apply carries_same.
  - by apply carries_user.
  - by apply carries_fold.
Qed.

Lemma extend_extend (c : Content) (a b : list Part) :
  extend (extend c a) b = extend c (a ++ b).
Proof. unfold extend. simpl. by rewrite app_assoc. Qed.

(** A function response goes into the last turn only when that one is a
    user turn; the turns before it, and so every model turn, stay. *)
Lemma carries_snoc_extend (ts rs : list Content) (r : Content) (p : Part) :
  isResponse p -> c_Role r = "user" ->
  carries ts (rs ++ [r]) -> carries ts (rs ++ [extend r [p]]).
Proof.
  intros Hp Hu H. remember (rs ++ [r]) as l eqn:El. revert rs El.
  induction H as [|t0 ts l Hc IH|t0 frs ts l Hr Hfrs Hc IH|r' ts l Hr' Hp' Hc IH];
    intros rs El.
  - by destruct rs.
  - destruct rs as [|a rs]; simpl in El.
    + injection El as -> ->. inversion Hc; subst.
      apply carries_user; [done|by repeat constructor|constructor].
    + injection El as -> ->. simpl. apply carries_same. by apply IH.
  - destruct rs as [|a rs]; simpl in El.
    + injection El as <- ->. inversion Hc; subst. rewrite extend_extend.
      apply carries_user; [done| |constructor].
      apply Forall_app. split; [done|by constructor].
    + injection El as <- ->. simpl. apply carries_user; [done|done|]. by apply IH.
  - destruct rs as [|a rs]; simpl in El.
    + injection El as -> ->. inversion Hc; subst. apply carries_fold; simpl.
      * done.
      * apply Forall_app. split; [done|by constructor].
      * constructor.
    + injection El as -> ->. simpl. apply carries_fold; try done. by apply IH.
Qed.

Lemma isResponse_toolResponsePart (result : list Content) (msg : OpenAIMessage) :
  isResponse (toolResponsePart result msg).
Proof. unfold isResponse. simpl. by eexists. Qed.

Lemma carries_appendFunctionResponse (ts rs : list Content) (p : Part) :
  isResponse p -> carries ts rs -> carries ts (appendFunctionResponse rs p).
Proof.
  intros Hp H. destruct rs as [|a rs'] using rev_ind.
  - unfold appendFunctionResponse. simpl.
    apply carries_fold; [done|by repeat constructor|done].
  - clear IHrs'. unfold appendFunctionResponse. rewrite last_snoc.
    destruct (String.eqb (c_Role a) "model") eqn:E1.
    + apply carries_snoc_fold; [done|by repeat constructor|done].
    + destruct (String.eqb_spec (c_Role a) "user") as [E2|E2].
      * rewrite last_alter_snoc. by apply carries_snoc_extend.
      * apply carries_snoc_fold; [done|by repeat constructor|done].
Qed.

(** What [carries] keeps: a model turn of the result is one of the turns
    carried, as it is. *)
Lemma carries_model_kept (ts rs : list Content) (c : Content) :
  carries ts rs -> c ∈ rs -> c_Role c = "model" -> c ∈ ts.
Proof.
  induction 1 as [|t0 ts rs _ IH|t0 frs ts rs Hr Hfrs _ IH|r ts rs Hr Hp _ IH];
    intros Hin Hm.
  - done.
  - apply elem_of_cons in Hin as [->|Hin]; [by left|]. right. by apply IH.
  - apply elem_of_cons in Hin as [->|Hin].
    + simpl in Hm. by rewrite Hr in Hm.
    + right. by apply IH.
  - apply elem_of_cons in Hin as [->|Hin]; [by rewrite Hr in Hm|]. by apply IH.
Qed.

Lemma carries_countModel (ts rs : list Content) :
  carries ts rs -> countRole "model" rs = countRole "model" ts.
Proof.
  unfold countRole.
  induction 1 as [|t0 ts rs _ IH|t0 frs ts rs Hr Hfrs _ IH|r ts rs Hr Hp _ IH].
  - done.
  - rewrite !filter_cons. destruct (decide (c_Role t0 = "model")); simpl; by rewrite IH.
  - rewrite !filter_cons. simpl. rewrite Hr.
    destruct (decide ("user" = "model")) as [E|_]; [discriminate E|done].
  - rewrite filter_cons. rewrite Hr.
    destruct (decide ("user" = "model")) as [E|_]; [discriminate E|done].
Qed.

Lemma convertMessage_turnOf (result : list Content) (msg : OpenAIMessage) :
  m_Role msg <> "tool" ->
  convertMessage result msg
  = result ++ match turnOf msg with Some t => [t] | None => [] end.
Proof.
  intros Hr. unfold convertMessage, turnOf.
  destruct (String.eqb_spec (m_Role msg) "system") as [E|_].
  { rewrite E. simpl. by rewrite app_nil_r. }
  destruct (String.eqb (m_Role msg) "user"); [done|].
  destruct (String.eqb (m_Role msg) "assistant").
  { destruct (assistantParts msg); simpl; [by rewrite app_nil_r|done]. }
  destruct (String.eqb_spec (m_Role msg) "tool") as [E|_]; [done|].
  by rewrite app_nil_r.
Qed.

Lemma turnOf_tool (msg : OpenAIMessage) : m_Role msg = "tool" -> turnOf msg = None.
Proof. intros Hr. unfold turnOf. by rewrite Hr. Qed.

(** C8 (as amended). Every user message stands for one user turn and
    every assistant message that has text or tool calls for one model
    turn; an assistant message with neither stands for no turn. The turns
    built are these turns, in the order of the messages, apart from the
    function responses that tool messages add, and these go to user turns
    only: into the user turn that comes last, or into a user turn of
    their own. So every model turn built is the turn of an assistant
    message, as it is, and there are as many model turns as assistant
    messages that have one. Without tool messages the turns built are
    exactly the turns of the messages. *)
Theorem C8_turns_in_order (messages : list OpenAIMessage) :
  (forall msg, m_Role msg = "user" ->
     exists t, turnOf msg = Some t /\ c_Role t = "user")
  /\ (forall msg, m_Role msg = "assistant" ->
        match turnOf msg with
        | Some t => c_Role t = "model" /\ c_Parts t = assistantParts msg /\ c_Parts t <> []
        | None => nonempty_string (getTextContent (m_Content msg)) = false
                  /\ m_ToolCalls msg = []
        end)
  /\ carries (omap turnOf messages) (convertMessages messages)
  /\ (forall c, c ∈ convertMessages messages -> c_Role c = "model" ->
        exists msg, msg ∈ messages /\ m_Role msg = "assistant" /\ turnOf msg = Some c)
  /\ countRole "model" (convertMessages messages)
     = countRole "model" (omap turnOf messages)
  /\ (Forall (fun msg => m_Role msg <> "tool") messages ->
      convertMessages messages = omap turnOf messages).
Proof.
  assert (Hcar : carries (omap turnOf messages) (convertMessages messages)).
  { induction messages as [|msg messages IH] using rev_ind; [constructor|].
    rewrite convertMessages_app, omap_app. simpl.
    destruct (String.eqb_spec (m_Role msg) "tool") as [E|E].
    + rewrite (convertMessage_tool _ _ E), (turnOf_tool _ E). simpl.
      rewrite app_nil_r. apply carries_appendFunctionResponse; [|done].
      apply isResponse_toolResponsePart.
    + rewrite (convertMessage_turnOf _ _ E).
      destruct (turnOf msg) as [t|]; simpl.
      * by apply carries_snoc_turn.
      * by rewrite !app_nil_r. }
  split; [|split; [|split; [|split; [|split]]]].
  - intros msg Hr. unfold turnOf. rewrite Hr. simpl. by eexists.
  - intros msg Hr. unfold turnOf. rewrite Hr. simpl.
    unfold assistantParts.
    destruct (nonempty_string (getTextContent (m_Content msg))); simpl; [done|].
    destruct (m_ToolCalls msg); simpl; done.
  - exact Hcar.
  - intros c Hin Hm.
    pose proof (carries_model_kept _ _ c Hcar Hin Hm) as Ht.
    apply list_elem_of_omap in Ht as (msg & Hmsg & Et).
    exists msg. split; [done|]. split; [|done].
    unfold turnOf in Et.
    destruct (String.eqb (m_Role msg) "user").
    { injection Et as <-. done. }
    destruct (String.eqb_spec (m_Role msg) "assistant"); [done|done].
  - by apply carries_countModel.
  - clear Hcar. induction messages as [|msg messages IH] using rev_ind; [done|].
    intros Hall. apply Forall_app in Hall as [Hall Hmsg].
    rewrite convertMessages_app, omap_app. simpl.
    rewrite (IH Hall). inversion Hmsg; subst.
    rewrite convertMessage_turnOf by done.
    by destruct (turnOf msg).
Qed.

End OrderFacts.

(** C8, on a run: a system, a user and an assistant message give the user
    turn and the model turn, in that order; an assistant message without
    text and tool calls gives no turn; and with a tool call and its
    result after them, the result makes a user turn of its own and the
    two model turns are the ones of the two assistant messages. *)
Lemma C8_turns_in_order_witness :
  let RT := Sample.runtime in
  let messages :=
    [ Sample.message "system" "be brief"; Sample.message "user" "hi";
      Sample.message "assistant" "hello" ] in
  let call := Sample.withToolCalls (Sample.message "assistant" "")
                [Sample.toolCall "c1" "get_weather"] in
  let more := messages ++ [call; Sample.toolResult "c1" "sunny"] in
  map c_Role (convertMessages messages) = ["user"; "model"]
  /\ (exists t, turnOf (Sample.message "user" "hi") = Some t /\ c_Role t = "user")
  /\ turnOf (Sample.message "assistant" "")  = None
  /\ map c_Role (convertMessages more) = ["user"; "model"; "model"; "user"]
  /\ countRole "model" (convertMessages more) = 2
  /\ (forall c, c ∈ convertMessages more -> c_Role c = "model" ->
        turnOf (Sample.message "assistant" "hello") = Some c \/ turnOf call = Some c).
Proof.
  intros RT messages call more.
  destruct (C8_turns_in_order (RT := RT) messages) as (Huser & Hasst & _ & _ & _ & Hplain).
  destruct (C8_turns_in_order (RT := RT) more) as (_ & _ & _ & Hmodel & Hcount & _).
  split; [|split; [|split; [|split; [|split]]]].
  - rewrite Hplain.
    + reflexivity.
    + repeat constructor; discriminate.
  - apply Huser. reflexivity.
  - pose proof (Hasst (Sample.message "assistant" "") eq_refl) as H.
    destruct (turnOf (Sample.message "assistant" "")) as [t|]; [|reflexivity].
    destruct H as (_ & Hp & Hne). exfalso. apply Hne. rewrite Hp. reflexivity.
  - reflexivity.
  - rewrite Hcount. reflexivity.
  - intros c Hin Hm. destruct (Hmodel c Hin Hm) as (msg & Hmsg & Hr & Ht).
    unfold more, messages in Hmsg. simpl in Hmsg.
    repeat (apply elem_of_cons in Hmsg as [->|Hmsg]; [try discriminate Hr|]).
    + by left.
    + by right.
    + by apply elem_of_nil in Hmsg.
Defined.

(** C8 as it was stated fails: an assistant message with no text and no
    tool calls gives no turn at all, so one assistant message faces zero
    model turns. *)
Lemma C8_counterexample :
  let RT := Sample.runtime in
  let messages := [Sample.message "user" "hi"; Sample.message "assistant" ""] in
  countMessages "assistant" messages = 1
  /\ countRole "model" (convertMessages messages) = 0
  /\ length (convertMessages messages) = 1.
Proof. intros RT messages. repeat split. Qed.

Section ResponseFacts.
Context `{RT : Runtime}.

(** C10. ConvertToOpenAIResponse reads [Candidates[0]] before anything
    else: on a response without candidates the index is out of range and
    the call panics; with at least one candidate it returns a completion. *)
Theorem C10_first_candidate_required (k : nat) (resp : AntigravityResponse)
    (model : string) :
  (resp_Candidates resp = [] -> ConvertToOpenAIResponse k resp model = None)
  /\ (resp_Candidates resp <> [] ->
      exists completion, ConvertToOpenAIResponse k resp model = Some completion
                         /\ length (cc_Choices completion) = 1).
Proof.
  unfold ConvertToOpenAIResponse. split.
  - intros ->. reflexivity.
  - intros Hne. destruct (resp_Candidates resp) as [|cand0 rest]; [done|].
    simpl. eexists. split; reflexivity.
Qed.

End ResponseFacts.

(** C10, on a run: no candidate, a panic; one candidate, a completion. *)
Lemma C10_first_candidate_required_witness :
  let RT := Sample.runtime in
  let cand := {| cand_Content := {| c_Role := "model"; c_Parts := [] |};
                 cand_FinishReason := "STOP"; cand_Index := 0 |} in
  ConvertToOpenAIResponse 0 {| resp_Candidates := []; resp_UsageMetadata := None |} "m"
  = None
  /\ exists completion,
       ConvertToOpenAIResponse 0
         {| resp_Candidates := [cand]; resp_UsageMetadata := None |} "m"
       = Some completion
       /\ length (cc_Choices completion) = 1.
Proof.
  intros RT cand. split.
  - apply (proj1 (C10_first_candidate_required (RT := RT) 0
                    {| resp_Candidates := []; resp_UsageMetadata := None |} "m")).
    reflexivity.
  - apply (proj2 (C10_first_candidate_required (RT := RT) 0
                    {| resp_Candidates := [cand]; resp_UsageMetadata := None |} "m")).
    discriminate.
Defined.

(** ** UTF-8 *)

Section Utf8Facts.
Import utf8.

Lemma first_Some (b : byte) (size : nat) (lo hi : Z) :
  first b = Some (size, lo, hi) ->
  (0xC2 <= u8 b)%Z /\ size = expectedLen b /\ (0x80 <= lo)%Z /\ (hi <= 0xBF)%Z
  /\ (size = 2 \/ size = 3 \/ size = 4).
Proof.
  unfold first, expectedLen, locb, hicb.
  repeat match goal with
         | |- context [(?a <? ?b)%Z] => destruct (Z.ltb_spec a b)
         | |- context [(?a =? ?b)%Z] => destruct (Z.eqb_spec a b)
         end; intros [= <- <- <-] || intros [=];
  repeat match goal with
         | |- context [(?a <=? ?b)%Z] => destruct (Z.leb_spec a b)
         end; repeat split; try lia; auto.
Qed.

Lemma outside_false (lo hi : Z) (c : byte) :
  outside lo hi c = false -> (lo <= u8 c <= hi)%Z.
Proof.
  unfold outside. intros H. apply orb_false_iff in H as [H1 H2].
  apply Z.ltb_ge in H1. apply Z.ltb_ge in H2. lia.
Qed.

Lemma Valid_cons (p0 : byte) (r0 : list byte) :
  Valid (p0 :: r0) =
  if (u8 p0 <? RuneSelf)%Z then Valid r0
  else
    match first p0 with
    | None => false
    | Some (size, lo, hi) =>
        match r0 with
        | [] => false
        | c1 :: r1 =>
            if outside lo hi c1 then false
            else if size =? 2 then Valid r1
            else
              match r1 with
              | [] => false
              | c2 :: r2 =>
                  if outside locb hicb c2 then false
                  else if size =? 3 then Valid r2
                  else
                    match r2 with
                    | [] => false
                    | c3 :: r3 => if outside locb hicb c3 then false else Valid r3
                    end
              end
        end
    end.
Proof. reflexivity. Qed.

Lemma Valid_app_bounded (n : nat) (a b : list byte) :
  length a <= n -> Valid a = true -> Valid (a ++ b) = Valid b.
Proof.
  revert a. induction n as [|n IH]; intros a Hn Ha.
  - destruct a; [done|simpl in Hn; lia].
  - destruct a as [|p0 r0]; [done|].
    rewrite <- app_comm_cons. rewrite Valid_cons in Ha |- *. simpl in Hn.
    destruct (u8 p0 <? RuneSelf)%Z. { apply IH; [lia|done]. }
    destruct (first p0) as [[[size lo] hi]|]; [|done].
    destruct r0 as [|c1 r1]; [done|]. rewrite <- app_comm_cons. simpl in Hn.
    destruct (outside lo hi c1); [done|].
    destruct (size =? 2). { apply IH; [lia|done]. }
    destruct r1 as [|c2 r2]; [done|]. rewrite <- app_comm_cons. simpl in Hn.
    destruct (outside locb hicb c2); [done|].
    destruct (size =? 3). { apply IH; [lia|done]. }
    destruct r2 as [|c3 r3]; [done|]. rewrite <- app_comm_cons. simpl in Hn.
    destruct (outside locb hicb c3); [done|].
    apply IH; [lia|done].
Qed.

(** Validity is decided character by character: after a valid prefix,
    what follows is judged by itself. *)
Lemma Valid_app (a b : list byte) :
  Valid a = true -> Valid (a ++ b) = Valid b.
Proof. apply (Valid_app_bounded (length a)). lia. Qed.

Lemma Valid_split_bounded (n : nat) (data rest : list byte) :
  length data <= n ->
  Valid (data ++ rest) = true ->
  Valid data = true
  \/ exists v t, data = v ++ t /\ Valid v = true /\ incomplete t = true.
Proof.
  revert data. induction n as [|n IH]; intros data Hn Hv.
  - destruct data; [by left|simpl in Hn; lia].
  - destruct data as [|p0 r0]; [by left|].
    rewrite <- app_comm_cons in Hv. rewrite Valid_cons in Hv |- *. simpl in Hn.
    assert (Hrec : forall r, length r <= n -> Valid (r ++ rest) = true ->
              forall pre, p0 :: r0 = pre ++ r -> Valid pre = true ->
              Valid r = true
              \/ exists v t, p0 :: r0 = v ++ t /\ Valid v = true /\ incomplete t = true).
    { intros r Hr Hvr pre Epre Hpre. destruct (IH r Hr Hvr) as [H|(v & t & -> & Hv' & Ht)].
      - by left.
      - right. exists (pre ++ v), t. rewrite Epre, app_assoc. split; [done|].
        split; [|done]. by rewrite (Valid_app pre v Hpre). }
    unfold incomplete.
    destruct (u8 p0 <? RuneSelf)%Z eqn:E0.
    { apply (Hrec r0 ltac:(lia) Hv [p0]); [done|]. rewrite Valid_cons, E0. done. }
    destruct (first p0) as [[[size lo] hi]|] eqn:Ef; [|done].
    destruct r0 as [|c1 r1].
    { right. exists [], [p0]. simpl. by rewrite E0, Ef. }
    rewrite <- app_comm_cons in Hv. simpl in Hn.
    destruct (outside lo hi c1) eqn:E1; [done|].
    destruct (size =? 2) eqn:E2.
    { apply (Hrec r1 ltac:(lia) Hv [p0; c1]); [done|].
      rewrite Valid_cons, E0, Ef, E1, E2. done. }
    destruct r1 as [|c2 r2].
    { right. exists [], [p0; c1]. simpl. by rewrite E0, Ef, E1, E2. }
    rewrite <- app_comm_cons in Hv. simpl in Hn.
    destruct (outside locb hicb c2) eqn:E3; [done|].
    destruct (size =? 3) eqn:E4.
    { apply (Hrec r2 ltac:(lia) Hv [p0; c1; c2]); [done|].
      rewrite Valid_cons, E0, Ef, E1, E2, E3, E4. done. }
    destruct r2 as [|c3 r3].
    { right. exists [], [p0; c1; c2]. simpl. by rewrite E0, Ef, E1, E2, E3, E4. }
    rewrite <- app_comm_cons in Hv. simpl in Hn.
    destruct (outside locb hicb c3) eqn:E5; [done|].
    apply (Hrec r3 ltac:(lia) Hv [p0; c1; c2; c3]); [done|].
    rewrite Valid_cons, E0, Ef, E1, E2, E3, E4, E5. done.
Qed.

(** A prefix of valid UTF-8 is valid, or is valid up to the first bytes
    of its last character. *)
Lemma Valid_split (data rest : list byte) :
  Valid (data ++ rest) = true ->
  Valid data = true
  \/ exists v t, data = v ++ t /\ Valid v = true /\ incomplete t = true.
Proof. apply (Valid_split_bounded (length data)). lia. Qed.

(** What an incomplete character looks like. *)
Lemma incomplete_shape (t : list byte) :
  incomplete t = true ->
  exists p0 conts,
    t = p0 :: conts /\ (0xC0 <= u8 p0)%Z /\ length t < expectedLen p0
    /\ Forall isCont conts
    /\ (forall t', t' `prefix_of` t -> t' <> [] -> Valid t' = false).
Proof.
  unfold incomplete. destruct t as [|p0 r0]; [done|].
  destruct (u8 p0 <? RuneSelf)%Z eqn:E0; [done|].
  destruct (first p0) as [[[size lo] hi]|] eqn:Ef; [|done].
  destruct (first_Some _ _ _ _ Ef) as (Hp0 & Hsize & Hlo & Hhi & Hcases).
  intros Hinc. exists p0, r0. split; [done|]. split; [lia|].
  assert (Hpre : forall t' : list byte, t' `prefix_of` p0 :: r0 -> t' <> [] ->
            exists r', t' = p0 :: r' /\ r' `prefix_of` r0).
  { intros t' [k Hk] Hne. destruct t' as [|q r']; [done|].
    injection Hk as <- ->. exists r'. split; [done|]. by exists k. }
  destruct r0 as [|c1 [|c2 [|c3 r3]]]; try done.
  - split; [simpl; lia|]. split; [constructor|].
    intros t' Ht' Hne. destruct (Hpre t' Ht' Hne) as (r' & -> & [k Hk]).
    destruct r'; [|done]. by rewrite Valid_cons, E0, Ef.
  - apply andb_true_iff in Hinc as [H1 H2].
    apply negb_true_iff in H1, H2. apply Nat.eqb_neq in H2.
    apply outside_false in H1 as Hc1.
    split; [simpl; lia|]. split; [repeat constructor; unfold isCont; lia|].
    intros t' Ht' Hne. destruct (Hpre t' Ht' Hne) as (r' & -> & [k Hk]).
    rewrite Valid_cons, E0, Ef.
    destruct r' as [|d1 r']; [done|]. injection Hk as <- Hk.
    destruct r'; [|done]. rewrite H1.
    by rewrite (proj2 (Nat.eqb_neq size 2) H2).
  - apply andb_true_iff in Hinc as [Hinc H4]. apply andb_true_iff in Hinc as [Hinc H3].
    apply andb_true_iff in Hinc as [H1 H2].
    apply negb_true_iff in H1, H2, H3, H4. apply Nat.eqb_neq in H2, H4.
    apply outside_false in H1 as Hc1. apply outside_false in H3 as Hc2.
    unfold locb, hicb in Hc2.
    split; [simpl; lia|]. split; [repeat constructor; unfold isCont; lia|].
    intros t' Ht' Hne. destruct (Hpre t' Ht' Hne) as (r' & -> & [k Hk]).
    rewrite Valid_cons, E0, Ef.
    destruct r' as [|d1 r']; [done|]. injection Hk as <- Hk. rewrite H1.
    rewrite (proj2 (Nat.eqb_neq size 2) H2).
    destruct r' as [|d2 r']; [done|]. injection Hk as <- Hk. rewrite H3.
    rewrite (proj2 (Nat.eqb_neq size 3) H4).
    destruct r'; [|done]. done.
Qed.

End Utf8Facts.

(** ** extractValidUTF8 *)

Section ExtractFacts.
Import utf8.

Lemma scanTail_start (data : list byte) (checkLen n' : nat) (b : byte) :
  data !! (length data - (checkLen - n')) = Some b ->
  (0xC0 <= u8 b)%Z ->
  length data - (length data - (checkLen - n')) < expectedLen b ->
  scanTail data checkLen (S n') = Some (length data - (checkLen - n')).
Proof.
  intros Hb Hc Hlen. simpl. rewrite Hb.
  destruct (Z.leb_spec 0xC0 (u8 b)); [|lia].
  unfold expectedLen in Hlen. apply Nat.ltb_lt in Hlen. by rewrite Hlen.
Qed.

Lemma scanTail_cont (data : list byte) (checkLen n' : nat) (b : byte) :
  data !! (length data - (checkLen - n')) = Some b ->
  isCont b ->
  scanTail data checkLen (S n') = scanTail data checkLen n'.
Proof.
  intros Hb [Hlo Hhi]. simpl. rewrite Hb.
  destruct (Z.leb_spec 0xC0 (u8 b)); [lia|].
  destruct (Z.leb_spec 0x80 (u8 b)); [|lia].
  destruct (Z.ltb_spec (u8 b) 0xC0); [|lia]. done.
Qed.

(** The first loop walks back over the continuation bytes at the end of
    the data and stops on the leading byte of the incomplete character. *)
Lemma scanTail_finds (v : list byte) (p0 : byte) (conts : list byte) (checkLen : nat) :
  (0xC0 <= u8 p0)%Z ->
  S (length conts) < expectedLen p0 ->
  Forall isCont conts ->
  S (length conts) <= checkLen ->
  forall k j, j + k = length conts ->
  scanTail (v ++ p0 :: conts) checkLen (checkLen - j) = Some (length v).
Proof.
  intros Hp0 Hexp Hconts Hlen. induction k as [|k IH]; intros j Hj.
  - replace (checkLen - j) with (S (checkLen - S j)) by lia.
    assert (Hidx : length (v ++ p0 :: conts) - (checkLen - (checkLen - S j)) = length v).
    { rewrite length_app. simpl. lia. }
    rewrite (scanTail_start _ _ _ p0); rewrite ?Hidx.
    + done.
    + by rewrite lookup_app_r, Nat.sub_diag.
    + done.
    + rewrite length_app. simpl. lia.
  - replace (checkLen - j) with (S (checkLen - S j)) by lia.
    assert (Hidx : length (v ++ p0 :: conts) - (checkLen - (checkLen - S j))
                   = length v + S (length conts - S j)).
    { rewrite length_app. simpl. lia. }
    destruct (lookup_lt_is_Some_2 conts (length conts - S j) ltac:(lia)) as [c Hc].
    rewrite (scanTail_cont _ _ _ c).
    + apply IH. lia.
    + rewrite Hidx, lookup_app_r by lia.
      replace (length v + S (length conts - S j) - length v)
        with (S (length conts - S j)) by lia.
      done.
    + eapply Forall_lookup_1; eauto.
Qed.

(** One call on a prefix of valid UTF-8: the longest valid prefix is
    returned, and the bytes kept are the first bytes of one character. *)
Lemma extractValidUTF8_prefix_of_valid (data rest : list byte) :
  Valid (data ++ rest) = true ->
  exists v t,
    extractValidUTF8 data = (string_of_list_byte v, t)
    /\ data = v ++ t
    /\ longestValidPrefix v data
    /\ length t <= 3
    /\ (t = [] \/ incomplete t = true).
Proof.
  intros Hv. unfold extractValidUTF8.
  destruct data as [|b0 data'] eqn:Edata.
  { exists [], []. split; [done|]. split; [done|]. split; [|split; [simpl; lia|by left]].
    split; [by exists []|]. split; [done|].
    intros v' [k Hk] _. destruct v'; [done|discriminate]. }
  rewrite <- Edata in *. assert (Hne : (length data =? 0) = false).
  { rewrite Edata. done. }
  rewrite Hne. clear Hne.
  destruct (Valid_split data rest Hv) as [Hd|(v & t & Hdt & Hvv & Ht)].
  - rewrite Hd. exists data, []. rewrite app_nil_r.
    split; [done|]. split; [done|]. split; [|split; [simpl; lia|by left]].
    split; [done|]. split; [done|].
    intros v' [k ->] _. rewrite length_app. lia.
  - destruct (incomplete_shape t Ht) as (p0 & conts & Et & Hp0 & Hexp & Hconts & Hpre).
    assert (Hnv : Valid data = false).
    { rewrite Hdt, (Valid_app v t Hvv). apply Hpre; [done|]. by rewrite Et. }
    rewrite Hnv.
    assert (Hlen3 : length t <= 3).
    { unfold expectedLen in Hexp. repeat case_match; lia. }
    assert (Hscan : scanTail data (if length data <? 4 then length data else 4)
                      (if length data <? 4 then length data else 4) = Some (length v)).
    { set (checkLen := if length data <? 4 then length data else 4).
      replace (scanTail data checkLen checkLen)
        with (scanTail (v ++ p0 :: conts) checkLen (checkLen - 0))
        by (rewrite Nat.sub_0_r, Hdt, Et; done).
      rewrite Et in Hexp, Hlen3. simpl in Hexp, Hlen3.
      apply (scanTail_finds v p0 conts checkLen Hp0 Hexp Hconts) with (k := length conts).
      - subst checkLen. rewrite Hdt, Et, length_app. simpl.
        destruct (Nat.ltb_spec (length v + S (length conts)) 4); lia.
      - lia. }
    rewrite Hscan. exists v, t.
    rewrite Hdt at 1 2. rewrite take_app_length, drop_app_length.
    split; [done|]. split; [done|]. split; [|split; [done|by right]].
    split; [by exists t|]. split; [done|].
    intros v' [k Hk] Hv'.
    destruct (Nat.le_gt_cases (length v') (length v)) as [|Hgt]; [done|].
    exfalso. rewrite Hdt in Hk.
    assert (Hvp : v `prefix_of` v').
    { destruct (prefix_weak_total v v' (v ++ t)) as [Hp|Hp];
        [by exists t|by exists k|done|].
      apply prefix_length in Hp. lia. }
    destruct Hvp as [t' ->]. rewrite <- app_assoc in Hk. apply app_inv_head in Hk.
    rewrite (Valid_app v t' Hvv) in Hv'.
    rewrite (Hpre t') in Hv'; [done|by exists k|].
    intros ->. rewrite app_nil_r in Hgt. lia.
Qed.

End ExtractFacts.

(** ** The stream writer *)

Section WriterFacts.
Import utf8.

Lemma WriteContent_healthy (sw : StreamWriter) (s v : string) (rem : list byte) :
  gone (sw_w sw) = false ->
  extractValidUTF8 (contentBuffer sw ++ bytes s) = (v, rem) ->
  exec sw (OpContent s)
  = {| sw_w := {| wire := wire (sw_w sw) ++ roleDue sw ++ chunkIf sw contentDelta v;
                  gone := false |};
       sw_id := sw_id sw; sw_created := sw_created sw; sw_model := sw_model sw;
       sentRole := true; contentBuffer := rem;
       reasoningBuffer := reasoningBuffer sw |}.
Proof.
  intros Hg Hx. unfold exec, call, WriteContent, writeRoleLocked, roleDue, chunkIf, bytes in *.
  destruct sw as [[wr g] id cr md sr cb rb]. simpl in *. subst g.
  destruct sr; simpl; rewrite Hx; destruct (nonempty_string v); simpl;
    unfold emit, WriteStreamData; simpl; rewrite ?app_nil_r, <- ?app_assoc; reflexivity.
Qed.

Lemma WriteReasoning_healthy (sw : StreamWriter) (s v : string) (rem : list byte) :
  gone (sw_w sw) = false ->
  extractValidUTF8 (reasoningBuffer sw ++ bytes s) = (v, rem) ->
  exec sw (OpReasoning s)
  = {| sw_w := {| wire := wire (sw_w sw) ++ roleDue sw ++ chunkIf sw reasoningDelta v;
                  gone := false |};
       sw_id := sw_id sw; sw_created := sw_created sw; sw_model := sw_model sw;
       sentRole := true; contentBuffer := contentBuffer sw;
       reasoningBuffer := rem |}.
Proof.
  intros Hg Hx. unfold exec, call, WriteReasoning, writeRoleLocked, roleDue, chunkIf, bytes in *.
  destruct sw as [[wr g] id cr md sr cb rb]. simpl in *. subst g.
  destruct sr; simpl; rewrite Hx; destruct (nonempty_string v); simpl;
    unfold emit, WriteStreamData; simpl; rewrite ?app_nil_r, <- ?app_assoc; reflexivity.
Qed.

Lemma execs_snoc (sw : StreamWriter) (ops : list Op) (op : Op) :
  execs sw (ops ++ [op]) = exec (execs sw ops) op.
Proof. unfold execs. by rewrite fold_left_app. Qed.

Lemma fedContent_app (a b : list Op) : fedContent (a ++ b) = fedContent a ++ fedContent b.
Proof. unfold fedContent. by rewrite map_app, concat_app. Qed.

Lemma fedReasoning_app (a b : list Op) :
  fedReasoning (a ++ b) = fedReasoning a ++ fedReasoning b.
Proof. unfold fedReasoning. by rewrite map_app, concat_app. Qed.

Lemma fed_single (op : Op) :
  fedContent [op] = match op with OpContent s => bytes s | _ => [] end
  /\ fedReasoning [op] = match op with OpReasoning s => bytes s | _ => [] end.
Proof. unfold fedContent, fedReasoning. simpl. by rewrite !app_nil_r. Qed.

(** After writes whose content bytes go on to valid UTF-8, the content
    buffer holds the end of what was fed to the content channel, after a
    valid beginning; what is fed to the other channel does not matter. *)
Lemma content_invariant (sw0 : StreamWriter) (pre : list Op) :
  gone (sw_w sw0) = false ->
  contentBuffer sw0 = [] ->
  Forall isWrite pre ->
  forall rest,
  Valid (fedContent pre ++ rest) = true ->
  gone (sw_w (execs sw0 pre)) = false
  /\ exists ec,
       Valid ec = true /\ fedContent pre = ec ++ contentBuffer (execs sw0 pre).
Proof.
  intros Hg Hcb. induction pre as [|op pre IH] using rev_ind; intros Hw rest Hc.
  - split; [done|]. exists []. simpl. by rewrite Hcb.
  - apply Forall_app in Hw as [Hw Hop]. inversion Hop as [|? ? Hisw _]; subst.
    rewrite fedContent_app, <- app_assoc in Hc.
    destruct (IH Hw _ Hc) as (Hg' & ec & Hec & Ec).
    rewrite execs_snoc. set (sw := execs sw0 pre) in *.
    rewrite fedContent_app.
    destruct (fed_single op) as [Fc _]. rewrite Fc. rewrite Fc in Hc.
    destruct op as [|s|s| | | |]; try done.
    + rewrite Ec, <- app_assoc, (Valid_app ec _ Hec), app_assoc in Hc.
      destruct (extractValidUTF8_prefix_of_valid _ _ Hc) as (v & t & Hx & Hd & (_ & Hv & _) & _).
      rewrite (WriteContent_healthy sw s _ _ Hg' Hx). simpl. split; [done|].
      exists (ec ++ v). rewrite (Valid_app ec v Hec). split; [done|].
      rewrite Ec, <- !app_assoc. f_equal. exact Hd.
    + rewrite (WriteReasoning_healthy sw s _ _ Hg' (surjective_pairing _)). simpl.
      split; [done|]. exists ec. by rewrite app_nil_r.
Qed.

(** The same for the reasoning channel. *)
Lemma reasoning_invariant (sw0 : StreamWriter) (pre : list Op) :
  gone (sw_w sw0) = false ->
  reasoningBuffer sw0 = [] ->
  Forall isWrite pre ->
  forall rest,
  Valid (fedReasoning pre ++ rest) = true ->
  gone (sw_w (execs sw0 pre)) = false
  /\ exists er,
       Valid er = true /\ fedReasoning pre = er ++ reasoningBuffer (execs sw0 pre).
Proof.
  intros Hg Hrb. induction pre as [|op pre IH] using rev_ind; intros Hw rest Hr.
  - split; [done|]. exists []. simpl. by rewrite Hrb.
  - apply Forall_app in Hw as [Hw Hop]. inversion Hop as [|? ? Hisw _]; subst.
    rewrite fedReasoning_app, <- app_assoc in Hr.
    destruct (IH Hw _ Hr) as (Hg' & er & Her & Er).
    rewrite execs_snoc. set (sw := execs sw0 pre) in *.
    rewrite fedReasoning_app.
    destruct (fed_single op) as [_ Fr]. rewrite Fr. rewrite Fr in Hr.
    destruct op as [|s|s| | | |]; try done.
    + rewrite (WriteContent_healthy sw s _ _ Hg' (surjective_pairing _)). simpl.
      split; [done|]. exists er. by rewrite app_nil_r.
    + rewrite Er, <- app_assoc, (Valid_app er _ Her), app_assoc in Hr.
      destruct (extractValidUTF8_prefix_of_valid _ _ Hr) as (v & t & Hx & Hd & (_ & Hv & _) & _).
      rewrite (WriteReasoning_healthy sw s _ _ Hg' Hx). simpl. split; [done|].
      exists (er ++ v). rewrite (Valid_app er v Her). split; [done|].
      rewrite Er, <- !app_assoc. f_equal. exact Hd.
Qed.

Lemma emittedBy_app (sw : StreamWriter) (op : Op) (es : list Event) :
  wire (sw_w (exec sw op)) = wire (sw_w sw) ++ es -> emittedBy sw op = es.
Proof. intros H. unfold emittedBy. by rewrite H, drop_app_length. Qed.

Lemma contentDeltas_app (a b : list Event) :
  contentDeltas (a ++ b) = contentDeltas a ++ contentDeltas b.
Proof. unfold contentDeltas. by rewrite map_app, filter_app. Qed.

Lemma reasoningDeltas_app (a b : list Event) :
  reasoningDeltas (a ++ b) = reasoningDeltas a ++ reasoningDeltas b.
Proof. unfold reasoningDeltas. by rewrite map_app, filter_app. Qed.

Lemma deltas_roleDue (sw : StreamWriter) :
  contentDeltas (roleDue sw) = [] /\ reasoningDeltas (roleDue sw) = [].
Proof. unfold roleDue. by destruct (sentRole sw). Qed.

Lemma deltas_content (sw : StreamWriter) (v : list byte) :
  contentDeltas (chunkIf sw contentDelta (string_of_list_byte v))
  = match v with [] => [] | _ => [string_of_list_byte v] end
  /\ reasoningDeltas (chunkIf sw contentDelta (string_of_list_byte v)) = [].
Proof. unfold chunkIf. by destruct v. Qed.

Lemma deltas_reasoning (sw : StreamWriter) (v : list byte) :
  reasoningDeltas (chunkIf sw reasoningDelta (string_of_list_byte v))
  = match v with [] => [] | _ => [string_of_list_byte v] end
  /\ contentDeltas (chunkIf sw reasoningDelta (string_of_list_byte v)) = [].
Proof. unfold chunkIf. by destruct v. Qed.

(** C3 (as amended). When the bytes fed to a channel, content or
    reasoning, are valid UTF-8 as a whole, however they are cut into
    calls, every call of WriteContent, or of WriteReasoning, writes at
    most one delta on that channel: the longest valid prefix [v] of the
    buffer followed by the new bytes, when it is not empty; and it keeps
    the rest [t], at most 3 bytes, in the buffer. *)
Theorem C3_utf8_carry_over (w : ResponseWriter) (id : string) (created : Z)
    (model : string) (ops : list Op) :
  gone w = false ->
  Forall isWrite ops ->
  forall pre op post, ops = pre ++ op :: post ->
  let sw := execs (NewStreamWriter w id created model) pre in
  let sw' := exec sw op in
  match op with
  | OpContent s =>
      Valid (fedContent ops) = true ->
      exists v t,
        Valid v = true /\ length t <= 3
        /\ longestValidPrefix v (contentBuffer sw ++ bytes s)
        /\ contentBuffer sw ++ bytes s = v ++ t
        /\ contentBuffer sw' = t
        /\ reasoningBuffer sw' = reasoningBuffer sw
        /\ contentDeltas (emittedBy sw op)
           = match v with [] => [] | _ => [string_of_list_byte v] end
        /\ reasoningDeltas (emittedBy sw op) = []
  | OpReasoning s =>
      Valid (fedReasoning ops) = true ->
      exists v t,
        Valid v = true /\ length t <= 3
        /\ longestValidPrefix v (reasoningBuffer sw ++ bytes s)
        /\ reasoningBuffer sw ++ bytes s = v ++ t
        /\ reasoningBuffer sw' = t
        /\ contentBuffer sw' = contentBuffer sw
        /\ reasoningDeltas (emittedBy sw op)
           = match v with [] => [] | _ => [string_of_list_byte v] end
        /\ contentDeltas (emittedBy sw op) = []
  | _ => False
  end.
Proof.
  intros Hg Hw pre op post -> sw sw'. subst sw'.
  apply Forall_app in Hw as [Hpre Hop]. inversion Hop as [|? ? Hisw Hpost]; subst.
  destruct (fed_single op) as [Fc Fr].
  destruct op as [|s|s| | | |]; try done.
  - intros Hc. rewrite fedContent_app in Hc.
    destruct (content_invariant (NewStreamWriter w id created model) pre Hg eq_refl
                Hpre _ Hc) as (Hg' & ec & Hec & Ec).
    fold sw in Hg', Ec.
    change (OpContent s :: post) with ([OpContent s] ++ post) in Hc.
    rewrite fedContent_app, Fc in Hc.
    rewrite Ec, <- app_assoc, (Valid_app ec _ Hec), app_assoc in Hc.
    destruct (extractValidUTF8_prefix_of_valid _ _ Hc) as (v & t & Hx & Hd & Hl & Ht & _).
    exists v, t. split; [apply Hl|]. split; [done|].
    split; [done|]. split; [done|].
    assert (E := WriteContent_healthy sw s _ _ Hg' Hx).
    rewrite (emittedBy_app sw (OpContent s)
               (roleDue sw ++ chunkIf sw contentDelta (string_of_list_byte v)))
      by (rewrite E; done).
    rewrite E. simpl. split; [done|]. split; [done|].
    rewrite contentDeltas_app, reasoningDeltas_app.
    destruct (deltas_roleDue sw) as [-> ->]. destruct (deltas_content sw v) as [-> ->]. done.
  - intros Hr. rewrite fedReasoning_app in Hr.
    destruct (reasoning_invariant (NewStreamWriter w id created model) pre Hg eq_refl
                Hpre _ Hr) as (Hg' & er & Her & Er).
    fold sw in Hg', Er.
    change (OpReasoning s :: post) with ([OpReasoning s] ++ post) in Hr.
    rewrite fedReasoning_app, Fr in Hr.
    rewrite Er, <- app_assoc, (Valid_app er _ Her), app_assoc in Hr.
    destruct (extractValidUTF8_prefix_of_valid _ _ Hr) as (v & t & Hx & Hd & Hl & Ht & _).
    exists v, t. split; [apply Hl|]. split; [done|].
    split; [done|]. split; [done|].
    assert (E := WriteReasoning_healthy sw s _ _ Hg' Hx).
    rewrite (emittedBy_app sw (OpReasoning s)
               (roleDue sw ++ chunkIf sw reasoningDelta (string_of_list_byte v)))
      by (rewrite E; done).
    rewrite E. simpl. split; [done|]. split; [done|].
    rewrite contentDeltas_app, reasoningDeltas_app.
    destruct (deltas_roleDue sw) as [-> ->]. destruct (deltas_reasoning sw v) as [-> ->]. done.
Qed.

End WriterFacts.

Section WireFacts.

Lemma exec_healthy (sw : StreamWriter) (op : Op) :
  gone (sw_w sw) = false ->
  wire (sw_w (exec sw op)) = wire (sw_w sw) ++ emits sw op
  /\ gone (sw_w (exec sw op)) = false
  /\ sentRole (exec sw op) = roleAfter sw op
  /\ sw_id (exec sw op) = sw_id sw
  /\ sw_created (exec sw op) = sw_created sw
  /\ sw_model (exec sw op) = sw_model sw.
Proof.
  intros Hg. destruct sw as [[wr g] id cr md sr cb rb]. simpl in Hg. subst g.
  destruct op as [|s|s|tcs| |reason usage|].
  - unfold exec, call, WriteRole, writeRoleLocked, emits, roleDue. simpl.
    destruct sr; simpl; rewrite ?app_nil_r; done.
  - pose proof (WriteContent_healthy
                  {| sw_w := {| wire := wr; gone := false |}; sw_id := id; sw_created := cr;
                     sw_model := md; sentRole := sr; contentBuffer := cb;
                     reasoningBuffer := rb |} s _ _ eq_refl
                  (surjective_pairing _)) as E.
    rewrite E. done.
  - pose proof (WriteReasoning_healthy
                  {| sw_w := {| wire := wr; gone := false |}; sw_id := id; sw_created := cr;
                     sw_model := md; sentRole := sr; contentBuffer := cb;
                     reasoningBuffer := rb |} s _ _ eq_refl
                  (surjective_pairing _)) as E.
    rewrite E. done.
  - unfold exec, call, WriteToolCalls, writeRoleLocked, emits, roleDue. simpl.
    destruct sr; simpl; rewrite <- ?app_assoc; done.
  - unfold exec, call, Flush, flushLocked, flushContent, flushReasoning, emits, flushed,
      chunkIf. simpl.
    destruct cb as [|c cb], rb as [|r rb]; simpl; rewrite ?app_nil_r, <- ?app_assoc; done.
  - unfold exec, call, WriteFinish, flushLocked, flushContent, flushReasoning, emits,
      flushed, chunkIf. simpl.
    destruct cb as [|c cb], rb as [|r rb]; simpl; rewrite ?app_nil_r, <- ?app_assoc; done.
  - unfold exec, call, WriteHeartbeat, writeRoleLocked, emits, roleDue. simpl.
    destruct sr; simpl; rewrite <- ?app_assoc; done.
Qed.

Lemma isRole_chunkIf (sw : StreamWriter) (d : string -> Delta) (s : string) :
  d_Role (d s) = "" -> Forall (fun e => isRole e = false) (chunkIf sw d s).
Proof.
  intros Hd. unfold chunkIf. destruct (nonempty_string s); [|constructor].
  repeat constructor. unfold isRole. simpl. by rewrite Hd.
Qed.

Lemma isRole_flushed (sw : StreamWriter) : Forall (fun e => isRole e = false) (flushed sw).
Proof. apply Forall_app. split; by apply isRole_chunkIf. Qed.

(** Once the role has been sent, no call announces it again. *)
Lemma emits_after_role (sw : StreamWriter) (op : Op) :
  sentRole sw = true -> Forall (fun e => isRole e = false) (emits sw op).
Proof.
  intros Hs. destruct op; simpl; unfold roleDue; rewrite ?Hs; simpl;
    repeat first [ apply isRole_flushed | by apply isRole_chunkIf
                 | apply Forall_app; split | apply Forall_cons; split | apply Forall_nil_2 | done ].
Qed.

(** A call that announces finds the role due and writes it first. *)
Lemma emits_first (sw : StreamWriter) (op : Op) :
  sentRole sw = false -> announces op ->
  exists es, emits sw op = chunkOf sw roleDelta None None :: es
             /\ Forall (fun e => isRole e = false) es.
Proof.
  intros Hs Ha. destruct op; try done; simpl; unfold roleDue; rewrite Hs; simpl;
    eexists; (split; [reflexivity|]);
    repeat first [ by apply isRole_chunkIf | apply Forall_cons; split | apply Forall_nil_2 | done ].
Qed.

Lemma execs_after_role (ops : list Op) (sw : StreamWriter) :
  gone (sw_w sw) = false -> sentRole sw = true ->
  exists es, wire (sw_w (execs sw ops)) = wire (sw_w sw) ++ es
             /\ Forall (fun e => isRole e = false) es.
Proof.
  revert sw. induction ops as [|op ops IH]; intros sw Hg Hs.
  - exists []. by rewrite app_nil_r.
  - destruct (exec_healthy sw op Hg) as (Hw & Hg' & Hs' & _).
    assert (Hs'' : sentRole (exec sw op) = true).
    { rewrite Hs'. unfold roleAfter. by destruct op. }
    destruct (IH (exec sw op) Hg' Hs'') as (es & Hes & Hnr).
    exists (emits sw op ++ es). simpl. unfold execs in Hes. unfold execs. simpl.
    rewrite Hes, Hw, <- app_assoc. split; [done|].
    apply Forall_app. split; [by apply emits_after_role|done].
Qed.

Lemma filter_isRole_none (es : list Event) :
  Forall (fun e => isRole e = false) es -> filter (fun e => isRole e = true) es = [].
Proof.
  induction 1 as [|e es He _ IH]; [done|].
  rewrite filter_cons_False; [done|]. by rewrite He.
Qed.

(** C7. On a writer that starts with an empty sink, a first call of
    WriteContent, WriteReasoning, WriteToolCalls or WriteHeartbeat writes
    the role announcement, with role assistant, as the first event, and no
    later event of the writer, whatever is called, carries a role. *)
Theorem C7_role_once (id : string) (created : Z) (model : string)
    (op : Op) (ops : list Op) :
  announces op ->
  let sw0 := NewStreamWriter freshSink id created model in
  exists rest,
    wire (sw_w (execs sw0 (op :: ops)))
    = chunkOf sw0 roleDelta None None :: rest
    /\ Forall (fun e => isRole e = false) rest
    /\ length (filter (fun e => isRole e = true) (wire (sw_w (execs sw0 (op :: ops))))) = 1.
Proof.
  intros Ha sw0.
  destruct (exec_healthy sw0 op eq_refl) as (Hw & Hg' & Hs' & _).
  destruct (emits_first sw0 op eq_refl Ha) as (es & Hes & Hnr).
  assert (Hs'' : sentRole (exec sw0 op) = true).
  { rewrite Hs'. unfold roleAfter. by destruct op. }
  destruct (execs_after_role ops (exec sw0 op) Hg' Hs'') as (es' & Hes' & Hnr').
  assert (Hall : Forall (fun e => isRole e = false) (es ++ es')) by (by apply Forall_app).
  assert (Hwire : wire (sw_w (execs sw0 (op :: ops)))
                  = chunkOf sw0 roleDelta None None :: (es ++ es')).
  { change (execs sw0 (op :: ops)) with (execs (exec sw0 op) ops).
    by rewrite Hes', Hw, Hes. }
  exists (es ++ es'). rewrite Hwire. split; [done|]. split; [done|].
  rewrite filter_cons_True by done.
  by rewrite (filter_isRole_none _ Hall).
Qed.

End WireFacts.

(** C7, on a run: a heartbeat, a content write and the finish; the role
    comes first and once. *)
Lemma C7_role_once_witness :
  let sw0 := NewStreamWriter freshSink "chatcmpl-0" 0 "m" in
  exists rest,
    wire (sw_w (execs sw0 [OpHeartbeat; OpContent "hi"; OpFinish "stop" None]))
    = chunkOf sw0 roleDelta None None :: rest
    /\ Forall (fun e => isRole e = false) rest
    /\ length (filter (fun e => isRole e = true)
                 (wire (sw_w (execs sw0 [OpHeartbeat; OpContent "hi"; OpFinish "stop" None]))))
       = 1.
Proof.
  intros sw0.
  apply (C7_role_once "chatcmpl-0" 0 "m" OpHeartbeat [OpContent "hi"; OpFinish "stop" None]).
  exact I.
Defined.

(** C3, on a run: the character U+4F60, bytes E4 BD A0, fed one byte per
    call on the content channel, while the reasoning channel is fed a
    byte that is no UTF-8. The second content call, on the buffer E4 and
    the byte BD, writes nothing and keeps both bytes. *)
Lemma C3_utf8_carry_over_witness :
  let b1 := string_of_list_byte [Byte.xe4] in
  let b2 := string_of_list_byte [Byte.xbd] in
  let b3 := string_of_list_byte [Byte.xa0] in
  let junk := string_of_list_byte [Byte.xff] in
  let sw := execs (NewStreamWriter freshSink "chatcmpl-0" 0 "m")
              [OpContent b1; OpReasoning junk] in
  exists v t,
    utf8.Valid v = true /\ length t <= 3
    /\ longestValidPrefix v (contentBuffer sw ++ bytes b2)
    /\ contentBuffer sw ++ bytes b2 = v ++ t
    /\ contentBuffer (exec sw (OpContent b2)) = t
    /\ reasoningBuffer (exec sw (OpContent b2)) = reasoningBuffer sw
    /\ contentDeltas (emittedBy sw (OpContent b2))
       = match v with [] => [] | _ => [string_of_list_byte v] end
    /\ reasoningDeltas (emittedBy sw (OpContent b2)) = [].
Proof.
  intros b1 b2 b3 junk sw.
  apply (C3_utf8_carry_over freshSink "chatcmpl-0" 0 "m"
           [OpContent b1; OpReasoning junk; OpContent b2; OpContent b3]
           eq_refl ltac:(repeat constructor)
           [OpContent b1; OpReasoning junk] (OpContent b2) [OpContent b3] eq_refl).
  reflexivity.
Defined.

(** The same character, call by call: nothing is written for the first
    two bytes, the whole character is written with the third, and the
    buffer is empty again. *)
Example utf8_three_byte_character :
  let b1 := string_of_list_byte [Byte.xe4] in
  let b2 := string_of_list_byte [Byte.xbd] in
  let b3 := string_of_list_byte [Byte.xa0] in
  let sw0 := NewStreamWriter freshSink "chatcmpl-0" 0 "m" in
  let sw1 := exec sw0 (OpContent b1) in
  let sw2 := exec sw1 (OpContent b2) in
  let sw3 := exec sw2 (OpContent b3) in
  contentDeltas (wire (sw_w sw1)) = []
  /\ contentDeltas (wire (sw_w sw2)) = []
  /\ contentDeltas (wire (sw_w sw3)) = [string_of_list_byte [Byte.xe4; Byte.xbd; Byte.xa0]]
  /\ contentBuffer sw3 = [].
Proof. repeat split. Qed.

(** C3 as it was stated fails on bytes that are not UTF-8. After the call
    with the bytes 80 41 42 43 44 the buffer holds 5 bytes; the next
    call, with the byte E4, writes these 5 bytes as a delta, and they are
    not valid UTF-8. *)
Lemma C3_counterexample :
  let s1 := string_of_list_byte [Byte.x80; Byte.x41; Byte.x42; Byte.x43; Byte.x44] in
  let s2 := string_of_list_byte [Byte.xe4] in
  let sw1 := exec (NewStreamWriter freshSink "chatcmpl-0" 0 "m") (OpContent s1) in
  length (contentBuffer sw1) = 5
  /\ contentDeltas (emittedBy sw1 (OpContent s2)) = [s1]
  /\ utf8.ValidString s1 = false.
Proof. repeat split. Qed.

Section FlushFacts.

(** WriteFinish on a sink that takes the writes: what the buffers hold is
    written as it is, content first, before the finish event and the end
    marker, and the buffers are empty afterwards. *)
Lemma WriteFinish_flushes (sw : StreamWriter) (reason : string) (usage : option Usage) :
  gone (sw_w sw) = false ->
  wire (sw_w (exec sw (OpFinish reason usage)))
  = wire (sw_w sw)
    ++ chunkIf sw contentDelta (string_of_list_byte (contentBuffer sw))
    ++ chunkIf sw reasoningDelta (string_of_list_byte (reasoningBuffer sw))
    ++ [chunkOf sw Delta0 (Some reason) usage; EvDone]
  /\ contentBuffer (exec sw (OpFinish reason usage)) = []
  /\ reasoningBuffer (exec sw (OpFinish reason usage)) = [].
Proof.
  intros Hg. destruct (exec_healthy sw (OpFinish reason usage) Hg) as (Hw & _).
  rewrite Hw. simpl. unfold flushed. rewrite <- app_assoc. split; [done|].
  destruct sw as [[wr g] id cr md sr cb rb]. simpl in Hg. subst g.
  unfold exec, call, WriteFinish, flushLocked, flushContent, flushReasoning. simpl.
  destruct cb, rb; done.
Qed.

End FlushFacts.

(** C4 fails on the code. The bytes 41 80 are fed to WriteContent, then
    WriteFinish is called: the only content delta is the one byte 41 and
    both buffers are empty, so the byte 80 is lost. It is lost inside
    extractValidUTF8, whose second loop collects the bytes it takes off
    and then returns a nil remainder. *)
Theorem C4_bytes_dropped :
  let fed := [Byte.x41; Byte.x80] in
  let sw0 := NewStreamWriter freshSink "chatcmpl-0" 0 "m" in
  let sw1 := exec sw0 (OpContent (string_of_list_byte fed)) in
  let sw2 := exec sw1 (OpFinish "stop" None) in
  extractValidUTF8 fed = (string_of_list_byte [Byte.x41], [])
  /\ contentBuffer sw1 = []
  /\ map kind (wire (sw_w sw2)) = [KRole; KContent; KFinish; KDone]
  /\ bytes (String.concat "" (contentDeltas (wire (sw_w sw2)))) = [Byte.x41]
  /\ bytes (String.concat "" (contentDeltas (wire (sw_w sw2)))) <> fed.
Proof. repeat split. discriminate. Qed.

(** ** The relay of the upstream stream *)

Section RelayFacts.
Context `{RT : Runtime} `{SC : StreamCodec}.

Lemma assignIds_app (drawn : nat) (a b : list FunctionCall) :
  assignIds drawn (a ++ b) = assignIds drawn a ++ assignIds (drawnAfter drawn a) b.
Proof.
  revert drawn. induction a as [|fc a IH]; intros drawn; [done|].
  simpl. by rewrite IH.
Qed.

Lemma drawnAfter_app (drawn : nat) (a b : list FunctionCall) :
  drawnAfter drawn (a ++ b) = drawnAfter (drawnAfter drawn a) b.
Proof.
  revert drawn. induction a as [|fc a IH]; intros drawn; [done|].
  simpl. by rewrite IH.
Qed.



Lemma callsOf_cons (d : StreamData) (ds : list StreamData) :
  callsOf (d :: ds) = omap callOfPart (partsOf d) ++ callsOf ds.
Proof. done. Qed.

Lemma toolCallChunks_app (a b : list StreamChunk) :
  toolCallChunks (a ++ b) = toolCallChunks a ++ toolCallChunks b.
Proof. unfold toolCallChunks. by rewrite filter_app, map_app. Qed.

(** The parts of an event: texts and thoughts go to the callback at once,
    function calls go to the pending list, and no tool_calls chunk is
    handed over. *)
Lemma processParts_spec (parts : list StreamPart) (st : LoopState) :
  let st' := fold_left processPart parts st in
  ls_usage st' = ls_usage st
  /\ ls_toolCalls st'
     = ls_toolCalls st ++ assignIds (ls_drawn st) (omap callOfPart parts)
  /\ ls_drawn st' = drawnAfter (ls_drawn st) (omap callOfPart parts)
  /\ exists texts, ls_out st' = ls_out st ++ texts /\ toolCallChunks texts = [].
Proof.
  revert st. induction parts as [|part parts IH]; intros st; simpl.
  - rewrite app_nil_r. repeat split. exists []. by rewrite app_nil_r.
  - destruct (IH (processPart st part)) as (Hu & Ht & Hd & texts & Ho & Hn).
    rewrite Hu, Ht, Hd, Ho. clear IH Hu Ht Hd Ho.
    unfold processPart, callOfPart, callback.
    destruct (sp_Thought part); simpl.
    { repeat split. eexists. rewrite <- app_assoc. split; [done|].
      rewrite toolCallChunks_app, Hn. done. }
    destruct (nonempty_string (sp_Text part)); simpl.
    { repeat split. eexists. rewrite <- app_assoc. split; [done|].
      rewrite toolCallChunks_app, Hn. done. }
    destruct (sp_FunctionCall part) as [fc|]; simpl.
    + rewrite <- app_assoc. repeat split. by exists texts.
    + repeat split. by exists texts.
Qed.

(** One event. *)
Lemma processData_spec (data : StreamData) (st : LoopState) :
  let st' := processData st data in
  let pending := ls_toolCalls st ++ assignIds (ls_drawn st) (omap callOfPart (partsOf data)) in
  let flush := nonempty_string (finishReasonOf data)
               && negb (Nat.eqb (length pending) 0) in
  ls_toolCalls st' = (if flush then [] else pending)
  /\ ls_drawn st' = drawnAfter (ls_drawn st) (omap callOfPart (partsOf data))
  /\ exists texts,
       ls_out st' = ls_out st ++ texts ++ (if flush then [toolCallsChunk pending] else [])
       /\ toolCallChunks texts = [].
Proof.
  unfold processData, partsOf, finishReasonOf.
  destruct (sd_Candidates data) as [|candidate rest]; simpl.
  - rewrite app_nil_r.
    destruct (sd_UsageMetadata data); simpl; repeat split; exists []; by rewrite app_nil_r.
  - set (st1 := match sd_UsageMetadata data with
                | Some u => _
                | None => st
                end).
    assert (E1 : ls_toolCalls st1 = ls_toolCalls st /\ ls_drawn st1 = ls_drawn st
                 /\ ls_out st1 = ls_out st).
    { subst st1. by destruct (sd_UsageMetadata data). }
    destruct E1 as (Et & Ed & Eo).
    destruct (processParts_spec (scand_Parts candidate) st1) as (_ & Ht & Hd & texts & Ho & Hn).
    rewrite Et, Ed in Ht. rewrite Ed in Hd. rewrite Eo in Ho.
    rewrite Ht.
    destruct (nonempty_string (scand_FinishReason candidate)
              && negb (Nat.eqb (length (ls_toolCalls st ++ assignIds (ls_drawn st)
                                          (omap callOfPart (scand_Parts candidate)))) 0)); simpl.
    + repeat split; [done|]. exists texts. by rewrite Ho, <- app_assoc.
    + rewrite Ht. repeat split; [done|]. exists texts. by rewrite Ho, !app_nil_r.
Qed.

(** The loop, on the events it handles. *)
Lemma readLoop_payloads (lines : list string) (fin : ReadEnd) (st : LoopState) :
  readLoop lines fin st
  = let st' := fold_left processData (payloads lines) st in
    if hasSentinel lines
    then (callback st' {| sk_Type := "done"; sk_Content := ""; sk_ToolCalls := [];
                          sk_Usage := None |}, None)
    else (st', match fin with EOF => None | ReadError err => Some err end).
Proof.
  revert st. induction lines as [|line lines IH]; intros st; simpl.
  - by destruct fin.
  - unfold hasSentinel. simpl. destruct (classify line); simpl.
    + apply IH.
    + done.
    + apply IH.
Qed.


(** Any events: the chunks flushed so far and the pending list make up
    the function calls seen, the ones of a chunk are never none, and what
    had been handed over stays in front. *)
Lemma events_conserve (datas : list StreamData) (st : LoopState) :
  let st' := fold_left processData datas st in
  ls_drawn st' = drawnAfter (ls_drawn st) (callsOf datas)
  /\ exists more,
       ls_out st' = ls_out st ++ more
       /\ concat (toolCallChunks more) ++ ls_toolCalls st'
          = ls_toolCalls st ++ assignIds (ls_drawn st) (callsOf datas)
       /\ Forall (fun tcs => tcs <> []) (toolCallChunks more).
Proof.
  revert st. induction datas as [|d datas IH]; intros st; simpl.
  - rewrite app_nil_r. split; [done|]. exists []. by rewrite app_nil_r.
  - destruct (processData_spec d st) as (Ht & Hdr & texts & Ho & Hn).
    destruct (IH (processData st d)) as (Hdr' & more & Ho' & Hc' & Hne').
    rewrite Hdr', Hdr, callsOf_cons, drawnAfter_app. split; [done|].
    rewrite Ho', Ho, <- !app_assoc. eexists. split; [done|].
    rewrite !toolCallChunks_app, Hn, !concat_app. simpl.
    rewrite <- app_assoc, Hc', Ht, Hdr, assignIds_app.
    set (pending := ls_toolCalls st ++ assignIds (ls_drawn st) (omap callOfPart (partsOf d))).
    destruct (nonempty_string (finishReasonOf d) && negb (Nat.eqb (length pending) 0)) eqn:E.
    + split.
      * unfold toolCallChunks. simpl. rewrite app_nil_r. subst pending.
        by rewrite <- app_assoc.
      * unfold toolCallChunks at 1. simpl. apply Forall_cons. split; [|done].
        apply andb_true_iff in E as [_ E]. apply negb_true_iff, Nat.eqb_neq in E.
        intros Hp. by rewrite Hp in E.
    + split; [|done]. simpl. subst pending. by rewrite <- app_assoc.
Qed.

(** The parts of an event, chunk by chunk. *)
Lemma processParts_out (parts : list StreamPart) (st : LoopState) :
  ls_out (fold_left processPart parts st) = ls_out st ++ omap spoken parts
  /\ ls_usage (fold_left processPart parts st) = ls_usage st.
Proof.
  revert st. induction parts as [|p parts IH]; intros st.
  - by rewrite app_nil_r.
  - cbn [fold_left omap list_omap]. destruct (IH (processPart st p)) as [-> ->].
    unfold processPart, spoken, callback. destruct (sp_Thought p); cbn.
    { by rewrite <- app_assoc. }
    destruct (nonempty_string (sp_Text p)); cbn.
    { by rewrite <- app_assoc. }
    by destruct (sp_FunctionCall p).
Qed.










End RelayFacts.

Section RelayTheorem.
Context `{RT : Runtime} `{SC : StreamCodec}.




Lemma ProcessStreamResponse_form (k : nat) (resp : Response) :
  readable resp ->
  let st0 := {| ls_usage := None; ls_toolCalls := []; ls_drawn := k; ls_out := [] |} in
  let st := fold_left processData (payloads (body_lines resp)) st0 in
  ProcessStreamResponse k resp
  = if hasSentinel (body_lines resp)
    then (flushEnd st (ls_out st ++ [doneChunk]), ls_usage st, None)
    else match body_end resp with
         | EOF => (flushEnd st (ls_out st), ls_usage st, None)
         | ReadError err => (ls_out st, ls_usage st, Some err)
         end.
Proof.
  intros Hr st0 st. unfold ProcessStreamResponse. unfold readable in Hr. rewrite Hr.
  rewrite readLoop_payloads. fold st0. fold st. simpl.
  destruct (hasSentinel (body_lines resp)); [done|].
  by destruct (body_end resp).
Qed.

Lemma toolCallChunks_flushEnd (st : LoopState) (out : list StreamChunk) :
  toolCallChunks (flushEnd st out)
  = toolCallChunks out ++ match ls_toolCalls st with [] => [] | tcs => [tcs] end.
Proof.
  unfold flushEnd. destruct (ls_toolCalls st) as [|tc tcs]; simpl.
  - by rewrite app_nil_r.
  - by rewrite toolCallChunks_app.
Qed.


End RelayTheorem.



(** ** The handlers *)

Section HandlerFacts.
Context `{MT : ModelTable} `{RT : Runtime} `{SC : StreamCodec} `{SV : Services}.

Lemma ContainsChar_In (s : string) (c : ascii) :
  ContainsChar s c = true <-> In c (list_ascii_of_string s).
Proof.
  induction s as [|a s IH]; simpl.
  - split; [discriminate|tauto].
  - rewrite orb_true_iff, IH, Ascii.eqb_eq. tauto.
Qed.

(** The first heartbeat of the bypass handler fails exactly on a sink
    whose client is gone. *)
Lemma first_heartbeat (w : ResponseWriter) (id : string) (created : Z) (model : string) :
  (WriteHeartbeat (NewStreamWriter w id created model)).2
  = if gone w then Some "write: broken pipe" else None.
Proof.
  unfold WriteHeartbeat, writeRoleLocked, emit, WriteStreamData, NewStreamWriter.
  cbn [sentRole sw_w]. destruct (gone w) eqn:E; cbn [fst snd sw_w gone]; by rewrite ?E.
Qed.

(** The bypass handler calls the upstream client once, unless its first
    heartbeat fails: then it returns without the call. *)
Lemma handleBypassStream_calls (w : ResponseWriter) (req : OpenAIChatRequest)
    (token : Account) :
  upstreamCalls (handleBypassStream w req token) = if gone w then 0 else 1.
Proof.
  pose proof (first_heartbeat w (GenerateChatCompletionID 0) time_Now_Unix (req_Model req))
    as Hb.
  unfold handleBypassStream.
  destruct (WriteHeartbeat _) as [sw' err]. simpl in Hb. subst err.
  by destruct (gone w).
Qed.

(** The first step of the handler in [fire] is that heartbeat: the
    handler has returned after it exactly when the client is gone. *)
Lemma handleBypassStream_first_step (w : ResponseWriter) (model : string)
    (result : AntigravityResponse + GoError) :
  exists s, fire model result Main (bypassInit w model) = Some s
            /\ b_main s = if gone w then Returned else AtGo.
Proof.
  pose proof (first_heartbeat w (GenerateChatCompletionID 0) time_Now_Unix model) as Hb.
  unfold fire, fireMain, bypassInit. cbn [b_main b_sw].
  destruct (WriteHeartbeat _) as [sw' err]. simpl in Hb. subst err.
  destruct (gone w); by eexists.
Qed.

(** Both ends of a chat handler call the upstream client once, but for
    the bypass handler on a sink whose client is gone. *)
Lemma dispatch_calls_upstream (w : ResponseWriter) (req : OpenAIChatRequest)
    (token : Account) :
  upstreamCalls (dispatch w req token)
  = if Stream req && IsBypassModel (req_Model req) && gone w then 0 else 1.
Proof.
  unfold dispatch, handleStreamRequest, handleNonStreamRequest.
  destruct (Stream req); simpl.
  - destruct (IsBypassModel (req_Model req)); simpl.
    + apply handleBypassStream_calls.
    + unfold upstreamCalls. by destruct (api_GenerateContentStream _ _).
  - unfold upstreamCalls. destruct (api_GenerateContent _ _) as [resp|err]; [|done].
    by destruct (ConvertToOpenAIResponse 2 resp (req_Model req)).
Qed.

(** C9. The path value is looked up as an account email when it contains
    the character [@] and as a project id when it does not. When that
    lookup fails, the handler answers 404 and calls nothing upstream;
    when it succeeds, the request is handled with the account found, as
    by the handler without a path value: with one upstream call, or with
    none when the request is a streaming one for a bypass model and the
    client is gone, the handler returning after its first heartbeat. *)
Theorem C9_credential_lookup (w : ResponseWriter) (credential body : string)
    (req : OpenAIChatRequest) :
  json_Decode body = inl req ->
  let answer := HandleChatCompletionsWithCredential w credential body in
  let isEmail := In "@"%char (list_ascii_of_string credential) in
  let lookup := if ContainsChar credential "@"%char
                then GetTokenByEmail credential
                else GetTokenByProjectID credential in
  (isEmail -> lookup = GetTokenByEmail credential)
  /\ (~ isEmail -> lookup = GetTokenByProjectID credential)
  /\ (forall err, lookup = inr err ->
        answer = [WriteError StatusNotFound ("Credential not found: " +:+ credential)]
        /\ upstreamCalls answer = 0)
  /\ (forall token, lookup = inl token ->
        answer = dispatch w req token
        /\ upstreamCalls answer
           = if Stream req && IsBypassModel (req_Model req) && gone w then 0 else 1).
Proof.
  intros Hdec answer isEmail lookup. subst answer.
  unfold HandleChatCompletionsWithCredential. rewrite Hdec. fold lookup.
  split; [|split; [|split]].
  - intros Hin. apply ContainsChar_In in Hin. subst lookup. by rewrite Hin.
  - intros Hnin. subst lookup.
    destruct (ContainsChar credential "@") eqn:E; [|done].
    apply ContainsChar_In in E. by destruct Hnin.
  - intros err ->. done.
  - intros token ->. split; [done|]. apply dispatch_calls_upstream.
Qed.

End HandlerFacts.

(** C9, on a run: an unknown email and an unknown project id are both
    answered with 404, each after its own lookup; a known email gets its
    request handled with one upstream call; and a streaming request for a
    bypass model is handled with one upstream call on a sink that takes
    the first heartbeat, with none on a sink whose client is gone. *)
Lemma C9_credential_lookup_witness :
  let MT := Sample.models in
  let RT := Sample.runtime in
  let SC := Fixtures.codec in
  let SV := Fixtures.services in
  let SB := Fixtures.bypassServices in
  HandleChatCompletionsWithCredential freshSink "nobody@example.com" Fixtures.chatBody
  = [WriteError StatusNotFound "Credential not found: nobody@example.com"]
  /\ HandleChatCompletionsWithCredential freshSink "proj-404" Fixtures.chatBody
     = [WriteError StatusNotFound "Credential not found: proj-404"]
  /\ upstreamCalls
       (HandleChatCompletionsWithCredential freshSink "dev@example.com" Fixtures.chatBody)
     = 1
  /\ upstreamCalls
       (HandleChatCompletionsWithCredential (SV := SB) freshSink "proj-1"
          Fixtures.bypassBody)
     = 1
  /\ upstreamCalls
       (HandleChatCompletionsWithCredential (SV := SB) Fixtures.deadSink "proj-1"
          Fixtures.bypassBody)
     = 0.
Proof.
  intros MT RT SC SV SB. split; [|split; [|split; [|split]]].
  - destruct (C9_credential_lookup (MT := MT) (RT := RT) (SC := SC) (SV := SV)
                freshSink "nobody@example.com" Fixtures.chatBody _ eq_refl)
      as (_ & _ & Hfail & _).
    apply (Hfail Fixtures.notFound eq_refl).
  - destruct (C9_credential_lookup (MT := MT) (RT := RT) (SC := SC) (SV := SV)
                freshSink "proj-404" Fixtures.chatBody _ eq_refl)
      as (_ & _ & Hfail & _).
    apply (Hfail Fixtures.notFound eq_refl).
  - destruct (C9_credential_lookup (MT := MT) (RT := RT) (SC := SC) (SV := SV)
                freshSink "dev@example.com" Fixtures.chatBody _ eq_refl)
      as (_ & _ & _ & Hok).
    apply (Hok Sample.account eq_refl).
  - destruct (C9_credential_lookup (MT := MT) (RT := RT) (SC := SC) (SV := SB)
                freshSink "proj-1" Fixtures.bypassBody _ eq_refl)
      as (_ & _ & _ & Hok).
    apply (Hok Sample.account eq_refl).
  - destruct (C9_credential_lookup (MT := MT) (RT := RT) (SC := SC) (SV := SB)
                Fixtures.deadSink "proj-1" Fixtures.bypassBody _ eq_refl)
      as (_ & _ & _ & Hok).
    apply (Hok Sample.account eq_refl).
Defined.

(** ** The bypass relay *)

Section BypassFacts.
Context `{MT : ModelTable} `{RT : Runtime}.

Lemma execs_flags (ops : list Op) (sw : StreamWriter) :
  gone (sw_w sw) = false -> sentRole sw = true ->
  gone (sw_w (execs sw ops)) = false /\ sentRole (execs sw ops) = true.
Proof.
  revert sw. induction ops as [|op ops IH]; intros sw Hg Hs; [done|].
  destruct (exec_healthy sw op Hg) as (_ & Hg' & Hs' & _).
  apply (IH (exec sw op) Hg'). rewrite Hs'. unfold roleAfter. by destruct op.
Qed.

Lemma exec_ids (sw : StreamWriter) (op : Op) :
  sw_id (exec sw op) = sw_id sw
  /\ sw_created (exec sw op) = sw_created sw
  /\ sw_model (exec sw op) = sw_model sw.
Proof.
  destruct sw as [[wr g] id cr md sr cb rb].
  unfold exec, call. destruct op; simpl;
    unfold WriteRole, WriteContent, WriteReasoning, WriteToolCalls, Flush,
           WriteFinish, WriteHeartbeat, flushLocked, flushContent, flushReasoning,
           writeRoleLocked, emit, WriteStreamData; simpl;
    repeat (case_match; simpl in *; simplify_eq); done.
Qed.

Lemma execs_ids (ops : list Op) (sw : StreamWriter) :
  sw_id (execs sw ops) = sw_id sw
  /\ sw_created (execs sw ops) = sw_created sw
  /\ sw_model (execs sw ops) = sw_model sw.
Proof.
  revert sw. induction ops as [|op ops IH]; intros sw; [done|].
  change (execs sw (op :: ops)) with (execs (exec sw op) ops).
  destruct (IH (exec sw op)) as (-> & -> & ->). apply exec_ids.
Qed.

(** The burst always ends with a call of WriteFinish. *)
Lemma burst_ends_with_finish (model : string) (result : AntigravityResponse + GoError)
    (ops : list Op) :
  burst model result = Some ops ->
  exists ops' reason usage, ops = ops' ++ [OpFinish reason usage].
Proof.
  unfold burst. destruct result as [resp|err].
  - destruct (ConvertToOpenAIResponse 2 resp model) as [r|]; [|done].
    destruct (cc_Choices r) as [|choice rest].
    + intros [= <-]. by exists [], "stop", None.
    + intros [= <-]. eexists _, _, _. rewrite !app_assoc. reflexivity.
  - intros [= <-]. by exists [OpContent ("Error: " +:+ err_Error err)], "stop", None.
Qed.

(** The handler goes through its burst on its own. *)
Lemma run_burst (model : string) (result : AntigravityResponse + GoError)
    (ops : list Op) (s : Bypass) :
  b_main s = AtBurst ops ->
  run model result (repeat Main (length ops)) s
  = Some {| b_main := AtBurst []; b_hb := b_hb s; b_sw := execs (b_sw s) ops;
            b_done := b_done s; b_ctxDone := b_ctxDone s; b_tick := b_tick s |}.
Proof.
  revert s. induction ops as [|op ops IH]; intros s Hs; simpl.
  - destruct s. simpl in Hs. by subst.
  - unfold fireMain. rewrite Hs. rewrite IH by done. done.
Qed.

Lemma run_app (model : string) (result : AntigravityResponse + GoError)
    (a b : list Label) (s : Bypass) :
  run model result (a ++ b) s
  = match run model result a s with
    | Some s' => run model result b s'
    | None => None
    end.
Proof.
  revert s. induction a as [|l a IH]; intros s; simpl; [done|].
  by destruct (fire model result l s).
Qed.

(** Whatever the upstream answers, short of a panic: when the goroutine
    has taken the ticker case before [done] is closed, the handler can
    write its whole burst before the goroutine writes, and the wire then
    ends with the finish event, the end marker and a heartbeat. *)
Lemma late_heartbeat (model : string) (result : AntigravityResponse + GoError)
    (ops : list Op) :
  burst model result = Some ops ->
  let schedule :=
    [Main; Main; Tick; SelectTick; Main; Main] ++ repeat Main (length ops)
    ++ [HeartbeatWrite] in
  exists s before finish heartbeat,
    run model result schedule (bypassInit freshSink model) = Some s
    /\ wire (sw_w (b_sw s)) = before ++ [finish; EvDone; heartbeat]
    /\ kind finish = KFinish /\ kind heartbeat = KHeartbeat.
Proof.
  intros Hb schedule. subst schedule.
  destruct (burst_ends_with_finish _ _ _ Hb) as (ops' & reason & usage & Eops).
  cbn [app run fire fireMain bypassInit b_main b_hb b_tick b_done b_ctxDone b_sw
       setMain setHb]. simpl. rewrite Hb.
  match goal with
  | |- context [run _ _ _ ?s0] => set (s := s0)
  end.
  rewrite run_app, (run_burst model result ops s eq_refl).
  set (sw1 := b_sw s).
  assert (Hg1 : gone (sw_w sw1) = false) by done.
  assert (Hs1 : sentRole sw1 = true) by done.
  destruct (execs_flags ops sw1 Hg1 Hs1) as [Hg2 Hs2].
  assert (Hwire : exists before, wire (sw_w (execs sw1 ops))
                    = before ++ [chunkOf sw1 Delta0 (Some reason) usage; EvDone]).
  { rewrite Eops. unfold execs. rewrite fold_left_app. simpl.
    fold (execs sw1 ops'). destruct (execs_flags ops' sw1 Hg1 Hs1) as [Hg3 _].
    destruct (exec_healthy (execs sw1 ops') (OpFinish reason usage) Hg3)
      as (Hw & _ & _ & Hid & Hcr & Hmd).
    rewrite Hw. simpl. eexists. rewrite app_assoc. f_equal.
    unfold chunkOf. f_equal.
    destruct (execs_ids ops' sw1) as (-> & -> & ->). done. }
  destruct Hwire as (before & Hwire).
  destruct (exec_healthy (execs sw1 ops) OpHeartbeat Hg2) as (Hw & _).
  unfold exec, call in Hw.
  destruct (WriteHeartbeat (execs sw1 ops)) as [sw' err] eqn:Ehb. simpl in Hw.
  assert (Herr : err = None).
  { unfold WriteHeartbeat, writeRoleLocked, emit, WriteStreamData in Ehb.
    rewrite Hs2 in Ehb. simpl in Ehb. rewrite Hg2 in Ehb. by injection Ehb as _ <-. }
  subst err. assert (Hhb : b_hb s = AtWriteHeartbeat) by done.
  cbn [run fire b_hb b_sw]. rewrite Hhb, Ehb.
  eexists _, before, _, _. split; [reflexivity|]. cbn [b_sw].
  rewrite Hw, Hwire. simpl. unfold roleDue. rewrite Hs2. simpl.
  rewrite <- app_assoc. simpl. split; [reflexivity|]. split; reflexivity.
Qed.

End BypassFacts.

(** C6 fails on the code. The ticker fires and the goroutine takes the
    ticker case of its select while the upstream call is in flight; the
    handler then gets the answer, closes [done] and, without waiting for
    the goroutine, writes the content, the finish event and the end
    marker; the goroutine then makes its call of WriteHeartbeat. The
    heartbeat is on the wire after the finish event. *)
Theorem C6_heartbeat_after_finish :
  let MT := Sample.models in
  let RT := Sample.runtime in
  let model := "gemini-3-pro-high-bypass" in
  let schedule :=
    [Main; Main; Tick; SelectTick; Main; Main; Main; Main; HeartbeatWrite] in
  exists s,
    run model (inl Fixtures.hello) schedule (bypassInit freshSink model) = Some s
    /\ b_done s = true
    /\ map kind (wire (sw_w (b_sw s)))
       = [KRole; KHeartbeat; KContent; KFinish; KDone; KHeartbeat].
Proof.
  intros MT RT model schedule. eexists.
  split; [vm_compute; reflexivity|]. split; vm_compute; reflexivity.
Qed.

(** A run in which the goroutine sees [done] closed in its select before
    the handler writes: the heartbeats come before the burst. *)
Example bypass_orderly_run :
  let MT := Sample.models in
  let RT := Sample.runtime in
  let model := "gemini-3-pro-high-bypass" in
  let schedule :=
    [Main; Main; Tick; SelectTick; HeartbeatWrite; Main; Main; SelectDone; Main; Main; Main] in
  exists s,
    run model (inl Fixtures.hello) schedule (bypassInit freshSink model) = Some s
    /\ b_hb s = Exited /\ b_main s = Returned
    /\ map kind (wire (sw_w (b_sw s)))
       = [KRole; KHeartbeat; KHeartbeat; KContent; KFinish; KDone].
Proof.
  intros MT RT model schedule. eexists.
  split; [vm_compute; reflexivity|]. split; [|split]; vm_compute; reflexivity.
Qed.

(** * More properties *)

Import Answer Channels Events Running Tasks Form Stray.

(** ** More on the translator *)

Section TranslatorMore.
Context `{MT : ModelTable} `{RT : Runtime}.

Lemma convertMessage_skip (result : list Content) (msg : OpenAIMessage) :
  ~ builds msg -> convertMessage result msg = result.
Proof.
  intros Hn. unfold convertMessage.
  destruct (String.eqb (m_Role msg) "system"); [done|].
  destruct (String.eqb_spec (m_Role msg) "user") as [E|_].
  { destruct Hn. by left. }
  destruct (String.eqb_spec (m_Role msg) "assistant") as [E|_].
  { destruct Hn. right. by left. }
  destruct (String.eqb_spec (m_Role msg) "tool") as [E|_]; [|done].
  destruct Hn. right. by right.
Qed.

(** X1. The turns are built from the user, assistant and tool messages
    alone: system messages, and messages with any other role, can be
    taken out of the list without changing the turns. *)
Theorem convertMessages_only_builds (messages : list OpenAIMessage) :
  convertMessages messages = convertMessages (filter builds messages).
Proof.
  unfold convertMessages. generalize (@nil Content).
  induction messages as [|msg messages IH]; intros acc; [done|].
  destruct (decide (builds msg)) as [Hb|Hb].
  - rewrite filter_cons_True by done. simpl. apply IH.
  - rewrite filter_cons_False by done. simpl.
    rewrite (convertMessage_skip _ _ Hb). apply IH.
Qed.

Lemma appendFunctionResponse_shape (contents : list Content) (part : Part) :
  Forall (fun c => (c_Role c = "user" \/ c_Role c = "model")
                   /\ (c_Role c = "model" -> c_Parts c <> [])) contents ->
  Forall (fun c => (c_Role c = "user" \/ c_Role c = "model")
                   /\ (c_Role c = "model" -> c_Parts c <> []))
         (appendFunctionResponse contents part).
Proof.
  intros Hall.
  assert (Hnew : Forall (fun c => (c_Role c = "user" \/ c_Role c = "model")
                   /\ (c_Role c = "model" -> c_Parts c <> []))
                   [ {| c_Role := "user"; c_Parts := [part] |} ]).
  { apply Forall_singleton. simpl. split; [by left|done]. }
  unfold appendFunctionResponse.
  destruct contents as [|a contents'] using rev_ind; [done|]. clear IHcontents'.
  rewrite last_snoc.
  destruct (String.eqb (c_Role a) "model"); [by apply Forall_app|].
  destruct (String.eqb_spec (c_Role a) "user") as [E|_]; [|by apply Forall_app].
  rewrite last_alter_snoc. apply Forall_app in Hall as [Hall _].
  apply Forall_app. split; [done|]. apply Forall_singleton. simpl.
  split; [by left|]. rewrite E. discriminate.
Qed.

(** X2. Every turn built has the role user or the role model, and a model
    turn always has at least one part. *)
Theorem convertMessages_turn_shape (messages : list OpenAIMessage) :
  Forall (fun c => (c_Role c = "user" \/ c_Role c = "model")
                   /\ (c_Role c = "model" -> c_Parts c <> []))
         (convertMessages messages).
Proof.
  induction messages as [|msg messages IH] using rev_ind; [constructor|].
  rewrite convertMessages_app. simpl. unfold convertMessage.
  destruct (String.eqb (m_Role msg) "system"); [done|].
  destruct (String.eqb (m_Role msg) "user").
  { apply Forall_app. split; [done|]. apply Forall_singleton. simpl.
    split; [by left|done]. }
  destruct (String.eqb (m_Role msg) "assistant").
  { destruct (assistantParts msg) as [|p ps] eqn:E; simpl; [done|].
    apply Forall_app. split; [done|]. apply Forall_singleton. simpl.
    split; [by right|done]. }
  destruct (String.eqb (m_Role msg) "tool"); [|done].
  by apply appendFunctionResponse_shape.
Qed.

End TranslatorMore.

(** ** Strings *)

Section StringFacts.
#[local] Arguments append _ _ : simpl nomatch.

Lemma append_nil_right (s : string) : s +:+ "" = s.
Proof. induction s as [|a s IH]; simpl; [done|by f_equal]. Qed.

Lemma append_assoc (a b c : string) : (a +:+ b) +:+ c = a +:+ (b +:+ c).
Proof. induction a as [|x a IH]; simpl; [done|by f_equal]. Qed.

Lemma CutPrefix_append (p r : string) : CutPrefix (p +:+ r) p = Some r.
Proof.
  induction p as [|a p IH]; simpl; [by destruct r|].
  by rewrite Ascii.eqb_refl.
Qed.

Lemma CutPrefix_Some (s p r : string) : CutPrefix s p = Some r -> s = p +:+ r.
Proof.
  revert s. induction p as [|a p IH]; intros s.
  - destruct s; simpl; intros [= <-]; reflexivity.
  - destruct s as [|b s]; simpl; [done|].
    destruct (Ascii.eqb a b) eqn:E; [|discriminate].
    apply Ascii.eqb_eq in E as ->. intros H. rewrite (IH _ H). reflexivity.
Qed.

Lemma span_word_spec (s w r : string) :
  span_word s = (w, r) ->
  s = w +:+ r /\ isWord w
  /\ match r with EmptyString => True | String a _ => is_word_char a = false end.
Proof.
  revert w r. induction s as [|a s IH]; intros w r; simpl.
  - intros [= <- <-]. repeat split. constructor.
  - destruct (is_word_char a) eqn:Ea.
    + destruct (span_word s) as [w' r'] eqn:E. intros [= <- <-].
      destruct (IH w' r' eq_refl) as (-> & Hw & Hr).
      repeat split; [|done]. unfold isWord. simpl. by constructor.
    + intros [= <- <-]. repeat split; [constructor|done].
Qed.

Lemma span_word_append (w r : string) :
  isWord w ->
  match r with EmptyString => True | String a _ => is_word_char a = false end ->
  span_word (w +:+ r) = (w, r).
Proof.
  unfold isWord. induction w as [|a w IH]; simpl; intros Hw Hr.
  - destruct r as [|b r]; [done|]. simpl. by rewrite Hr.
  - inversion Hw as [|? ? Ha Hw']; subst. rewrite Ha, (IH Hw' Hr). done.
Qed.

Lemma concat_empty_cons (x : string) (xs : list string) :
  String.concat "" (x :: xs) = x +:+ String.concat "" xs.
Proof. destruct xs; simpl; [by rewrite append_nil_right|done]. Qed.

Lemma concat_empty_app (xs ys : list string) :
  String.concat "" (xs ++ ys) = String.concat "" xs +:+ String.concat "" ys.
Proof.
  induction xs as [|x xs IH]; [done|].
  rewrite <- app_comm_cons, !concat_empty_cons, IH. by rewrite append_assoc.
Qed.

End StringFacts.

(** ** Images *)

Section ImageFacts.
Context `{RT : Runtime}.
#[local] Arguments append _ _ : simpl nomatch.

(** X3. What parseImageURL accepts is a data URL of an image: the URL is
    the text data:, the MIME type, ;base64, and the data, where the MIME
    type is image/ followed by word characters and the data is not empty
    and has no line feed. *)
Theorem parseImageURL_sound (url : string) (d : InlineData) :
  parseImageURL url = Some d ->
  url = dataURL d
  /\ exists fmt, MimeType d = "image/" +:+ fmt /\ fmt <> "" /\ isWord fmt
                 /\ Data d <> "" /\ ContainsChar (Data d) "010"%char = false.
Proof.
  unfold parseImageURL.
  destruct (CutPrefix url "data:image/") as [r1|] eqn:E1; [|done].
  destruct (span_word r1) as [fmt r2] eqn:E2.
  destruct (nonempty_string fmt) eqn:Ef; simpl; [|done].
  destruct (CutPrefix r2 ";base64,") as [payload|] eqn:E3; [|done].
  destruct (nonempty_string payload) eqn:Ep; simpl; [|done].
  destruct (ContainsChar payload "010") eqn:Ec; simpl; [done|].
  intros [= <-]. apply CutPrefix_Some in E1, E3.
  apply span_word_spec in E2 as (E2 & Hw & _). subst url r1 r2.
  split; [done|]. exists fmt. repeat split; try done.
  - by destruct fmt.
  - by destruct payload.
Qed.

(** X4. The way back: the data URL that ConvertToOpenAIResponse writes
    for the inline data of an image is a URL that parseImageURL reads as
    that same inline data. *)
Theorem image_round_trip (a : RespAcc) (part : Part) (fmt payload : string) :
  imageOf part = Some {| MimeType := "image/" +:+ fmt; Data := payload |} ->
  fmt <> "" -> isWord fmt ->
  payload <> "" -> ContainsChar payload "010"%char = false ->
  exists url,
    acc_imageURLs (convertPart a part) = acc_imageURLs a ++ [url]
    /\ parseImageURL url = Some {| MimeType := "image/" +:+ fmt; Data := payload |}.
Proof.
  intros Hi Hf Hw Hp Hc.
  exists (dataURL {| MimeType := "image/" +:+ fmt; Data := payload |}). split.
  - unfold imageOf in Hi. unfold convertPart.
    destruct (p_Thought part); [done|].
    destruct (nonempty_string (p_Text part)); [done|].
    destruct (p_FunctionCall part); [done|]. by rewrite Hi.
  - unfold parseImageURL, dataURL. cbn [MimeType Data].
    rewrite (append_assoc "image/" fmt).
    change ("data:" +:+ "image/" +:+ fmt +:+ ";base64," +:+ payload)
      with ("data:image/" +:+ (fmt +:+ (";base64," +:+ payload))).
    rewrite CutPrefix_append.
    rewrite (span_word_append fmt (";base64," +:+ payload) Hw eq_refl).
    rewrite CutPrefix_append.
    destruct fmt as [|f0 fmt']; [done|]. destruct payload as [|p0 payload']; [done|].
    cbn [nonempty_string negb andb]. by rewrite Hc.
Qed.

End ImageFacts.

(** X4, on a run: a PNG. *)
Lemma image_round_trip_witness :
  let RT := Sample.runtime in
  let d := {| MimeType := "image/png"; Data := "iVBORw0KGgo=" |} in
  let part := {| p_Text := ""; p_FunctionCall := None; p_FunctionResponse := None;
                 p_InlineData := Some d; p_Thought := false; p_ThoughtSignature := "" |} in
  let a := {| acc_content := ""; acc_thinking := ""; acc_toolCalls := [];
              acc_imageURLs := []; acc_drawn := 0 |} in
  exists url,
    acc_imageURLs (convertPart a part) = acc_imageURLs a ++ [url]
    /\ parseImageURL url = Some d.
Proof.
  intros RT d part a.
  apply (image_round_trip (RT := RT) a part "png" "iVBORw0KGgo=" eq_refl).
  - discriminate.
  - repeat constructor.
  - discriminate.
  - reflexivity.
Defined.

(** X3, on a run. *)
Lemma parseImageURL_sound_witness :
  let d := {| MimeType := "image/png"; Data := "iVBORw0KGgo=" |} in
  "data:image/png;base64,iVBORw0KGgo=" = dataURL d
  /\ exists fmt, MimeType d = "image/" +:+ fmt /\ fmt <> "" /\ isWord fmt
                 /\ Data d <> "" /\ ContainsChar (Data d) "010"%char = false.
Proof.
  intros d. apply (parseImageURL_sound "data:image/png;base64,iVBORw0KGgo=" d).
  reflexivity.
Defined.

(** ** Contents and names *)

Section ContentFacts.
Context `{RT : Runtime}.

Lemma extractPart_plain (item : JSON) : Forall plainPart (extractPart item).
Proof.
  unfold extractPart, plainPart.
  repeat (case_match; try constructor); simpl; repeat split; auto.
Qed.

Lemma extractPart_texts (item : JSON) :
  map p_Text (filter (fun p => p_InlineData p = None) (extractPart item))
  = textOfItem item.
Proof.
  unfold extractPart, textOfItem.
  destruct item as [| | | | |m]; try done.
  destruct (field_is m "type" "text") eqn:Et.
  - by destruct (as_string (m !! "text")).
  - by repeat case_match.
Qed.

(** X5. extractParts gives text parts and inline data parts only, never a
    function call, a function response or a thought; and the texts of its
    text parts, joined by line feeds, are what getTextContent gives for
    the same content. *)
Theorem extractParts_plain (content : JSON) :
  Forall plainPart (extractParts content)
  /\ getTextContent content
     = Join (map p_Text (filter (fun p => p_InlineData p = None) (extractParts content)))
            (String "010"%char EmptyString).
Proof.
  destruct content as [| | |v|v|]; simpl; try (split; [by apply Forall_nil_2|reflexivity]).
  - split; [|reflexivity]. apply Forall_singleton. unfold plainPart. simpl. repeat split; auto.
  - split.
    + induction v as [|item v IH]; simpl; [constructor|].
      apply Forall_app. split; [apply extractPart_plain|done].
    + unfold Join. f_equal. induction v as [|item v IH]; simpl; [done|].
      by rewrite filter_app, map_app, extractPart_texts, IH.
Qed.

Lemma findInParts_None (parts : list Part) (id : string) :
  findInParts parts id = None <->
  forall p fc, p ∈ parts -> p_FunctionCall p = Some fc -> fc_ID fc <> id.
Proof.
  induction parts as [|p parts IH]; simpl.
  - split; [|done]. intros _ p fc Hin. by apply elem_of_nil in Hin.
  - destruct (p_FunctionCall p) as [fc|] eqn:E.
    + destruct (String.eqb_spec (fc_ID fc) id) as [Eid|Eid].
      * split; [done|]. intros H. exfalso. apply (H p fc); [by left|done|done].
      * rewrite IH. split.
        -- intros H q fc' Hin Hq. apply elem_of_cons in Hin as [->|Hin]; [|by eapply H].
           rewrite E in Hq. by injection Hq as <-.
        -- intros H q fc' Hin Hq. apply (H q fc'); [by right|done].
    + rewrite IH. split.
      * intros H q fc' Hin Hq. apply elem_of_cons in Hin as [->|Hin]; [|by eapply H].
        by rewrite E in Hq.
      * intros H q fc' Hin Hq. apply (H q fc'); [by right|done].
Qed.

Lemma findInParts_first (before after : list Part) (p : Part) (fc : FunctionCall)
    (id : string) :
  (forall q fc', q ∈ before -> p_FunctionCall q = Some fc' -> fc_ID fc' <> id) ->
  p_FunctionCall p = Some fc -> fc_ID fc = id ->
  findInParts (before ++ p :: after) id = Some (fc_Name fc).
Proof.
  intros Hb Hp Hid. induction before as [|q before IH]; simpl.
  - rewrite Hp. destruct (String.eqb_spec (fc_ID fc) id); done.
  - assert (IH' := IH (fun q' fc' Hin => Hb q' fc' (list_elem_of_further _ _ _ Hin))).
    destruct (p_FunctionCall q) as [fc'|] eqn:E; [|done].
    destruct (String.eqb_spec (fc_ID fc') id) as [Eid|Eid]; [|done].
    exfalso. apply (Hb q fc'); [by left|done|done].
Qed.

Lemma findFromLast_skip (contents rest : list Content) (id : string) :
  (forall c p fc, c ∈ contents -> p ∈ c_Parts c -> p_FunctionCall p = Some fc ->
                  fc_ID fc <> id) ->
  findFromLast (rev contents ++ rest) id = findFromLast rest id.
Proof.
  revert rest. induction contents as [|c contents IH]; intros rest H; [done|].
  simpl. rewrite <- app_assoc. rewrite IH.
  - simpl. rewrite (proj2 (findInParts_None (c_Parts c) id)); [done|].
    intros p fc Hin Hp. apply (H c p fc); [by left|done|done].
  - intros c' p fc Hin. apply H. by right.
Qed.

(** X6. findFunctionName gives the name of the call with the id found in
    the last turn that has one, and in that turn of the first such call,
    whatever the turns before hold. *)
Theorem findFunctionName_last_turn (id : string) (earlier later : list Content)
    (c : Content) (before after : list Part) (p : Part) (fc : FunctionCall) :
  c_Parts c = before ++ p :: after ->
  p_FunctionCall p = Some fc -> fc_ID fc = id ->
  (forall q fc', q ∈ before -> p_FunctionCall q = Some fc' -> fc_ID fc' <> id) ->
  (forall c' q fc', c' ∈ later -> q ∈ c_Parts c' -> p_FunctionCall q = Some fc' ->
                    fc_ID fc' <> id) ->
  findFunctionName (earlier ++ c :: later) id = fc_Name fc.
Proof.
  intros Hparts Hp Hid Hbefore Hlater.
  unfold findFunctionName. rewrite rev_app_distr. simpl. rewrite <- app_assoc.
  rewrite (findFromLast_skip later _ id Hlater). simpl.
  by rewrite Hparts, (findInParts_first before after p fc id Hbefore Hp Hid).
Qed.

(** X7. findFunctionName gives the empty name when no turn has a function
    call with the id, and so on an empty history. *)
Theorem findFunctionName_absent (id : string) (contents : list Content) :
  (forall c p fc, c ∈ contents -> p ∈ c_Parts c -> p_FunctionCall p = Some fc ->
                  fc_ID fc <> id) ->
  findFunctionName contents id = "".
Proof.
  intros H. unfold findFunctionName.
  rewrite <- (app_nil_r (rev contents)). by rewrite findFromLast_skip.
Qed.

End ContentFacts.

(** X6, on a run: two turns call with the id c1; the name of the later
    one is found. *)
Lemma findFunctionName_last_turn_witness :
  let call := fun name =>
    {| p_Text := ""; p_FunctionCall := Some {| fc_ID := "c1"; fc_Name := name; fc_Args := ∅ |};
       p_FunctionResponse := None; p_InlineData := None; p_Thought := false;
       p_ThoughtSignature := "" |} in
  findFunctionName
    [ {| c_Role := "model"; c_Parts := [call "old_name"] |};
      {| c_Role := "model"; c_Parts := [call "new_name"] |};
      {| c_Role := "user"; c_Parts := [] |} ] "c1" = "new_name".
Proof.
  intros call.
  apply (findFunctionName_last_turn "c1"
           [ {| c_Role := "model"; c_Parts := [call "old_name"] |} ]
           [ {| c_Role := "user"; c_Parts := [] |} ]
           {| c_Role := "model"; c_Parts := [call "new_name"] |}
           [] [] (call "new_name") _ eq_refl eq_refl eq_refl).
  - intros q fc' Hin. by apply elem_of_nil in Hin.
  - intros c' q fc' Hin Hq. apply list_elem_of_singleton in Hin as ->.
    by apply elem_of_nil in Hq.
Defined.

(** X7, on a run: the history has a call c1 and none with the id c2. *)
Lemma findFunctionName_absent_witness :
  findFunctionName
    [ {| c_Role := "model";
         c_Parts := [ {| p_Text := "";
                         p_FunctionCall := Some {| fc_ID := "c1"; fc_Name := "get_weather";
                                                   fc_Args := ∅ |};
                         p_FunctionResponse := None; p_InlineData := None;
                         p_Thought := false; p_ThoughtSignature := "" |} ] |} ] "c2" = "".
Proof.
  apply findFunctionName_absent.
  intros c p fc Hc Hp Hfc. apply list_elem_of_singleton in Hc as ->.
  apply list_elem_of_singleton in Hp as ->. injection Hfc as <-. discriminate.
Defined.

(** ** The answer read back *)

Section AnswerFacts.
Context `{RT : Runtime}.
#[local] Arguments append _ _ : simpl nomatch.

Lemma thoughtText_cons (p : Part) (parts : list Part) :
  thoughtText (p :: parts)
  = (if p_Thought p then p_Text p else "") +:+ thoughtText parts.
Proof.
  unfold thoughtText. destruct (p_Thought p) eqn:E.
  - rewrite filter_cons_True by done. simpl map. by rewrite concat_empty_cons.
  - rewrite filter_cons_False by (by rewrite E). done.
Qed.

Lemma plainText_cons (p : Part) (parts : list Part) :
  plainText (p :: parts)
  = (if p_Thought p then "" else p_Text p) +:+ plainText parts.
Proof.
  unfold plainText. destruct (p_Thought p) eqn:E.
  - rewrite filter_cons_False by (by rewrite E). done.
  - rewrite filter_cons_True by done. simpl map. by rewrite concat_empty_cons.
Qed.

Lemma images_cons (p : Part) (parts : list Part) :
  images (p :: parts)
  = match imageOf p with Some d => d :: images parts | None => images parts end.
Proof. reflexivity. Qed.

Lemma calls_cons (p : Part) (parts : list Part) :
  calls (p :: parts)
  = match callOf p with
    | Some fc => (fc, p_ThoughtSignature p) :: calls parts
    | None => calls parts
    end.
Proof. unfold calls. cbn [omap list_omap]. by destruct (callOf p). Qed.

(** The loop of ConvertToOpenAIResponse, in terms of what each part
    gives. *)
Lemma convertParts_spec (parts : list Part) (a : RespAcc) :
  let a' := fold_left convertPart parts a in
  acc_thinking a' = acc_thinking a +:+ thoughtText parts
  /\ acc_content a' = acc_content a +:+ plainText parts
  /\ acc_imageURLs a' = acc_imageURLs a ++ map dataURL (images parts)
  /\ exists tcs, acc_toolCalls a' = acc_toolCalls a ++ tcs
       /\ Forall2 (fun tc c =>
            otc_Type tc = "function"
            /\ ofc_Name (otc_Function tc) = fc_Name c.1
            /\ ofc_Arguments (otc_Function tc) = json_Marshal (fc_Args c.1)
            /\ otc_ThoughtSignature tc = c.2
            /\ (fc_ID c.1 <> "" -> otc_ID tc = fc_ID c.1)) tcs (calls parts).
Proof.
  revert a. induction parts as [|p parts IH]; intros a; cbn zeta.
  - simpl. rewrite !append_nil_right, !app_nil_r. split_and!; try done.
    exists []. by rewrite app_nil_r.
  - cbn [fold_left]. pose proof (IH (convertPart a p)) as IH'. cbn zeta in IH'.
    destruct IH' as (Ht & Hc & Hi & tcs & Hcalls & Hall).
    rewrite Ht, Hc, Hi, Hcalls, thoughtText_cons, plainText_cons, images_cons, calls_cons.
    clear Ht Hc Hi Hcalls IH.
    unfold imageOf, callOf, convertPart.
    destruct (p_Thought p); cbn [acc_thinking acc_content acc_imageURLs acc_toolCalls].
    { rewrite append_assoc. split_and!; try done. by exists tcs. }
    destruct (nonempty_string (p_Text p)) eqn:En;
      cbn [acc_thinking acc_content acc_imageURLs acc_toolCalls].
    { rewrite append_assoc. split_and!; try done. by exists tcs. }
    assert (p_Text p = "") as -> by (by destruct (p_Text p)).
    destruct (p_FunctionCall p) as [fc|];
      cbn [acc_thinking acc_content acc_imageURLs acc_toolCalls].
    { split_and!; try done. eexists (_ :: tcs). rewrite <- app_assoc. split; [done|].
      constructor; [|done]. cbn. split_and!; try done.
      intros Hid. by destruct (fc_ID fc). }
    destruct (p_InlineData p) as [d|];
      cbn [acc_thinking acc_content acc_imageURLs acc_toolCalls map].
    { rewrite <- app_assoc. split_and!; try done. by exists tcs. }
    split_and!; try done. by exists tcs.
Qed.

(** X8. The message of the completion, read off the parts of the first
    candidate: the reasoning is the text of the thoughts, the content the
    text of the other parts, followed by one markdown image per inline
    data when there is any; there is one tool call per function call of a
    part that is no thought and has no text, with the name, the encoded
    arguments, the thought signature and, when it is not empty, the id of
    the call; the finish reason is tool_calls exactly when there is
    one. *)
Theorem ConvertToOpenAIResponse_message (k : nat) (model : string) (cand0 : Candidate)
    (rest : list Candidate) (usage : option UsageMetadata) :
  let resp := {| resp_Candidates := cand0 :: rest; resp_UsageMetadata := usage |} in
  let parts := c_Parts (cand_Content cand0) in
  exists completion msg,
    ConvertToOpenAIResponse k resp model = Some completion
    /\ cc_Choices completion
       = [ {| ch_Index := 0; ch_Message := msg; ch_Delta := None;
              ch_FinishReason :=
                Some (match calls parts with [] => "stop" | _ => "tool_calls" end) |} ]
    /\ msg_Role msg = "assistant"
    /\ msg_Reasoning msg = thoughtText parts
    /\ msg_Content msg = match images parts with
                         | [] => plainText parts
                         | ds => markdown (plainText parts) (map dataURL ds)
                         end
    /\ Forall2 (fun tc c =>
         otc_Type tc = "function"
         /\ ofc_Name (otc_Function tc) = fc_Name c.1
         /\ ofc_Arguments (otc_Function tc) = json_Marshal (fc_Args c.1)
         /\ otc_ThoughtSignature tc = c.2
         /\ (fc_ID c.1 <> "" -> otc_ID tc = fc_ID c.1))
       (msg_ToolCalls msg) (calls parts).
Proof.
  intros resp parts. unfold ConvertToOpenAIResponse, resp.
  cbn [resp_Candidates lookup list_lookup]. fold parts.
  pose proof (convertParts_spec parts
              {| acc_content := ""; acc_thinking := ""; acc_toolCalls := [];
                 acc_imageURLs := []; acc_drawn := k |}) as Hspec.
  cbn zeta in Hspec. destruct Hspec as (Ht & Hco & Hi & tcs & Hcalls & Hall).
  cbn [acc_content acc_thinking acc_toolCalls acc_imageURLs] in Ht, Hco, Hi, Hcalls.
  cbn [app] in Hi, Hcalls. change ("" +:+ ?x) with x in Ht, Hco.
  eexists _, _. split; [reflexivity|].
  rewrite Ht, Hco, Hi, Hcalls. cbn [msg_Role msg_Reasoning msg_Content msg_ToolCalls].
  split.
  { cbn [cc_Choices]. do 3 f_equal. apply Forall2_length in Hall.
    destruct tcs, (calls parts); done. }
  cbn [msg_Role msg_Reasoning msg_Content msg_ToolCalls].
  split_and!; try done.
  destruct (images parts); done.
Qed.

Lemma convertParts_toolCalls (tcs : list OpenAIToolCall) (a : RespAcc) :
  Forall (fun tc => otc_ID tc <> "") tcs ->
  fold_left convertPart (map toolCallPart tcs) a
  = {| acc_content := acc_content a; acc_thinking := acc_thinking a;
       acc_toolCalls := acc_toolCalls a ++
         map (fun tc =>
                {| otc_ID := otc_ID tc; otc_Type := "function";
                   otc_Function :=
                     {| ofc_Name := ofc_Name (otc_Function tc);
                        ofc_Arguments :=
                          json_Marshal (parseArgs (ofc_Arguments (otc_Function tc))) |};
                   otc_ThoughtSignature := otc_ThoughtSignature tc |}) tcs;
       acc_imageURLs := acc_imageURLs a; acc_drawn := acc_drawn a |}.
Proof.
  intros Hall. revert a. induction Hall as [|tc tcs Hid _ IH]; intros a.
  - simpl. rewrite app_nil_r. by destruct a.
  - cbn [map fold_left]. rewrite IH. unfold convertPart, toolCallPart.
    cbn [p_Thought p_Text nonempty_string p_FunctionCall fc_ID fc_Name fc_Args
         p_ThoughtSignature acc_content acc_thinking acc_toolCalls acc_imageURLs acc_drawn].
    destruct (otc_ID tc) eqn:E; [done|]. cbn [nonempty_string negb].
    by rewrite <- app_assoc.
Qed.

(** X9. An assistant message sent upstream and read back as an answer:
    the turn built for an assistant message whose tool calls all have an
    id, taken as the first candidate of a response, gives a completion
    with the text of the message as content, no reasoning, and the tool
    calls of the message in order, with the same ids, names and thought
    signatures; the arguments are the ones of the message, decoded and
    encoded again. *)
Theorem assistant_round_trip (msg : OpenAIMessage) (k : nat) (model : string)
    (cand0 : Candidate) (rest : list Candidate) (usage : option UsageMetadata) :
  m_Role msg = "assistant" ->
  Forall (fun tc => otc_ID tc <> "") (m_ToolCalls msg) ->
  convertMessages [msg] = [cand_Content cand0] ->
  exists completion choice,
    ConvertToOpenAIResponse k
      {| resp_Candidates := cand0 :: rest; resp_UsageMetadata := usage |} model
    = Some completion
    /\ cc_Choices completion = [choice]
    /\ msg_Content (ch_Message choice) = getTextContent (m_Content msg)
    /\ msg_Reasoning (ch_Message choice) = ""
    /\ msg_ToolCalls (ch_Message choice)
       = map (fun tc =>
                {| otc_ID := otc_ID tc; otc_Type := "function";
                   otc_Function :=
                     {| ofc_Name := ofc_Name (otc_Function tc);
                        ofc_Arguments :=
                          json_Marshal (parseArgs (ofc_Arguments (otc_Function tc))) |};
                   otc_ThoughtSignature := otc_ThoughtSignature tc |})
             (m_ToolCalls msg)
    /\ ch_FinishReason choice
       = Some (match m_ToolCalls msg with [] => "stop" | _ => "tool_calls" end).
Proof.
  intros Hrole Hids Hturn.
  assert (Hparts : c_Parts (cand_Content cand0) = assistantParts msg).
  { unfold convertMessages in Hturn. cbn [fold_left] in Hturn.
    unfold convertMessage in Hturn. rewrite Hrole in Hturn. cbn in Hturn.
    destruct (assistantParts msg) as [|p ps]; [done|]. cbn in Hturn.
    by injection Hturn as <-. }
  unfold ConvertToOpenAIResponse. cbn [resp_Candidates lookup list_lookup].
  rewrite Hparts. unfold assistantParts. rewrite fold_left_app.
  rewrite (convertParts_toolCalls _ _ Hids).
  eexists _, _. split; [reflexivity|]. split; [reflexivity|].
  cbn [ch_Message ch_FinishReason msg_Content msg_Reasoning msg_ToolCalls
       acc_toolCalls acc_content acc_thinking acc_imageURLs].
  destruct (getTextContent (m_Content msg)) as [|x text] eqn:Et;
    cbn [nonempty_string fold_left convertPart p_Thought p_Text acc_toolCalls acc_content
         acc_thinking acc_imageURLs app length Nat.eqb negb].
  - split_and!; try done. by destruct (m_ToolCalls msg).
  - unfold convertPart.
    cbn [nonempty_string fold_left p_Thought p_Text acc_toolCalls acc_content
         acc_thinking acc_imageURLs app length Nat.eqb negb].
    split_and!; try done. by destruct (m_ToolCalls msg).
Qed.

End AnswerFacts.

(** X9, on a run: an assistant message with a text and one tool call. *)
Lemma assistant_round_trip_witness :
  let RT := Sample.runtime in
  let msg := Sample.withToolCalls (Sample.message "assistant" "let me look")
               [Sample.toolCall "c1" "get_weather"] in
  let turn := {| c_Role := "model"; c_Parts := assistantParts msg |} in
  let cand := {| cand_Content := turn; cand_FinishReason := "STOP"; cand_Index := 0 |} in
  exists completion choice,
    ConvertToOpenAIResponse 0
      {| resp_Candidates := [cand]; resp_UsageMetadata := None |} "m" = Some completion
    /\ cc_Choices completion = [choice]
    /\ msg_Content (ch_Message choice) = "let me look"
    /\ msg_Reasoning (ch_Message choice) = ""
    /\ map otc_ID (msg_ToolCalls (ch_Message choice)) = ["c1"]
    /\ ch_FinishReason choice = Some "tool_calls".
Proof.
  intros RT msg turn cand.
  destruct (assistant_round_trip (RT := RT) msg 0 "m" cand [] None eq_refl)
    as (completion & choice & H1 & H2 & H3 & H4 & H5 & H6).
  - apply Forall_singleton. discriminate.
  - reflexivity.
  - exists completion, choice. split_and!; try done. by rewrite H5.
Defined.

(** ** The request sent upstream *)

Section RequestFacts.
Context `{MT : ModelTable} `{RT : Runtime}.
#[local] Arguments append _ _ : simpl nomatch.

Lemma append_empty (a b : string) : a +:+ b = "" -> a = "" /\ b = "".
Proof. destruct a; simpl; [done|discriminate]. Qed.

Lemma concat_empty_iff (sep : string) (l : list string) :
  sep <> "" -> String.concat sep l = "" <-> l = [] \/ l = [""].
Proof.
  intros Hsep. split.
  - destruct l as [|x [|y l]]; simpl; [by left| |].
    + intros ->. by right.
    + intros H. apply append_empty in H as [_ H].
      apply append_empty in H as [H _]. done.
  - by intros [->| ->].
Qed.

(** X10. The request has no system instruction exactly when the messages
    have no system message, or have a single one whose text is empty;
    otherwise its system instruction is one text part with the texts of
    the system messages, in their order, joined by blank lines. *)
Theorem system_instruction_presence (k : nat) (req : OpenAIChatRequest) (account : Account) :
  let texts := map (fun msg => getTextContent (m_Content msg))
                   (filter (fun msg => m_Role msg = "system") (Messages req)) in
  let si := ir_SystemInstruction (Request (ConvertOpenAIToAntigravity k req account)) in
  (si = None <-> texts = [] \/ texts = [""])
  /\ (forall s, si = Some s ->
        map p_Text (si_Parts s) = [Join texts (String "010" (String "010" ""))]).
Proof.
  intros texts si.
  assert (Htexts : extractSystemInstruction (Messages req)
                   = Join texts (String "010" (String "010" ""))).
  { unfold extractSystemInstruction, texts. do 2 f_equal.
    induction (Messages req) as [|m l IH]; [done|].
    destruct (String.eqb_spec (m_Role m) "system") as [E|E].
    - rewrite !filter_cons_True by (done || by apply String.eqb_eq). by rewrite IH.
    - rewrite !filter_cons_False; [done|done|].
      intros H. apply E. by apply String.eqb_eq. }
  subst si. cbn [ConvertOpenAIToAntigravity Request ir_SystemInstruction].
  rewrite Htexts. unfold Join.
  pose proof (concat_empty_iff (String "010" (String "010" "")) texts) as Hiff.
  destruct (String.concat _ texts) as [|x s] eqn:E; cbn [nonempty_string].
  - split; [|done]. split; [intros _|done]. by apply Hiff.
  - split; [|by intros s' [= <-]]. split; [done|]. intros H. by apply Hiff in H.
Qed.

(** X11. The generation config of the request: one candidate, and the
    default stop sequences followed by the ones of the client. For a
    Claude model the output limit is the one of the model table and the
    temperature, top-p and max_tokens of the client are not sent; for
    another model the temperature and top-p of the client are sent as
    they are, and max_tokens when it is positive. *)
Theorem generation_config (k : nat) (req : OpenAIChatRequest) (account : Account) :
  let modelName := ResolveModelName (req_Model req) in
  exists gc,
    ir_GenerationConfig (Request (ConvertOpenAIToAntigravity k req account)) = Some gc
    /\ CandidateCount gc = 1%Z
    /\ StopSequences gc = DefaultStopSequences ++ Stop req
    /\ (IsClaudeModel modelName = true ->
        MaxOutputTokens gc = GetClaudeMaxOutputTokens modelName
        /\ Temperature gc = None /\ TopP gc = None)
    /\ (IsClaudeModel modelName = false ->
        Temperature gc = req_Temperature req /\ TopP gc = req_TopP req
        /\ ((0 < MaxTokens req)%Z -> MaxOutputTokens gc = MaxTokens req)
        /\ ((MaxTokens req <= 0)%Z -> MaxOutputTokens gc = 0%Z)).
Proof.
  intros modelName. eexists. split; [reflexivity|].
  unfold buildGenerationConfig. fold modelName.
  assert (Hstop : (if negb (length (Stop req) =? 0)
                   then DefaultStopSequences ++ Stop req else DefaultStopSequences)
                  = DefaultStopSequences ++ Stop req).
  { destruct (Stop req); simpl; [by rewrite app_nil_r|done]. }
  destruct (IsClaudeModel modelName);
    cbn [CandidateCount StopSequences MaxOutputTokens Temperature TopP];
    rewrite Hstop; split_and!; try done.
  intros _. split_and!; try done.
  - intros H. by rewrite (proj2 (Z.gtb_lt _ _) H).
  - intros H. destruct (Z.gtb_spec (MaxTokens req) 0); [lia|done].
Qed.

(** X12. The tools of the request: one tool per tool of the client, in
    order, each with a single declaration that has the name and the
    description of the client's function; its parameters are the client's
    without the key $schema. A tool config, with the mode AUTO, is sent
    exactly when the client gives at least one tool. *)
Theorem tools_of_request (k : nat) (req : OpenAIChatRequest) (account : Account) :
  let inner := Request (ConvertOpenAIToAntigravity k req account) in
  Forall2 (fun tool t =>
             exists fd, FunctionDeclarations tool = [fd]
               /\ fd_Name fd = of_Name (ot_Function t)
               /\ fd_Description fd = of_Description (ot_Function t)
               /\ fd_Parameters fd !! "$schema" = None
               /\ forall key, key <> "$schema" ->
                    fd_Parameters fd !! key = of_Parameters (ot_Function t) !! key)
          (ir_Tools inner) (Tools req)
  /\ (Tools req = [] -> ir_ToolConfig inner = None)
  /\ (Tools req <> [] ->
      exists tc fcc, ir_ToolConfig inner = Some tc
        /\ tc_FunctionCallingConfig tc = Some fcc
        /\ Mode fcc = "AUTO" /\ AllowedFunctionNames fcc = []).
Proof.
  intros inner. subst inner. cbn [ConvertOpenAIToAntigravity Request ir_Tools ir_ToolConfig].
  split_and!.
  - destruct (Tools req) as [|t0 ts] eqn:E; [constructor|].
    cbn [length Nat.eqb negb]. unfold convertTools. generalize (t0 :: ts). intros l.
    induction l as [|t l IH]; [constructor|]. cbn [map]. constructor; [|done].
    eexists. split; [reflexivity|]. cbn [fd_Name fd_Description fd_Parameters].
    split_and!; try done.
    + apply lookup_delete_eq.
    + intros key Hkey. by apply lookup_delete_ne.
  - by intros ->.
  - intros Hne. destruct (Tools req); [done|]. cbn [length Nat.eqb negb].
    by eexists _, _.
Qed.

End RequestFacts.

(** ** Nothing is lost of a valid stream *)

Section ConservationFacts.
Import utf8.
#[local] Arguments append _ _ : simpl nomatch.

Lemma bytes_append (a b : string) : bytes (a +:+ b) = bytes a ++ bytes b.
Proof.
  unfold bytes. induction a as [|x a IH]; [done|].
  change (list_byte_of_string (String x a +:+ b))
    with (byte_of_ascii x :: list_byte_of_string (a +:+ b)).
  by rewrite IH.
Qed.

Lemma bytes_of_list (v : list byte) : bytes (string_of_list_byte v) = v.
Proof. apply list_byte_of_string_of_list_byte. Qed.

Lemma contentBytes_app (a b : list Event) :
  contentBytes (a ++ b) = contentBytes a ++ contentBytes b.
Proof. unfold contentBytes. by rewrite contentDeltas_app, concat_empty_app, bytes_append. Qed.

Lemma reasoningBytes_app (a b : list Event) :
  reasoningBytes (a ++ b) = reasoningBytes a ++ reasoningBytes b.
Proof.
  unfold reasoningBytes. by rewrite reasoningDeltas_app, concat_empty_app, bytes_append.
Qed.

Lemma bytes_roleDue (sw : StreamWriter) :
  contentBytes (roleDue sw) = [] /\ reasoningBytes (roleDue sw) = [].
Proof. unfold roleDue. by destruct (sentRole sw). Qed.

Lemma bytes_content (sw : StreamWriter) (v : list byte) :
  contentBytes (chunkIf sw contentDelta (string_of_list_byte v)) = v
  /\ reasoningBytes (chunkIf sw contentDelta (string_of_list_byte v)) = [].
Proof.
  unfold contentBytes, reasoningBytes.
  destruct (deltas_content sw v) as [-> ->]. split; [|done].
  destruct v as [|b v]; [done|]. cbn [String.concat]. apply bytes_of_list.
Qed.

Lemma bytes_reasoning (sw : StreamWriter) (v : list byte) :
  reasoningBytes (chunkIf sw reasoningDelta (string_of_list_byte v)) = v
  /\ contentBytes (chunkIf sw reasoningDelta (string_of_list_byte v)) = [].
Proof.
  unfold contentBytes, reasoningBytes.
  destruct (deltas_reasoning sw v) as [-> ->]. split; [|done].
  destruct v as [|b v]; [done|]. cbn [String.concat]. apply bytes_of_list.
Qed.

Lemma buffers_kept (sw : StreamWriter) (op : Op) :
  match op with
  | OpRole | OpToolCalls _ | OpHeartbeat =>
      contentBuffer (exec sw op) = contentBuffer sw
      /\ reasoningBuffer (exec sw op) = reasoningBuffer sw
  | _ => True
  end.
Proof.
  destruct sw as [[wr g] id cr md sr cb rb].
  destruct op; try done;
    unfold exec, call, WriteRole, WriteToolCalls, WriteHeartbeat, writeRoleLocked, emit,
      WriteStreamData; simpl; destruct sr, g; done.
Qed.

(** json.Marshal leaves valid UTF-8 as it is. *)
Lemma json_String_valid_bounded (n : nat) (p : list byte) :
  length p <= n -> Valid p = true -> json_String p = p.
Proof.
  revert p. induction n as [|n IH]; intros p Hn Hv.
  { destruct p; [done|simpl in Hn; lia]. }
  destruct p as [|p0 r0]; [done|]. cbn [Valid json_String] in *. simpl in Hn.
  destruct (u8 p0 <? RuneSelf)%Z.
  { rewrite IH; [done|lia|done]. }
  destruct (first p0) as [[[size lo] hi]|]; [|done].
  destruct r0 as [|c1 r1]; [done|]. simpl in Hn.
  destruct (outside lo hi c1); [done|].
  destruct (size =? 2).
  { rewrite IH; [done|lia|done]. }
  destruct r1 as [|c2 r2]; [done|]. simpl in Hn.
  destruct (outside locb hicb c2); [done|].
  destruct (size =? 3).
  { rewrite IH; [done|lia|done]. }
  destruct r2 as [|c3 r3]; [done|]. simpl in Hn.
  destruct (outside locb hicb c3); [done|].
  rewrite IH; [done|lia|done].
Qed.

Lemma json_String_valid (p : list byte) : Valid p = true -> json_String p = p.
Proof. apply (json_String_valid_bounded (length p)). lia. Qed.

Lemma bytes_concat (l : list string) :
  bytes (String.concat "" l) = concat (map bytes l).
Proof.
  induction l as [|s l IH]; [done|].
  rewrite concat_empty_cons, bytes_append, IH. done.
Qed.

(** Deltas that are valid UTF-8 are read as they were written. *)
Lemma read_valid (deltas : list string) :
  Forall (fun s => ValidString s = true) deltas ->
  concat (map (fun s => json_String (bytes s)) deltas) = bytes (String.concat "" deltas).
Proof.
  intros Hall. rewrite bytes_concat. f_equal. apply map_ext_Forall.
  eapply Forall_impl; [exact Hall|]. intros s Hs. by apply json_String_valid.
Qed.

Lemma valid_delta (v : list byte) :
  Valid v = true ->
  Forall (fun s => ValidString s = true)
         (match v with [] => [] | _ => [string_of_list_byte v] end).
Proof.
  intros Hv. destruct v as [|b v]; [constructor|].
  apply Forall_singleton. unfold ValidString.
  by rewrite list_byte_of_string_of_list_byte.
Qed.

(** What a steady call writes on each channel, and what it leaves in the
    buffers, when the bytes fed so far go on to valid UTF-8; every delta
    that it writes is valid UTF-8. *)
Lemma steady_step (sw : StreamWriter) (op : Op) (restc restr : list byte) :
  gone (sw_w sw) = false ->
  steady op ->
  Valid (contentBuffer sw ++ fedContent [op] ++ restc) = true ->
  Valid (reasoningBuffer sw ++ fedReasoning [op] ++ restr) = true ->
  contentBytes (emits sw op) ++ contentBuffer (exec sw op)
  = contentBuffer sw ++ fedContent [op]
  /\ reasoningBytes (emits sw op) ++ reasoningBuffer (exec sw op)
     = reasoningBuffer sw ++ fedReasoning [op]
  /\ Valid (contentBytes (emits sw op)) = true
  /\ Valid (reasoningBytes (emits sw op)) = true
  /\ Forall (fun s => ValidString s = true) (contentDeltas (emits sw op))
  /\ Forall (fun s => ValidString s = true) (reasoningDeltas (emits sw op)).
Proof.
  intros Hg Hs Hc Hr. destruct (fed_single op) as [Fc Fr]. rewrite Fc, Fr in *.
  destruct (bytes_roleDue sw) as [Rc Rr]. destruct (deltas_roleDue sw) as [Dc Dr].
  destruct op as [|s|s|tcs| | |]; try done; cbn [emits];
    rewrite ?contentBytes_app, ?reasoningBytes_app, ?Rc, ?Rr,
            ?contentDeltas_app, ?reasoningDeltas_app, ?Dc, ?Dr, ?app_nil_r; cbn [app].
  - destruct (buffers_kept sw OpRole) as [-> ->]. done.
  - rewrite app_assoc in Hc.
    destruct (extractValidUTF8_prefix_of_valid _ _ Hc) as (v & t & Hx & Hd & (_ & Hv & _) & _).
    rewrite (WriteContent_healthy sw s _ _ Hg Hx). cbn [contentBuffer reasoningBuffer].
    rewrite Hx. cbn [fst].
    destruct (bytes_content sw v) as [-> ->].
    destruct (deltas_content sw v) as [-> ->]. rewrite <- Hd.
    split_and!; try done. by apply valid_delta.
  - rewrite app_assoc in Hr.
    destruct (extractValidUTF8_prefix_of_valid _ _ Hr) as (v & t & Hx & Hd & (_ & Hv & _) & _).
    rewrite (WriteReasoning_healthy sw s _ _ Hg Hx). cbn [contentBuffer reasoningBuffer].
    rewrite Hx. cbn [fst].
    destruct (bytes_reasoning sw v) as [-> ->].
    destruct (deltas_reasoning sw v) as [-> ->]. rewrite <- Hd.
    split_and!; try done. by apply valid_delta.
  - destruct (buffers_kept sw (OpToolCalls tcs)) as [-> ->]. split_and!; done.
  - destruct (buffers_kept sw OpHeartbeat) as [-> ->]. split_and!; done.
Qed.

Lemma steady_run (sw0 : StreamWriter) (ops : list Op) (restc restr : list byte) :
  gone (sw_w sw0) = false ->
  contentBuffer sw0 = [] -> reasoningBuffer sw0 = [] ->
  Forall steady ops ->
  Valid (fedContent ops ++ restc) = true ->
  Valid (fedReasoning ops ++ restr) = true ->
  gone (sw_w (execs sw0 ops)) = false
  /\ exists es,
       wire (sw_w (execs sw0 ops)) = wire (sw_w sw0) ++ es
       /\ Valid (contentBytes es) = true /\ Valid (reasoningBytes es) = true
       /\ contentBytes es ++ contentBuffer (execs sw0 ops) = fedContent ops
       /\ reasoningBytes es ++ reasoningBuffer (execs sw0 ops) = fedReasoning ops
       /\ Forall (fun s => ValidString s = true) (contentDeltas es)
       /\ Forall (fun s => ValidString s = true) (reasoningDeltas es).
Proof.
  intros Hg Hcb Hrb. revert restc restr.
  induction ops as [|op ops IH] using rev_ind; intros restc restr Hs Hc Hr.
  - split; [done|]. exists []. unfold execs. cbn [fold_left].
    rewrite app_nil_r, Hcb, Hrb. split_and!; try done; constructor.
  - apply Forall_app in Hs as [Hs Hop]. rewrite Forall_singleton in Hop.
    rewrite fedContent_app, <- app_assoc in Hc. rewrite fedReasoning_app, <- app_assoc in Hr.
    destruct (IH _ _ Hs Hc Hr) as (Hg' & es & Hw & Hvc & Hvr & Ec & Er & Dc & Dr).
    rewrite execs_snoc. set (sw := execs sw0 ops) in *.
    rewrite <- Ec, <- app_assoc, (Valid_app _ _ Hvc) in Hc.
    rewrite <- Er, <- app_assoc, (Valid_app _ _ Hvr) in Hr.
    destruct (steady_step sw op restc restr Hg' Hop Hc Hr) as (Sc & Sr & Vc & Vr & Dc' & Dr').
    destruct (exec_healthy sw op Hg') as (Hw' & Hg'' & _).
    split; [done|]. exists (es ++ emits sw op).
    rewrite Hw', Hw, <- app_assoc, contentBytes_app, reasoningBytes_app.
    rewrite !(Valid_app _ _ Hvc), !(Valid_app _ _ Hvr), <- !app_assoc, Sc, Sr.
    rewrite fedContent_app, fedReasoning_app, <- Ec, <- Er, <- !app_assoc.
    rewrite contentDeltas_app, reasoningDeltas_app.
    split_and!; try done; by apply Forall_app.
Qed.

(** X13. Nothing is lost of a stream that is valid UTF-8. Texts are fed
    to a writer on a fresh sink by any calls but Flush and WriteFinish,
    cut anywhere, and what is fed to each channel is valid UTF-8 or the
    beginning of valid UTF-8. Then at any time every delta written is
    valid UTF-8, so that a client reads it as it was handed to
    json.Marshal, and the bytes read on a channel, followed by the bytes
    in its buffer, are the bytes fed to it. When what has been fed to a
    channel is valid UTF-8 as it stands, the bytes read on that channel
    after WriteFinish are all the bytes fed to it. *)
Theorem stream_conserved (id : string) (created : Z) (model : string) (ops : list Op)
    (restc restr : list byte) (reason : string) (usage : option Usage) :
  Forall steady ops ->
  Valid (fedContent ops ++ restc) = true ->
  Valid (fedReasoning ops ++ restr) = true ->
  let sw := execs (NewStreamWriter freshSink id created model) ops in
  let sw' := exec sw (OpFinish reason usage) in
  contentBytes (wire (sw_w sw)) ++ contentBuffer sw = fedContent ops
  /\ reasoningBytes (wire (sw_w sw)) ++ reasoningBuffer sw = fedReasoning ops
  /\ Forall (fun s => ValidString s = true) (contentDeltas (wire (sw_w sw)))
  /\ Forall (fun s => ValidString s = true) (reasoningDeltas (wire (sw_w sw)))
  /\ contentRead (wire (sw_w sw)) ++ contentBuffer sw = fedContent ops
  /\ reasoningRead (wire (sw_w sw)) ++ reasoningBuffer sw = fedReasoning ops
  /\ (Valid (fedContent ops) = true -> contentRead (wire (sw_w sw')) = fedContent ops)
  /\ (Valid (fedReasoning ops) = true ->
      reasoningRead (wire (sw_w sw')) = fedReasoning ops).
Proof.
  intros Hs Hc Hr sw sw'.
  destruct (steady_run (NewStreamWriter freshSink id created model) ops restc restr
              eq_refl eq_refl eq_refl Hs Hc Hr)
    as (Hg & es & Hw & Vc & Vr & Ec & Er & Dc & Dr).
  fold sw in Hg, Hw, Ec, Er. cbn [NewStreamWriter sw_w freshSink wire app] in Hw.
  rewrite Hw.
  destruct (WriteFinish_flushes sw reason usage Hg) as (Hw' & _).
  subst sw'. rewrite Hw', Hw. unfold contentRead, reasoningRead.
  rewrite !contentDeltas_app, !reasoningDeltas_app.
  destruct (deltas_content sw (contentBuffer sw)) as [-> ->].
  destruct (deltas_reasoning sw (reasoningBuffer sw)) as [-> ->].
  change (contentDeltas [chunkOf sw Delta0 (Some reason) usage; EvDone]) with (@nil string).
  change (reasoningDeltas [chunkOf sw Delta0 (Some reason) usage; EvDone])
    with (@nil string).
  rewrite !app_nil_r. cbn [app].
  rewrite (read_valid _ Dc), (read_valid _ Dr).
  fold (contentBytes es). fold (reasoningBytes es).
  split_and!; try done.
  - intros Hv. rewrite <- Ec, (Valid_app _ _ Vc) in Hv.
    rewrite read_valid by (apply Forall_app; split; [done|by apply valid_delta]).
    rewrite bytes_concat, map_app, concat_app, <- bytes_concat. fold (contentBytes es).
    rewrite <- Ec. f_equal.
    destruct (contentBuffer sw) as [|b l]; [done|].
    cbn [map concat]. by rewrite app_nil_r, bytes_of_list.
  - intros Hv. rewrite <- Er, (Valid_app _ _ Vr) in Hv.
    rewrite read_valid by (apply Forall_app; split; [done|by apply valid_delta]).
    rewrite bytes_concat, map_app, concat_app, <- bytes_concat. fold (reasoningBytes es).
    rewrite <- Er. f_equal.
    destruct (reasoningBuffer sw) as [|b l]; [done|].
    cbn [map concat]. by rewrite app_nil_r, bytes_of_list.
Qed.

End ConservationFacts.

(** X13, on a run: a three-byte character cut after its first byte, with
    a heartbeat in between. *)
Lemma stream_conserved_witness :
  let ops := [ OpContent (string_of_list_byte [Byte.x68; Byte.xe4]); OpHeartbeat;
               OpContent (string_of_list_byte [Byte.xbd; Byte.xa0]) ] in
  let sw := execs (NewStreamWriter freshSink "chatcmpl-0" 0 "m") ops in
  let sw' := exec sw (OpFinish "stop" None) in
  contentRead (wire (sw_w sw)) ++ contentBuffer sw = fedContent ops
  /\ reasoningRead (wire (sw_w sw)) ++ reasoningBuffer sw = fedReasoning ops
  /\ contentRead (wire (sw_w sw')) = fedContent ops
  /\ reasoningRead (wire (sw_w sw')) = fedReasoning ops.
Proof.
  intros ops.
  destruct (stream_conserved "chatcmpl-0" 0 "m" ops [] [] "stop" None)
    as (_ & _ & _ & _ & Hc & Hr & Hc' & Hr');
    [repeat constructor|reflexivity|reflexivity|].
  split; [exact Hc|]. split; [exact Hr|]. split; [apply Hc'|apply Hr']; reflexivity.
Defined.

(** A feed that stops inside a character: the bytes of the character that
    have come are in the buffer until WriteFinish, which hands them to
    json.Marshal as they are, and the client reads U+FFFD for each of
    them. *)
Example stream_cut_short :
  let ops := [ OpContent (string_of_list_byte [Byte.x68; Byte.xe4; Byte.xbd]) ] in
  let sw := execs (NewStreamWriter freshSink "chatcmpl-0" 0 "m") ops in
  let sw' := exec sw (OpFinish "stop" None) in
  contentRead (wire (sw_w sw)) = [Byte.x68]
  /\ contentBuffer sw = [Byte.xe4; Byte.xbd]
  /\ contentRead (wire (sw_w sw')) = [Byte.x68] ++ utf8.RuneError ++ utf8.RuneError.
Proof. intros ops. split_and!; vm_compute; reflexivity. Qed.

(** ** The two revisions of the writer *)

Section RevisionFacts.
Import utf8.

Lemma extractValidUTF8_valid (data : list byte) :
  Valid data = true -> extractValidUTF8 data = (string_of_list_byte data, []).
Proof.
  intros Hv. unfold extractValidUTF8. destruct data as [|b data]; [done|].
  cbn [length Nat.eqb]. by rewrite Hv.
Qed.

Lemma extractValidUTF8_whole (s : string) :
  ValidString s = true -> extractValidUTF8 (bytes s) = (s, []).
Proof.
  intros Hv. unfold bytes. rewrite (extractValidUTF8_valid _ Hv).
  by rewrite string_of_list_byte_of_string.
Qed.

Lemma paired_step (sw : StreamWriter) (usw : Unbuffered.StreamWriter) (op : Op) :
  whole op -> paired sw usw -> paired (exec sw op) (Unbuffered.exec usw op).
Proof.
  intros Hop (Hw & Hid & Hcr & Hmd & Hsr & Hcb & Hrb).
  destruct sw as [[wr g] id cr md sr cb rb], usw as [uw uid ucr umd usr].
  cbn in Hw, Hid, Hcr, Hmd, Hsr, Hcb, Hrb. subst uw uid ucr umd usr cb rb.
  destruct op as [|s|s|tcs| |reason usage|]; try done.
  - unfold exec, Unbuffered.exec, call, Unbuffered.call, WriteRole, Unbuffered.WriteRole,
      writeRoleLocked, emit, Unbuffered.emit, WriteStreamData; simpl.
    destruct sr, g; done.
  - destruct Hop as [Hne Hv].
    unfold exec, Unbuffered.exec, call, Unbuffered.call, WriteContent,
      Unbuffered.WriteContent, Unbuffered.WriteRole, writeRoleLocked.
    destruct sr, g; cbn -[extractValidUTF8 list_byte_of_string];
      fold (bytes s); rewrite (extractValidUTF8_whole s Hv);
      destruct s as [|x s]; done.
  - destruct Hop as [Hne Hv].
    unfold exec, Unbuffered.exec, call, Unbuffered.call, WriteReasoning,
      Unbuffered.WriteReasoning, Unbuffered.WriteRole, writeRoleLocked.
    destruct sr, g; cbn -[extractValidUTF8 list_byte_of_string];
      fold (bytes s); rewrite (extractValidUTF8_whole s Hv);
      destruct s as [|x s]; done.
  - unfold exec, Unbuffered.exec, call, Unbuffered.call, WriteToolCalls,
      Unbuffered.WriteToolCalls, Unbuffered.WriteRole,
      writeRoleLocked, emit, Unbuffered.emit, WriteStreamData; simpl.
    destruct sr, g; done.
  - unfold exec, Unbuffered.exec, call, Unbuffered.call, WriteFinish,
      Unbuffered.WriteFinish, flushLocked, flushContent, flushReasoning,
      emit, Unbuffered.emit, WriteStreamDone, WriteStreamData; simpl.
    destruct g; done.
  - unfold exec, Unbuffered.exec, call, Unbuffered.call, WriteHeartbeat,
      Unbuffered.WriteHeartbeat, Unbuffered.WriteRole,
      writeRoleLocked, emit, Unbuffered.emit, WriteStreamData; simpl.
    destruct sr, g; done.
Qed.

(** X14. The writer with the UTF-8 buffers writes what the writer of the
    earlier revision writes, event for event, as long as every text
    handed to WriteContent and WriteReasoning is not empty and is valid
    UTF-8 on its own; this holds on any sink, also one that is gone. *)
Theorem revisions_agree (w : ResponseWriter) (id : string) (created : Z) (model : string)
    (ops : list Op) :
  Forall whole ops ->
  sw_w (execs (NewStreamWriter w id created model) ops)
  = Unbuffered.sw_w (Unbuffered.execs (Unbuffered.NewStreamWriter w id created model) ops).
Proof.
  intros Hall.
  assert (H : paired (execs (NewStreamWriter w id created model) ops)
                     (Unbuffered.execs (Unbuffered.NewStreamWriter w id created model) ops)).
  { unfold execs, Unbuffered.execs.
    assert (H0 : paired (NewStreamWriter w id created model)
                        (Unbuffered.NewStreamWriter w id created model)) by done.
    revert H0. generalize (NewStreamWriter w id created model).
    generalize (Unbuffered.NewStreamWriter w id created model).
    induction Hall as [|op ops Hop _ IH]; intros usw sw H0; [done|].
    cbn [fold_left]. apply IH. by apply paired_step. }
  by destruct H.
Qed.

End RevisionFacts.

(** X14, on a run. *)
Lemma revisions_agree_witness :
  let ops := [OpContent "hello"; OpReasoning "hm"; OpHeartbeat; OpFinish "stop" None] in
  sw_w (execs (NewStreamWriter freshSink "chatcmpl-0" 0 "m") ops)
  = Unbuffered.sw_w
      (Unbuffered.execs (Unbuffered.NewStreamWriter freshSink "chatcmpl-0" 0 "m") ops).
Proof.
  intros ops. apply (revisions_agree freshSink "chatcmpl-0" 0 "m" ops).
  repeat constructor; done.
Defined.

(** The two revisions differ on an empty text: the earlier one writes an
    empty content delta, the later one nothing but the role. *)
Example revisions_differ_on_empty_text :
  map kind (wire (sw_w (execs (NewStreamWriter freshSink "chatcmpl-0" 0 "m")
                          [OpContent ""])))
  = [KRole]
  /\ length (wire (Unbuffered.sw_w
                     (Unbuffered.execs
                        (Unbuffered.NewStreamWriter freshSink "chatcmpl-0" 0 "m")
                        [OpContent ""]))) = 2.
Proof. by vm_compute. Qed.

(** ** extractValidUTF8 on any bytes *)

Section ExtractMore.
Import utf8.

Lemma prefix_snoc_inv {A} (v l : list A) (x : A) :
  v `prefix_of` l ++ [x] -> v = l ++ [x] \/ v `prefix_of` l.
Proof.
  intros [k Hk]. destruct k as [|y k] using rev_ind.
  - left. by rewrite app_nil_r in Hk.
  - right. rewrite app_assoc in Hk. apply app_inj_tail in Hk as [-> _]. by exists k.
Qed.

Lemma scanTail_Some (data : list byte) (checkLen n idx : nat) :
  checkLen <= 4 ->
  scanTail data checkLen n = Some idx ->
  idx < length data /\ length data - idx <= 3.
Proof.
  intros Hc. induction n as [|n IH]; [done|]. cbn [scanTail].
  destruct (data !! (length data - (checkLen - n))) as [b|] eqn:Eb; [|done].
  apply lookup_lt_Some in Eb.
  destruct (0xC0 <=? u8 b)%Z.
  - destruct (Nat.ltb_spec (length data - (length data - (checkLen - n)))
                (if (0xF0 <=? u8 b)%Z then 4 else if (0xE0 <=? u8 b)%Z then 3 else 2))
      as [Hlt|]; [|done].
    intros [= <-]. split; [done|].
    destruct (0xF0 <=? u8 b)%Z; [lia|]. destruct (0xE0 <=? u8 b)%Z; lia.
  - destruct ((0x80 <=? u8 b)%Z && (u8 b <? 0xC0)%Z); [done|done].
Qed.

Lemma stripTail_spec (rdata rem : list byte) :
  (exists v, v <> [] /\ longestValidPrefix v (rev rdata)
             /\ stripTail rdata rem = (string_of_list_byte v, []))
  \/ ((forall v', v' `prefix_of` rev rdata -> v' <> [] -> Valid v' = false)
      /\ stripTail rdata rem = ("", rev rdata ++ rem)).
Proof.
  revert rem. induction rdata as [|b rdata IH]; intros rem.
  - right. split; [|done]. intros v' Hp Hne. apply prefix_nil_inv in Hp. done.
  - cbn [stripTail]. destruct (Valid (rev (b :: rdata))) eqn:Ev.
    + left. exists (rev (b :: rdata)). split; [simpl; by destruct (rev rdata)|].
      split; [|done]. split; [done|]. split; [done|].
      intros v' Hp _. by apply prefix_length.
    + cbn [rev] in *. destruct (IH (b :: rem)) as [(v & Hne & (Hp & Hv & Hmax) & Hs)|[Hall Hs]].
      * left. exists v. split; [done|]. split; [|done].
        split; [by apply prefix_app_r|]. split; [done|].
        intros v' Hp' Hv'. apply prefix_snoc_inv in Hp' as [->|Hp'].
        -- congruence.
        -- by apply Hmax.
      * right. split; [|by rewrite Hs, <- app_assoc].
        intros v' Hp' Hne. apply prefix_snoc_inv in Hp' as [->|Hp']; [done|].
        by apply Hall.
Qed.

(** X15. extractValidUTF8 on any bytes. The text it returns is a
    beginning of the data. Either the text and the bytes it keeps are
    together the data, or it keeps nothing and the text is the longest
    valid beginning of the data, which is not empty. It keeps more than 3
    bytes only when it returns no text and keeps all the data, no
    beginning of which is valid. *)
Theorem extractValidUTF8_shape (data : list byte) :
  exists v t,
    extractValidUTF8 data = (string_of_list_byte v, t)
    /\ v `prefix_of` data
    /\ (data = v ++ t \/ (t = [] /\ v <> [] /\ longestValidPrefix v data))
    /\ (length t <= 3
        \/ (v = [] /\ t = data
            /\ forall v', v' `prefix_of` data -> v' <> [] -> Valid v' = false)).
Proof.
  unfold extractValidUTF8. destruct data as [|b0 data'] eqn:Ed.
  { exists [], []. cbn. split_and!; try done. by left. left. lia. }
  rewrite <- Ed. assert (Hlen : (length data =? 0) = false) by (by rewrite Ed).
  rewrite Hlen. clear Hlen.
  destruct (Valid data) eqn:Ev.
  { exists data, []. rewrite app_nil_r. split_and!; try done. by left. left. simpl. lia. }
  set (checkLen := if length data <? 4 then length data else 4).
  assert (Hc : checkLen <= 4).
  { unfold checkLen. destruct (Nat.ltb_spec (length data) 4); lia. }
  destruct (scanTail data checkLen checkLen) as [idx|] eqn:Es.
  - destruct (scanTail_Some _ _ _ _ Hc Es) as [Hi Hl].
    exists (take idx data), (drop idx data). split_and!; try done.
    + apply prefix_take.
    + left. by rewrite take_drop.
    + left. rewrite length_drop. lia.
  - destruct (stripTail_spec (rev data) []) as [(v & Hne & Hlv & Hs)|[Hall Hs]];
      rewrite rev_involutive in *; rewrite Hs.
    + exists v, []. split_and!; try done.
      * by destruct Hlv.
      * by right.
      * left. simpl. lia.
    + exists [], data. rewrite app_nil_r. split_and!; try done.
      * apply prefix_nil.
      * by left.
      * by right.
Qed.

End ExtractMore.

(** ** More on the relay of the upstream stream *)

Section StreamMore.
Context `{RT : Runtime} `{SC : StreamCodec}.

Lemma spokenChunks_app (a b : list StreamChunk) :
  spokenChunks (a ++ b) = spokenChunks a ++ spokenChunks b.
Proof. unfold spokenChunks. apply filter_app. Qed.

Lemma spoken_type (p : StreamPart) (c : StreamChunk) :
  spoken p = Some c -> sk_Type c = "thinking" \/ sk_Type c = "text".
Proof.
  unfold spoken. destruct (sp_Thought p); [intros [= <-]; by left|].
  destruct (nonempty_string (sp_Text p)); [intros [= <-]; by right|done].
Qed.

Lemma spokenChunks_spoken (parts : list StreamPart) :
  spokenChunks (omap spoken parts) = omap spoken parts.
Proof.
  unfold spokenChunks. induction parts as [|p parts IH]; [done|]. cbn [omap list_omap].
  destruct (spoken p) as [c|] eqn:E; [|done].
  rewrite filter_cons_True by (by apply (spoken_type p)). by rewrite IH.
Qed.

Lemma processData_out (data : StreamData) (st : LoopState) :
  spokenChunks (ls_out (processData st data))
  = spokenChunks (ls_out st) ++ omap spoken (partsOf data)
  /\ ls_usage (processData st data)
     = match sd_UsageMetadata data with Some u => Some u | None => ls_usage st end.
Proof.
  unfold processData, partsOf.
  destruct (sd_Candidates data) as [|candidate rest].
  - rewrite app_nil_r. by destruct (sd_UsageMetadata data).
  - set (st1 := match sd_UsageMetadata data with Some u => _ | None => st end).
    assert (E1 : ls_out st1 = ls_out st
                 /\ ls_usage st1 = match sd_UsageMetadata data with
                                   | Some u => Some u | None => ls_usage st end).
    { subst st1. by destruct (sd_UsageMetadata data). }
    destruct E1 as [Eo Eu].
    destruct (processParts_out (scand_Parts candidate) st1) as [Ho Hu].
    destruct (nonempty_string (scand_FinishReason candidate) && _);
      cbn [ls_out ls_usage]; rewrite Ho, Hu, Eo, Eu, ?spokenChunks_app, spokenChunks_spoken;
      by rewrite ?app_nil_r.
Qed.

Lemma last_Some_app {A} (l : list A) (x : A) (l' : list A) :
  last (l ++ x :: l') = last (x :: l').
Proof. induction l as [|y [|z l] IH]; done. Qed.

Lemma events_out (datas : list StreamData) (st : LoopState) :
  spokenChunks (ls_out (fold_left processData datas st))
  = spokenChunks (ls_out st) ++ omap spoken (concat (map partsOf datas))
  /\ ls_usage (fold_left processData datas st)
     = match lastUsage datas with Some u => Some u | None => ls_usage st end.
Proof.
  revert st. induction datas as [|d datas IH]; intros st.
  - by rewrite app_nil_r.
  - cbn [fold_left map concat]. destruct (IH (processData st d)) as [-> ->].
    destruct (processData_out d st) as [-> ->].
    rewrite omap_app, <- app_assoc. split; [done|].
    unfold lastUsage. cbn [omap list_omap].
    destruct (sd_UsageMetadata d) as [u|]; [|done].
    destruct (omap sd_UsageMetadata datas) as [|u' us] eqn:E; [done|].
    change (last (u :: u' :: us)) with (last (u' :: us)).
    destruct (last (u' :: us)) eqn:El; [done|]. by apply last_None in El.
Qed.

(** X16. The thinking and text chunks handed to the callback are the
    thoughts and the non-empty texts of the parts of the events, one
    chunk per part and in their order, whether the stream ends by the
    sentinel, by the end of the input or by a read error; and the usage
    returned is the one reported last by an event, with or without
    candidates. *)
Theorem stream_texts_and_usage (k : nat) (resp : Response) :
  readable resp ->
  let events := payloads (body_lines resp) in
  spokenChunks (ProcessStreamResponse k resp).1.1
  = omap spoken (concat (map partsOf events))
  /\ (ProcessStreamResponse k resp).1.2 = lastUsage events.
Proof.
  intros Hr events. rewrite (ProcessStreamResponse_form k resp Hr). cbn zeta.
  fold events.
  set (st0 := {| ls_usage := None; ls_toolCalls := []; ls_drawn := k; ls_out := [] |}).
  destruct (events_out events st0) as [Ho Hu]. cbn [ls_out ls_usage app] in Ho, Hu.
  assert (Hu' : ls_usage (fold_left processData events st0) = lastUsage events).
  { rewrite Hu. by destruct (lastUsage events). }
  assert (Hf : forall out,
             spokenChunks (flushEnd (fold_left processData events st0) out)
             = spokenChunks out).
  { intros out. unfold flushEnd. destruct (negb _); [|done].
    rewrite spokenChunks_app. unfold spokenChunks at 2.
    rewrite filter_cons_False by (by intros [?|?]). by rewrite app_nil_r. }
  destruct (hasSentinel (body_lines resp)).
  - cbn [fst snd]. rewrite Hf, spokenChunks_app, Ho. split; [|done].
    assert (Hd : spokenChunks [doneChunk] = []).
    { unfold spokenChunks. by rewrite filter_cons_False by (by intros [?|?]). }
    by rewrite Hd, app_nil_r.
  - destruct (body_end resp); cbn [fst snd]; rewrite ?Hf, Ho; done.
Qed.

(** X17. Nothing is read after the sentinel: the lines that follow the
    line [data: [DONE]], and the way the reads end after it, change
    nothing of what is handed over and returned. *)
Theorem sentinel_ends_the_stream (k : nat) (resp : Response) (l1 l2 : list string)
    (line : string) (fin : ReadEnd) :
  classify line = Sentinel ->
  ProcessStreamResponse k
    {| ContentEncoding := ContentEncoding resp; gzip_NewReader := gzip_NewReader resp;
       body_lines := l1 ++ line :: l2; body_end := fin |}
  = ProcessStreamResponse k
      {| ContentEncoding := ContentEncoding resp; gzip_NewReader := gzip_NewReader resp;
         body_lines := l1 ++ [line]; body_end := EOF |}.
Proof.
  intros Hs. unfold ProcessStreamResponse. cbn [ContentEncoding gzip_NewReader body_lines body_end].
  destruct (if String.eqb (ContentEncoding resp) "gzip" then gzip_NewReader resp else None);
    [done|].
  assert (H : forall st, readLoop (l1 ++ line :: l2) fin st = readLoop (l1 ++ [line]) EOF st).
  { induction l1 as [|l l1 IH]; intros st; cbn [app readLoop].
    - by rewrite Hs.
    - destruct (classify l); [apply IH|done|apply IH]. }
  by rewrite H.
Qed.

Lemma list_ascii_append (a b : string) :
  list_ascii_of_string (a +:+ b) = list_ascii_of_string a ++ list_ascii_of_string b.
Proof. induction a as [|x a IH]; [done|]. cbn. by rewrite <- IH. Qed.

Lemma TrimSuffixChar_snoc (s : string) (c : ascii) :
  TrimSuffixChar (s +:+ String c "") c = s.
Proof.
  unfold TrimSuffixChar. rewrite list_ascii_append. cbn [list_ascii_of_string].
  rewrite rev_app_distr. cbn [rev app]. rewrite Ascii.eqb_refl, rev_involutive.
  apply string_of_list_ascii_of_string.
Qed.

Lemma TrimSuffixChar_other (s : string) (c : ascii) :
  (forall s', s <> s' +:+ String c "") -> TrimSuffixChar s c = s.
Proof.
  intros Hne. unfold TrimSuffixChar.
  destruct (rev (list_ascii_of_string s)) as [|d r] eqn:E; [done|].
  destruct (Ascii.eqb_spec d c) as [->|]; [|done].
  exfalso. apply (Hne (string_of_list_ascii (rev r))).
  rewrite <- (string_of_list_ascii_of_string s), <- (rev_involutive (list_ascii_of_string s)), E.
  cbn [rev]. rewrite <- (list_ascii_of_string_of_list_ascii (rev r)) at 1.
  change [c] with (list_ascii_of_string (String c "")).
  by rewrite <- list_ascii_append, string_of_list_ascii_of_string.
Qed.

(** X18. The two line endings are read alike: a line that ends with a
    carriage return and a line feed is taken for what the same line
    ending with a line feed alone is taken for, as long as the text
    before the ending does not itself end with a carriage return. *)
Theorem line_endings_alike (text : string) :
  (forall s', text <> s' +:+ CR) ->
  classify (text +:+ CR +:+ LF) = classify (text +:+ LF).
Proof.
  intros Hne. unfold classify, CR, LF in *.
  rewrite <- (append_assoc text), !TrimSuffixChar_snoc.
  by rewrite (TrimSuffixChar_other text "013" Hne).
Qed.

End StreamMore.

(** X16, on a run: one text event and the sentinel. *)
Lemma stream_texts_and_usage_witness :
  let RT := Sample.runtime in
  let SC := Fixtures.codec in
  let resp := Fixtures.stream [Fixtures.dataLine Fixtures.payloadText;
                               Fixtures.dataLine "[DONE]"] EOF in
  spokenChunks (ProcessStreamResponse 0 resp).1.1
  = omap spoken (concat (map partsOf (payloads (body_lines resp))))
  /\ (ProcessStreamResponse 0 resp).1.2 = lastUsage (payloads (body_lines resp)).
Proof.
  intros RT SC resp.
  apply (stream_texts_and_usage (RT := RT) (SC := SC) 0 resp). reflexivity.
Defined.

(** X17, on a run: a text event after the sentinel is not read. *)
Lemma sentinel_ends_the_stream_witness :
  let RT := Sample.runtime in
  let SC := Fixtures.codec in
  ProcessStreamResponse 0
    (Fixtures.stream [Fixtures.dataLine "[DONE]"; Fixtures.dataLine Fixtures.payloadText]
       (ReadError "unexpected EOF"))
  = ProcessStreamResponse 0 (Fixtures.stream [Fixtures.dataLine "[DONE]"] EOF).
Proof.
  intros RT SC.
  apply (sentinel_ends_the_stream (RT := RT) (SC := SC) 0 (Fixtures.stream [] EOF) []
           [Fixtures.dataLine Fixtures.payloadText] (Fixtures.dataLine "[DONE]")
           (ReadError "unexpected EOF")).
  reflexivity.
Defined.

(** X18, on a run: the sentinel with either line ending. *)
Lemma line_endings_alike_witness :
  let SC := Fixtures.codec in
  classify ("data: [DONE]" +:+ CR +:+ LF) = classify ("data: [DONE]" +:+ LF).
Proof.
  intros SC. apply (line_endings_alike (SC := SC) "data: [DONE]").
  intros s' H. apply (f_equal (fun s => rev (list_ascii_of_string s))) in H.
  rewrite list_ascii_append, rev_app_distr in H. discriminate H.
Defined.

(** ** The stream handler *)

Section StreamHandlerFacts.
Context `{MT : ModelTable} `{RT : Runtime} `{SC : StreamCodec}.

Lemma running_chunk (sw : StreamWriter) (d : Delta) : running (chunkOf sw d None None).
Proof.
  unfold running, kind, chunkOf, CreateStreamChunk. cbn.
  destruct (nonempty_string (d_Role d)); [done|].
  destruct (nonempty_string (d_Content d)); [done|].
  destruct (nonempty_string (d_Reasoning d)); [done|].
  by destruct (negb _).
Qed.

Lemma running_roleDue (sw : StreamWriter) : Forall running (roleDue sw).
Proof.
  unfold roleDue. destruct (sentRole sw); [constructor|].
  apply Forall_singleton, running_chunk.
Qed.

Lemma running_chunkIf (sw : StreamWriter) (d : string -> Delta) (s : string) :
  Forall running (chunkIf sw d s).
Proof.
  unfold chunkIf. destruct (nonempty_string s); [|constructor].
  apply Forall_singleton, running_chunk.
Qed.

Lemma running_flushed (sw : StreamWriter) : Forall running (flushed sw).
Proof. unfold flushed. apply Forall_app. split; apply running_chunkIf. Qed.

Lemma running_emits (sw : StreamWriter) (op : Op) :
  match op with OpFinish _ _ => True | _ => Forall running (emits sw op) end.
Proof.
  destruct op; try done; cbn [emits];
    try (apply Forall_app; split);
    auto using running_roleDue, running_chunkIf, running_flushed.
  - apply Forall_singleton, running_chunk.
  - apply Forall_singleton, running_chunk.
Qed.

Lemma last_cons_default {A} (x : A) (l : list A) :
  last (x :: l) = Some (default x (last l)).
Proof.
  revert x. induction l as [|y l IH]; intros x; [done|].
  change (last (x :: y :: l)) with (last (y :: l)). by rewrite IH.
Qed.

(** The callback of handleStreamRequest over the chunks handed to it. *)
Lemma relay_run (chunks : list StreamChunk) (sw : StreamWriter)
    (toolCalls : list OpenAIToolCall) :
  gone (sw_w sw) = false ->
  let r := fold_left relayChunk chunks (sw, toolCalls) in
  gone (sw_w r.1) = false
  /\ sw_id r.1 = sw_id sw /\ sw_created r.1 = sw_created sw /\ sw_model r.1 = sw_model sw
  /\ (exists es, wire (sw_w r.1) = wire (sw_w sw) ++ es /\ Forall running es)
  /\ r.2 = default toolCalls (last (toolCallChunks chunks)).
Proof.
  revert sw toolCalls. induction chunks as [|c chunks IH]; intros sw toolCalls Hg; cbn zeta.
  - split_and!; try done. exists []. by rewrite app_nil_r.
  - cbn [fold_left].
    assert (Hstep : forall op, match op with OpFinish _ _ => False | _ => True end ->
              forall tcs,
              let r := fold_left relayChunk chunks (exec sw op, tcs) in
              gone (sw_w r.1) = false
              /\ sw_id r.1 = sw_id sw /\ sw_created r.1 = sw_created sw
              /\ sw_model r.1 = sw_model sw
              /\ (exists es, wire (sw_w r.1) = wire (sw_w sw) ++ es /\ Forall running es)
              /\ r.2 = default tcs (last (toolCallChunks chunks))).
    { intros op Hop tcs. cbn zeta.
      destruct (exec_healthy sw op Hg) as (Hw & Hg' & _ & Hid & Hcr & Hmd).
      destruct (IH (exec sw op) tcs Hg') as (Hg'' & -> & -> & -> & (es & Hes & Hrun) & Htc).
      split_and!; try done.
      exists (emits sw op ++ es). rewrite Hes, Hw, <- app_assoc. split; [done|].
      apply Forall_app. split; [|done].
      pose proof (running_emits sw op) as H. by destruct op. }
    change (relayChunk (sw, toolCalls) c)
      with (if String.eqb (sk_Type c) "thinking"
            then (exec sw (OpReasoning (sk_Content c)), toolCalls)
            else if String.eqb (sk_Type c) "text"
            then (exec sw (OpContent (sk_Content c)), toolCalls)
            else if String.eqb (sk_Type c) "tool_calls"
            then (exec sw (OpToolCalls (sk_ToolCalls c)), sk_ToolCalls c)
            else (sw, toolCalls)).
    unfold toolCallChunks.
    destruct (String.eqb_spec (sk_Type c) "thinking") as [E1|E1].
    { rewrite filter_cons_False by (by rewrite E1). by apply Hstep. }
    destruct (String.eqb_spec (sk_Type c) "text") as [E2|E2].
    { rewrite filter_cons_False by (by rewrite E2). by apply Hstep. }
    destruct (String.eqb_spec (sk_Type c) "tool_calls") as [E3|E3].
    { rewrite filter_cons_True by done. cbn [map]. rewrite last_cons_default. cbn [default].
      by apply Hstep. }
    rewrite filter_cons_False by done. by apply IH.
Qed.

(** No tool_calls chunk that ProcessStreamResponse hands over is empty. *)
Lemma toolCallChunks_nonempty (k : nat) (resp : Response) :
  Forall (fun tcs => tcs <> []) (toolCallChunks (ProcessStreamResponse k resp).1.1).
Proof.
  destruct (if String.eqb (ContentEncoding resp) "gzip" then gzip_NewReader resp else None)
    as [err|] eqn:Er.
  { unfold ProcessStreamResponse. rewrite Er. constructor. }
  rewrite (ProcessStreamResponse_form k resp Er). cbn zeta.
  set (st0 := {| ls_usage := None; ls_toolCalls := []; ls_drawn := k; ls_out := [] |}).
  destruct (events_conserve (payloads (body_lines resp)) st0) as (_ & more & Ho & _ & Hne).
  cbn [ls_out app] in Ho. fold st0. rewrite Ho.
  assert (Hf : forall out, Forall (fun tcs => tcs <> []) (toolCallChunks out) ->
             Forall (fun tcs => tcs <> [])
               (toolCallChunks (flushEnd (fold_left processData
                                            (payloads (body_lines resp)) st0) out))).
  { intros out Hout. rewrite toolCallChunks_flushEnd. apply Forall_app. split; [done|].
    destruct (ls_toolCalls _); [constructor|]. by apply Forall_singleton. }
  destruct (hasSentinel (body_lines resp)); cbn [fst].
  - apply Hf. rewrite toolCallChunks_app. apply Forall_app. split; [done|]. constructor.
  - destruct (body_end resp); cbn [fst]; [by apply Hf|done].
Qed.

(** X19. The stream handler always closes the stream it has opened. On a
    sink that takes the writes, whatever the upstream sends and however
    its stream ends, an unreadable body and a read error included, what
    the relay writes ends with one finish event and the end marker, and
    nothing before them is a finish event, an end marker or an error.
    The finish reason is tool_calls when a tool_calls chunk has been
    relayed and stop otherwise, and the finish event carries the usage
    reported last. *)
Theorem relayStream_finishes (w : ResponseWriter) (model : string) (resp : Response) :
  gone w = false ->
  let chunks := (ProcessStreamResponse 3 resp).1.1 in
  let usage := (ProcessStreamResponse 3 resp).1.2 in
  let reason := match toolCallChunks chunks with [] => "stop" | _ => "tool_calls" end in
  exists es,
    wire (relayStream w model resp)
    = wire w ++ es
      ++ [finishEvent (GenerateChatCompletionID 2) time_Now_Unix model reason
            (ConvertUsage usage); EvDone]
    /\ Forall running es.
Proof.
  intros Hg. cbn zeta. unfold relayStream.
  pose proof (toolCallChunks_nonempty 3 resp) as Hne.
  destruct (ProcessStreamResponse 3 resp) as [[chunks' usage] err] eqn:Ep.
  cbn [fst snd] in *.
  set (sw0 := NewStreamWriter w (GenerateChatCompletionID 2) time_Now_Unix model).
  pose proof (relay_run chunks' sw0 [] Hg) as Hrun. cbn zeta in Hrun.
  destruct (fold_left relayChunk chunks' (sw0, [])) as [sw1 toolCalls].
  cbn [fst snd] in Hrun.
  destruct Hrun as (Hg1 & Hid & Hcr & Hmd & (es & Hes & Hrun) & Htc).
  destruct (exec_healthy sw1 (OpFinish
              (if negb (length toolCalls =? 0) then "tool_calls" else "stop")
              (ConvertUsage usage)) Hg1) as (Hw & _).
  rewrite Hw, Hes. cbn [emits sw0 NewStreamWriter sw_w].
  exists (es ++ flushed sw1). rewrite <- !app_assoc. split.
  - do 3 f_equal. unfold chunkOf, finishEvent. rewrite Hid, Hcr, Hmd. cbn.
    do 4 f_equal. rewrite Htc.
    destruct (toolCallChunks chunks') as [|tcs l] using rev_ind; [done|].
    rewrite last_snoc. cbn [default]. apply Forall_app in Hne as [_ Hne].
    rewrite Forall_singleton in Hne. destruct tcs; [done|]. by destruct l.
  - apply Forall_app. split; [done|]. apply running_flushed.
Qed.

End StreamHandlerFacts.

(** X19, on a run: a stream that breaks off with a read error after a
    function call. *)
Lemma relayStream_finishes_witness :
  let MT := Sample.models in
  let RT := Sample.runtime in
  let SC := Fixtures.codec in
  let resp := Fixtures.stream [Fixtures.dataLine Fixtures.payloadText;
                               Fixtures.dataLine Fixtures.payloadWeather]
                (ReadError "unexpected EOF") in
  exists es,
    wire (relayStream freshSink "m" resp)
    = es ++ [finishEvent (GenerateChatCompletionID 2) time_Now_Unix "m" "stop" None; EvDone]
    /\ Forall running es.
Proof.
  intros MT RT SC resp.
  apply (relayStream_finishes (RT := RT) (SC := SC) freshSink "m" resp). reflexivity.
Defined.

(** ** The masks of the admin pages *)

Section MaskFacts.
Import Admin.
#[local] Arguments append _ _ : simpl nomatch.

Lemma length_append (a b : string) :
  String.length (a +:+ b) = String.length a + String.length b.
Proof. induction a as [|x a IH]; cbn; [done|by rewrite IH]. Qed.

Lemma substring_prefix (a x : string) : substring 0 (String.length a) (a +:+ x) = a.
Proof.
  induction a as [|c a IH]; cbn.
  - by destruct x.
  - by rewrite IH.
Qed.

Lemma substring_suffix (p b : string) :
  substring (String.length p) (String.length b) (p +:+ b) = b.
Proof.
  induction p as [|c p IH]; cbn; [|done].
  rewrite <- (append_nil_right b) at 2. apply substring_prefix.
Qed.

(** X20. maskString shows at most the first 4 and the last 4 bytes of a
    secret: a secret of 1 to 8 bytes is shown as four stars, and of a
    longer one nothing between its first 4 and its last 4 bytes is
    shown, nor how long it is. *)
Theorem maskString_hides (s : string) :
  (s <> "" -> String.length s <= 8 -> maskString s = "****")
  /\ (forall a m b,
        s = a +:+ m +:+ b -> String.length a = 4 -> String.length b = 4 -> m <> "" ->
        maskString s = a +:+ "****" +:+ b).
Proof.
  unfold maskString. split.
  - intros Hne Hlen. destruct s; [done|]. cbn [nonempty_string negb].
    by destruct (Nat.leb_spec (String.length (String a s)) 8); [|lia].
  - intros a m b -> Ha Hb Hm.
    assert (Hlen : String.length (a +:+ m +:+ b) = 8 + String.length m).
    { rewrite !length_append. lia. }
    assert (Hm' : 0 < String.length m) by (destruct m; [done|cbn; lia]).
    assert (Hn : nonempty_string (a +:+ m +:+ b) = true).
    { destruct (a +:+ m +:+ b) eqn:E; [cbn in Hlen; lia|done]. }
    rewrite Hn. cbn [negb].
    destruct (Nat.leb_spec (String.length (a +:+ m +:+ b)) 8); [lia|].
    f_equal; [|f_equal].
    + rewrite <- Ha. apply substring_prefix.
    + rewrite <- (append_assoc a m b).
      replace (String.length ((a +:+ m) +:+ b) - 4) with (String.length (a +:+ m))
        by (rewrite !length_append; lia).
      rewrite <- Hb. apply substring_suffix.
Qed.

Lemma SplitChar_nonempty (s : string) (c : ascii) : SplitChar s c <> [].
Proof.
  induction s as [|a s IH]; cbn; [done|].
  destruct (Ascii.eqb a c); [done|]. by destruct (SplitChar s c).
Qed.

Lemma SplitChar_one (s : string) (c : ascii) :
  length (SplitChar s c) = 1 <-> ContainsChar s c = false.
Proof.
  induction s as [|a s IH]; cbn; [done|].
  destruct (Ascii.eqb a c); cbn.
  - pose proof (SplitChar_nonempty s c). split; [|done].
    destruct (SplitChar s c); [done|discriminate].
  - rewrite <- IH. pose proof (SplitChar_nonempty s c).
    by destruct (SplitChar s c).
Qed.

Lemma SplitChar_whole (s : string) (c : ascii) :
  ContainsChar s c = false -> SplitChar s c = [s].
Proof.
  induction s as [|a s IH]; cbn; [done|].
  destruct (Ascii.eqb a c); [done|]. cbn. intros H. by rewrite (IH H).
Qed.

Lemma SplitChar_join (u d : string) (c : ascii) :
  ContainsChar u c = false -> ContainsChar d c = false ->
  SplitChar (u +:+ String c d) c = [u; d].
Proof.
  intros Hu Hd. induction u as [|a u IH]; cbn.
  - by rewrite Ascii.eqb_refl, (SplitChar_whole d c Hd).
  - cbn in Hu. destruct (Ascii.eqb a c); [done|]. cbn in Hu. by rewrite (IH Hu).
Qed.

Lemma SplitChar_two (s : string) (c : ascii) :
  length (SplitChar s c) = 2 ->
  exists u d, s = u +:+ String c d /\ ContainsChar u c = false /\ ContainsChar d c = false.
Proof.
  induction s as [|a s IH]; cbn; [done|].
  destruct (Ascii.eqb_spec a c) as [->|Hne]; cbn.
  - intros [= H]. apply SplitChar_one in H. by exists "", s.
  - intros H. destruct (SplitChar s c) as [|h r] eqn:E; [done|].
    destruct (IH H) as (u & d & -> & Hu & Hd). exists (String a u), d.
    split_and!; try done. cbn. apply Ascii.eqb_neq in Hne. by rewrite Hne.
Qed.

Lemma firstRune_None (s : string) : firstRune s = None <-> s = "".
Proof.
  unfold firstRune. destruct s as [|a s]; [done|].
  change (list_byte_of_string (String a s)) with (byte_of_ascii a :: list_byte_of_string s).
  cbn iota.
  destruct (runeWidth (byte_of_ascii a :: list_byte_of_string s) =? 0); split; done.
Qed.

(** X21. maskEmail panics on exactly the addresses that have one [@]
    with nothing before it or nothing after it; on every other text it
    returns a mask. *)
Theorem maskEmail_panics (email : string) :
  maskEmail email = None <->
  exists u d, email = u +:+ "@" +:+ d
              /\ ContainsChar u "@" = false /\ ContainsChar d "@" = false
              /\ (u = "" \/ d = "").
Proof.
  unfold maskEmail. split.
  - destruct email as [|a email']; [done|]. cbn [nonempty_string negb].
    set (email := String a email').
    destruct (Nat.eqb_spec (length (SplitChar email "@")) 2) as [H2|H2]; cbn [negb].
    + destruct (SplitChar_two email "@" H2) as (u & d & E & Hu & Hd).
      rewrite E, (SplitChar_join u d "@" Hu Hd). cbn [lookup list_lookup].
      intros H. exists u, d. split_and!; try done.
      destruct (firstRune u) eqn:Eu; [|left; by apply firstRune_None].
      destruct (firstRune d) eqn:Ed; [done|right; by apply firstRune_None].
    + destruct (String.length email <=? 1); [done|].
      destruct (firstRune email) eqn:E; [done|]. by apply firstRune_None in E.
  - intros (u & d & -> & Hu & Hd & Hemp).
    change (u +:+ "@" +:+ d) with (u +:+ String "@" d).
    rewrite (SplitChar_join u d "@" Hu Hd).
    destruct (u +:+ String "@" d) eqn:E; [by destruct u|]. cbn.
    destruct Hemp as [-> | ->]; [done|]. by destruct (firstRune u).
Qed.

(** X22. Of an address with one [@], a name and a domain that begin with
    ASCII characters, maskEmail shows these two characters and the [@],
    and nothing else of the name and of the domain. *)
Theorem maskEmail_address (a b : ascii) (name domain : string) :
  (utf8.u8 (byte_of_ascii a) < 0x80)%Z -> (utf8.u8 (byte_of_ascii b) < 0x80)%Z ->
  ContainsChar (String a name) "@" = false ->
  ContainsChar (String b domain) "@" = false ->
  maskEmail (String a name +:+ "@" +:+ String b domain)
  = Some (String a "****@" +:+ String b "****").
Proof.
  intros Ha Hb Hu Hd. unfold maskEmail.
  change (String a name +:+ "@" +:+ String b domain)
    with (String a name +:+ String "@" (String b domain)).
  rewrite (SplitChar_join _ _ "@" Hu Hd). cbn [append nonempty_string negb length Nat.eqb
    lookup list_lookup].
  assert (Hf : forall c rest, (utf8.u8 (byte_of_ascii c) < 0x80)%Z ->
                 firstRune (String c rest) = Some (String c "")).
  { intros c rest Hc. unfold firstRune.
    change (list_byte_of_string (String c rest))
      with (byte_of_ascii c :: list_byte_of_string rest). cbn [runeWidth].
    unfold utf8.RuneSelf. destruct (Z.ltb_spec (utf8.u8 (byte_of_ascii c)) 128); [|lia].
    cbn. by rewrite ascii_of_byte_of_ascii. }
  by rewrite (Hf a name Ha), (Hf b domain Hb).
Qed.

End MaskFacts.

(** X20, on a run. *)
Lemma maskString_hides_witness :
  Admin.maskString "sk-1234567890abcd" = "sk-1****abcd"
  /\ Admin.maskString "12345678" = "****".
Proof.
  split.
  - apply (proj2 (maskString_hides "sk-1234567890abcd") "sk-1" "234567890" "abcd");
      reflexivity || discriminate.
  - apply (proj1 (maskString_hides "12345678")); [discriminate|cbn; lia].
Defined.

(** X21, on a run: an address without a name. *)
Lemma maskEmail_panics_witness : Admin.maskEmail "@example.com" = None.
Proof.
  apply (proj2 (maskEmail_panics "@example.com")).
  exists "", "example.com". split_and!; try reflexivity. by left.
Defined.

(** X22, on a run. *)
Lemma maskEmail_address_witness :
  Admin.maskEmail "dev@example.com" = Some "d****@e****".
Proof.
  apply (maskEmail_address "d" "e" "ev" "xample.com"); reflexivity.
Defined.

(** ** The endpoints page *)

Section EndpointFacts.
Import Admin.

Lemma endpointSteps (mode : string) (l : list (string * Endpoint))
    (endpoints : list (gmap string JSON)) (current : option (gmap string JSON)) :
  fold_left (endpointStep mode) l (endpoints, current)
  = (endpoints ++ map (fun e => endpointItem e.1 e.2) l,
     match last (filter (fun e =>
                   String.eqb e.1 mode
                   || (String.eqb mode "round-robin" && String.eqb e.1 "daily")
                   || (String.eqb mode "round-robin-dp" && String.eqb e.1 "daily") = true) l)
     with
     | Some e => Some (endpointItem e.1 e.2)
     | None => current
     end).
Proof.
  revert endpoints current. induction l as [|[key ep] l IH]; intros endpoints current.
  - by rewrite app_nil_r.
  - cbn [fold_left endpointStep map]. rewrite IH, <- app_assoc. f_equal.
    cbn [fst snd].
    destruct (String.eqb key mode
              || (String.eqb mode "round-robin" && String.eqb key "daily")
              || (String.eqb mode "round-robin-dp" && String.eqb key "daily")) eqn:E.
    + rewrite filter_cons_True by done. rewrite last_cons.
      by destruct (last (filter _ l)).
    + rewrite filter_cons_False by (cbn; by rewrite E). done.
Qed.

Lemma filter_key_unique (mode : string) (l : list (string * Endpoint)) :
  NoDup (map fst l) ->
  length (filter (fun e => String.eqb e.1 mode = true) l) <= 1.
Proof.
  induction l as [|[key ep] l IH]; intros Hnd; [cbn; lia|].
  cbn [map fst] in Hnd. apply NoDup_cons in Hnd as [Hnin Hnd].
  destruct (String.eqb_spec key mode) as [->|Hne].
  - rewrite filter_cons_True by (by apply String.eqb_eq).
    assert (Hnone : filter (fun e : string * Endpoint => String.eqb e.1 mode = true) l = []).
    { clear IH Hnd. induction l as [|[k e] l IHl]; [done|].
      cbn [map fst] in Hnin. apply not_elem_of_cons in Hnin as [Hk Hnin].
      rewrite filter_cons_False; [by apply IHl|]. cbn. intros H%String.eqb_eq. by subst. }
    rewrite Hnone. cbn. lia.
  - rewrite filter_cons_False; [by apply IH|]. cbn. by intros H%String.eqb_eq.
Qed.

(** X23. Go leaves open the order in which the handler goes through the
    map of endpoints. The endpoint that HandleGetEndpoints reports as
    current does not depend on that order, and neither does the mode; the
    list of endpoints holds the same items in the order of the visit. *)
Theorem current_endpoint_order (l l' : list (string * Endpoint)) (mode : string) :
  NoDup (map fst l) -> l ≡ₚ l' ->
  (HandleGetEndpoints l mode).1.2 = (HandleGetEndpoints l' mode).1.2
  /\ (HandleGetEndpoints l mode).2 = (HandleGetEndpoints l' mode).2
  /\ (HandleGetEndpoints l mode).1.1 ≡ₚ (HandleGetEndpoints l' mode).1.1.
Proof.
  intros Hnd Hp. unfold HandleGetEndpoints. rewrite !endpointSteps. cbn [fst snd app].
  split_and!; [|done|by rewrite Hp].
  destruct (String.eqb_spec mode "round-robin") as [->|H1]; [done|].
  destruct (String.eqb_spec mode "round-robin-dp") as [->|H2]; [done|].
  cbn [orb andb].
  assert (Hf : forall x : list (string * Endpoint),
            filter (fun e => String.eqb e.1 mode || false || false = true) x
            = filter (fun e => String.eqb e.1 mode = true) x).
  { intros x. apply list_filter_iff. intros e. by rewrite !orb_false_r. }
  rewrite !Hf.
  pose proof (filter_key_unique mode l Hnd) as Hlen.
  assert (Hp' : filter (fun e : string * Endpoint => String.eqb e.1 mode = true) l
                ≡ₚ filter (fun e : string * Endpoint => String.eqb e.1 mode = true) l')
    by (by rewrite Hp).
  destruct (filter (fun e : string * Endpoint => String.eqb e.1 mode = true) l)
    as [|e [|e2 r]]; [| |cbn in Hlen; lia].
  - apply Permutation_nil_l in Hp'. by rewrite <- Hp'.
  - symmetry in Hp'. apply Permutation_singleton_r in Hp'. by rewrite Hp'.
Qed.

End EndpointFacts.

(** X23, on a run: two visits of the same endpoints. *)
Lemma current_endpoint_order_witness :
  let daily := {| Admin.ep_Label := "Daily"; Admin.ep_Host := "daily.example.com" |} in
  let prod := {| Admin.ep_Label := "Production"; Admin.ep_Host := "prod.example.com" |} in
  let l := [("daily", daily); ("production", prod)] in
  let l' := [("production", prod); ("daily", daily)] in
  (Admin.HandleGetEndpoints l "daily").1.2 = (Admin.HandleGetEndpoints l' "daily").1.2
  /\ (Admin.HandleGetEndpoints l "daily").2 = (Admin.HandleGetEndpoints l' "daily").2
  /\ (Admin.HandleGetEndpoints l "daily").1.1 ≡ₚ (Admin.HandleGetEndpoints l' "daily").1.1.
Proof.
  intros daily prod l l'. apply (current_endpoint_order l l' "daily").
  - cbn [map fst]. apply NoDup_cons. split.
    + intros H. apply list_elem_of_singleton in H. discriminate H.
    + apply NoDup_singleton.
  - apply Permutation_swap.
Defined.

(** ** More on the bypass relay *)

Section BypassMore.
Context `{RT : Runtime}.

Lemma run_inv (P : Bypass -> Prop) (model : string)
    (result : AntigravityResponse + GoError) :
  (forall l s s', P s -> fire model result l s = Some s' -> P s') ->
  forall schedule s s', P s -> run model result schedule s = Some s' -> P s'.
Proof.
  intros Hstep schedule. induction schedule as [|l schedule IH]; intros s s' Hs Hrun.
  - cbn in Hrun. by injection Hrun as <-.
  - cbn [run] in Hrun. destruct (fire model result l s) as [s1|] eqn:E; [|done].
    apply (IH s1 s'); [|done]. by apply (Hstep l s).
Qed.

Lemma WriteHeartbeat_gone (sw : StreamWriter) :
  gone (sw_w sw) = true ->
  exists sw' err, WriteHeartbeat sw = (sw', Some err)
                  /\ gone (sw_w sw') = true /\ wire (sw_w sw') = wire (sw_w sw).
Proof.
  intros Hg. destruct sw as [[wr g] id cr md sr cb rb]. cbn in Hg. subst g.
  unfold WriteHeartbeat, writeRoleLocked, emit, WriteStreamData.
  destruct sr; cbn; by eexists _, _.
Qed.

Lemma deadInv_step (w : ResponseWriter) (model : string)
    (result : AntigravityResponse + GoError) (l : Label) (s s' : Bypass) :
  deadInv w s -> fire model result l s = Some s' -> deadInv w s'.
Proof.
  intros (Hg & Hw & Hhb & Hm) Hfire. unfold deadInv.
  destruct l; cbn [fire] in Hfire; rewrite ?Hhb in Hfire; try done.
  - unfold fireMain in Hfire. destruct Hm as [Hm|Hm]; rewrite Hm in Hfire; [|done].
    destruct (WriteHeartbeat_gone (b_sw s) Hg) as (sw' & err & E & Hg' & Hw').
    rewrite E in Hfire. injection Hfire as <-. cbn. rewrite Hw'. auto.
  - injection Hfire as <-. cbn. auto.
Qed.

(** X24. The client is gone before the handler starts: the first
    heartbeat fails and the handler returns at once. In every run
    nothing is written, the goroutine is never started, and the handler
    never comes to the upstream call. *)
Theorem bypass_dead_client (w : ResponseWriter) (model : string)
    (result : AntigravityResponse + GoError) (schedule : list Label) (s : Bypass) :
  gone w = true ->
  run model result schedule (bypassInit w model) = Some s ->
  wire (sw_w (b_sw s)) = wire w
  /\ b_hb s = NotStarted
  /\ (b_main s = AtFirstHeartbeat \/ b_main s = Returned)
  /\ (In Main schedule -> b_main s = Returned).
Proof.
  intros Hg Hrun.
  assert (Hinv : deadInv w s).
  { apply (run_inv (deadInv w) model result (deadInv_step w model result)
             schedule (bypassInit w model) s); [|done].
    unfold deadInv. cbn. auto. }
  destruct Hinv as (_ & Hw & Hhb & Hm). split_and!; try done.
  intros Hin.
  assert (Hgen : forall s0, deadInv w s0 ->
            run model result schedule s0 = Some s -> In Main schedule -> b_main s = Returned).
  { clear Hrun Hin. induction schedule as [|l schedule IH]; intros s0 Hs0 Hrun Hin; [done|].
    cbn [run] in Hrun. destruct (fire model result l s0) as [s1|] eqn:E; [|done].
    pose proof (deadInv_step w model result l s0 s1 Hs0 E) as Hs1.
    destruct Hin as [->|Hin]; [|by apply (IH s1)].
    assert (Hret : b_main s1 = Returned).
    { destruct Hs0 as (Hg0 & _ & _ & Hm0). cbn [fire] in E. unfold fireMain in E.
      destruct Hm0 as [Hm0|Hm0]; rewrite Hm0 in E; [|done].
      destruct (WriteHeartbeat_gone (b_sw s0) Hg0) as (sw' & err & Ehb & _).
      rewrite Ehb in E. by injection E as <-. }
    clear IH E Hs0. revert s1 Hs1 Hret Hrun.
    induction schedule as [|l' schedule IH']; intros s1 Hs1 Hret Hrun.
    - cbn in Hrun. by injection Hrun as <-.
    - cbn [run] in Hrun. destruct (fire model result l' s1) as [s2|] eqn:E2; [|done].
      apply (IH' s2); [by apply (deadInv_step w model result l' s1)| |done].
      destruct Hs1 as (_ & _ & Hhb1 & _).
      destruct l'; cbn [fire] in E2; rewrite ?Hhb1 in E2; try done.
      + unfold fireMain in E2. by rewrite Hret in E2.
      + by injection E2 as <-. }
  apply (Hgen (bypassInit w model)); [|done|done]. unfold deadInv. cbn. auto.
Qed.



End BypassMore.

(** X24, on a run: the sink is gone from the start. *)
Lemma bypass_dead_client_witness :
  let MT := Sample.models in
  let RT := Sample.runtime in
  let w := {| wire := []; gone := true |} in
  exists s,
    run "gemini-3-pro-high-bypass" (inl Fixtures.hello) [Main; ClientGone]
      (bypassInit w "gemini-3-pro-high-bypass") = Some s
    /\ wire (sw_w (b_sw s)) = [] /\ b_hb s = NotStarted /\ b_main s = Returned.
Proof.
  intros MT RT w.
  assert (E : { s | run "gemini-3-pro-high-bypass" (inl Fixtures.hello) [Main; ClientGone]
                      (bypassInit w "gemini-3-pro-high-bypass") = Some s })
    by (eexists; vm_compute; reflexivity).
  destruct E as [s E]. exists s. split; [exact E|].
  destruct (bypass_dead_client (RT := RT) w "gemini-3-pro-high-bypass"
              (inl Fixtures.hello) [Main; ClientGone] s eq_refl E) as (H1 & H2 & _ & H4).
  split; [exact H1|]. split; [exact H2|]. apply H4. left. reflexivity.
Defined.


Section BypassForm.
Context `{RT : Runtime}.

Lemma chunkOf_sameIds (sw sw0 : StreamWriter) (d : Delta) (f : option string)
    (u : option Usage) :
  sameIds sw sw0 -> chunkOf sw d f u = chunkOf sw0 d f u.
Proof. intros (Hi & Hc & Hm). unfold chunkOf. by rewrite Hi, Hc, Hm. Qed.

Lemma WriteHeartbeat_healthy (sw : StreamWriter) :
  gone (sw_w sw) = false -> WriteHeartbeat sw = (exec sw OpHeartbeat, None).
Proof.
  intros Hg. destruct sw as [[wr g] id cr md sr cb rb]. cbn in Hg. subst g.
  unfold exec, call, WriteHeartbeat, writeRoleLocked, emit, WriteStreamData.
  by destruct sr.
Qed.

Lemma burst_shape (model : string) (result : AntigravityResponse + GoError)
    (ops : list Op) :
  burst model result = Some ops -> endsWithFinish ops.
Proof.
  unfold burst, endsWithFinish. destruct result as [resp|err].
  - destruct (ConvertToOpenAIResponse 2 resp model) as [r|]; [|done].
    destruct (cc_Choices r) as [|choice rest].
    + intros [= <-]. exists [], "stop", None. split; [done|constructor].
    + intros [= <-]. eexists _, _, _. rewrite !app_assoc. split; [reflexivity|].
      repeat (apply Forall_app; split);
        repeat match goal with
               | |- context [if ?b then _ else _] => destruct b
               end; repeat constructor.
  - intros [= <-]. exists [OpContent ("Error: " +:+ err_Error err)], "stop", None.
    split; [done|]. by repeat constructor.
Qed.

Lemma running_heartbeat (e : Event) : heartbeat e -> running e.
Proof. unfold heartbeat, running. intros ->. done. Qed.

Lemma sameIds_exec (sw sw0 : StreamWriter) (op : Op) :
  sameIds sw sw0 -> sameIds (exec sw op) sw0.
Proof.
  intros (Hi & Hc & Hm). destruct (exec_ids sw op) as (Hi' & Hc' & Hm').
  unfold sameIds. by rewrite Hi', Hc', Hm'.
Qed.

Lemma formInv_step (sw0 : StreamWriter) (model : string)
    (result : AntigravityResponse + GoError) (l : Label) (s s' : Bypass) :
  l <> ClientGone ->
  formInv sw0 s -> fire model result l s = Some s' -> formInv sw0 s'.
Proof.
  intros Hl (Hg & Hids & Hm) Hfire. unfold formInv.
  destruct l; try done; cbn [fire] in Hfire.
  - (* the handler *)
    unfold fireMain in Hfire.
    destruct (b_main s) as [| | | |ops| |] eqn:Em; try done.
    + destruct Hm as (Hw & Hs & Hhb).
      rewrite (WriteHeartbeat_healthy _ Hg) in Hfire. injection Hfire as <-.
      destruct (exec_healthy (b_sw s) OpHeartbeat Hg) as (Hw' & Hg' & Hs' & _).
      cbn [b_sw b_main]. split; [done|]. split; [by apply sameIds_exec|].
      split; [done|]. rewrite Hw', Hw. cbn [emits app]. unfold roleDue. rewrite Hs. cbn [app].
      rewrite !(chunkOf_sameIds _ sw0 _ _ _ Hids).
      eexists. split; [reflexivity|]. by apply Forall_singleton.
    + injection Hfire as <-. cbn. done.
    + injection Hfire as <-. cbn. done.
    + injection Hfire as <-. cbn [b_sw b_main]. split; [done|]. split; [done|].
      destruct (burst model result) as [ops|] eqn:Eb; cbn [b_sw b_main]; [|done].
      pose proof (burst_shape _ _ _ Eb) as Hends.
      destruct ops as [|op ops]; [|by destruct Hm].
      destruct Hends as (pre & r & u & E & _). by destruct pre.
    + destruct ops as [|op ops].
      * injection Hfire as <-. cbn. done.
      * destruct Hm as (Hs & (mid & Hw & Hmid) & (pre & r & u & E & Hpre)).
        injection Hfire as <-. cbn [b_sw b_main].
        destruct (exec_healthy (b_sw s) op Hg) as (Hw' & Hg' & Hs' & _).
        split; [done|]. split; [by apply sameIds_exec|].
        destruct pre as [|op' pre].
        -- cbn in E. injection E as -> ->. cbn [roleAfter] in Hs'.
           split; [by rewrite Hs'|]. rewrite Hw', Hw. cbn [emits].
           rewrite (chunkOf_sameIds _ sw0 _ _ _ Hids).
           exists (mid ++ flushed (b_sw s)), r, u, [].
           rewrite <- ?app_assoc. cbn [app]. rewrite <- ?app_assoc, ?app_nil_r. split_and!; [done| |constructor].
           apply Forall_app. split; [done|]. apply running_flushed.
        -- cbn in E. injection E as <- ->. apply Forall_cons in Hpre as [Hop Hpre].
           assert (Hnext : sentRole (exec (b_sw s) op) = true
                           /\ openWire sw0 (wire (sw_w (exec (b_sw s) op)))).
           { split; [rewrite Hs'; destruct op; done|].
             rewrite Hw', Hw. exists (mid ++ emits (b_sw s) op). split; [done|].
             apply Forall_app. split; [done|].
             pose proof (running_emits (b_sw s) op) as H. by destruct op. }
           destruct Hnext as [Hs'' Ho].
           destruct (pre ++ [OpFinish r u]) as [|op2 ops2] eqn:E2; [by destruct pre|].
           split_and!; try done. exists pre, r, u. by rewrite E2.
  - (* the ticker *)
    destruct (b_hb s) eqn:Eh; try done; injection Hfire as <-; cbn [b_sw b_main b_hb];
      (split; [done|]); (split; [done|]);
      destruct (b_main s) as [| | | |ops| |]; try done; by destruct Hm as (_ & _ & ?).
  - destruct (b_hb s) eqn:Eh; try done. destruct (b_tick s); [|done].
    injection Hfire as <-. cbn [b_sw b_main b_hb]. split; [done|]. split; [done|].
    destruct (b_main s) as [| | | |ops| |]; try done. by destruct Hm as (_ & _ & ?).
  - destruct (b_hb s) eqn:Eh; try done. destruct (b_done s); [|done].
    injection Hfire as <-. cbn. split; [done|]. split; [done|].
    destruct (b_main s) as [| | | |ops| |]; try done. by destruct Hm as (_ & _ & ?).
  - destruct (b_hb s) eqn:Eh; try done. destruct (b_ctxDone s); [|done].
    injection Hfire as <-. cbn. split; [done|]. split; [done|].
    destruct (b_main s) as [| | | |ops| |]; try done. by destruct Hm as (_ & _ & ?).
  - (* the heartbeat of the goroutine *)
    destruct (b_hb s) eqn:Eh; try done.
    rewrite (WriteHeartbeat_healthy _ Hg) in Hfire. injection Hfire as <-.
    destruct (exec_healthy (b_sw s) OpHeartbeat Hg) as (Hw' & Hg' & Hs' & _).
    cbn [b_sw b_main]. split; [done|]. split; [by apply sameIds_exec|].
    assert (Hopen : sentRole (b_sw s) = true -> openWire sw0 (wire (sw_w (b_sw s))) ->
              openWire sw0 (wire (sw_w (exec (b_sw s) OpHeartbeat)))).
    { intros Hs (mid & Hw & Hmid). rewrite Hw', Hw. cbn [emits]. unfold roleDue.
      rewrite Hs. cbn [app].
      exists (mid ++ [chunkOf (b_sw s) Delta0 None None]). split; [done|].
      apply Forall_app. split; [done|]. apply Forall_singleton, running_chunk. }
    assert (Hclosed : sentRole (b_sw s) = true -> closedWire sw0 (wire (sw_w (b_sw s))) ->
              closedWire sw0 (wire (sw_w (exec (b_sw s) OpHeartbeat)))).
    { intros Hs (mid & r & u & hbs & Hw & Hmid & Hhbs). rewrite Hw', Hw.
      cbn [emits]. unfold roleDue. rewrite Hs. cbn [app].
      exists mid, r, u, (hbs ++ [chunkOf (b_sw s) Delta0 None None]).
      cbn [app]. rewrite <- ?app_assoc. cbn [app]. rewrite <- ?app_assoc. split_and!; [done|done|].
      apply Forall_app. split; [done|]. by apply Forall_singleton. }
    destruct (b_main s) as [| | | |ops| |]; try (destruct Hm as (Hs & Ho); split; [done|auto]).
    + by destruct Hm as (_ & _ & ?).
    + destruct ops as [|op ops].
      * destruct Hm as (Hs & Ho). auto.
      * destruct Hm as (Hs & Ho & He). auto.
Qed.

(** X26. The form of a bypass stream. On a fresh sink from which the
    client does not go away, whatever the upstream answers and however
    the handler and the heartbeat goroutine take turns: once the handler
    has returned, the wire holds the role announcement, then events that
    are neither a finish event nor an end marker nor an error, then one
    finish event and the end marker, and after them heartbeats only. *)
Theorem bypass_stream_form (model : string) (result : AntigravityResponse + GoError)
    (schedule : list Label) (s : Bypass) :
  ~ In ClientGone schedule ->
  run model result schedule (bypassInit freshSink model) = Some s ->
  b_main s = Returned ->
  closedWire (NewStreamWriter freshSink (GenerateChatCompletionID 0) time_Now_Unix model)
             (wire (sw_w (b_sw s))).
Proof.
  intros Hno Hrun Hret.
  set (sw0 := NewStreamWriter freshSink (GenerateChatCompletionID 0) time_Now_Unix model).
  assert (Hgen : forall schedule s0,
            ~ In ClientGone schedule -> formInv sw0 s0 ->
            run model result schedule s0 = Some s -> formInv sw0 s).
  { clear. intros schedule. induction schedule as [|l schedule IH]; intros s0 Hno Hs0 Hrun.
    - cbn in Hrun. by injection Hrun as <-.
    - cbn [run] in Hrun. destruct (fire model result l s0) as [s1|] eqn:E; [|done].
      apply (IH s1); [intros Hin; apply Hno; by right| |done].
      apply (formInv_step sw0 model result l s0 s1); [|done|done].
      intros ->. apply Hno. by left. }
  assert (H0 : formInv sw0 (bypassInit freshSink model)) by (by unfold formInv).
  destruct (Hgen schedule _ Hno H0 Hrun) as (_ & _ & Hm). rewrite Hret in Hm.
  by destruct Hm.
Qed.

End BypassForm.

(** X26, on a run: the goroutine writes after the handler has
    finished. *)
Lemma bypass_stream_form_witness :
  let RT := Sample.runtime in
  let model := "gemini-3-pro-high-bypass" in
  let schedule :=
    [Main; Main; Tick; SelectTick; Main; Main; Main; Main; Main; HeartbeatWrite] in
  exists s,
    run model (inl Fixtures.hello) schedule (bypassInit freshSink model) = Some s
    /\ closedWire
         (NewStreamWriter freshSink (GenerateChatCompletionID 0) time_Now_Unix model)
         (wire (sw_w (b_sw s))).
Proof.
  intros RT model schedule.
  assert (E : { s | run model (inl Fixtures.hello) schedule (bypassInit freshSink model)
                    = Some s /\ b_main s = Returned })
    by (eexists; split; vm_compute; reflexivity).
  destruct E as (s & E & Hm). exists s. split; [exact E|].
  apply (bypass_stream_form (RT := RT) model (inl Fixtures.hello) schedule s); [|exact E|exact Hm].
  intros Hin. repeat (destruct Hin as [Hin|Hin]; [discriminate Hin|]). exact Hin.
Defined.

(** ** A byte that begins no character *)

Section StrayFacts.
Import utf8.

Lemma Valid_stray (b : byte) (rest : list byte) : stray b -> Valid (b :: rest) = false.
Proof.
  intros [Hb Hf]. cbn [Valid]. unfold RuneSelf.
  destruct (Z.ltb_spec (u8 b) 128); [lia|]. by rewrite Hf.
Qed.

Lemma scanTail_ascii_end (data : list byte) (b : byte) (checkLen : nat) :
  (u8 b < 0x80)%Z -> 1 <= checkLen ->
  scanTail (data ++ [b]) checkLen checkLen = None.
Proof.
  intros Hb Hc. destruct checkLen as [|n]; [lia|]. cbn [scanTail].
  replace (length (data ++ [b]) - (S n - n)) with (length data)
    by (rewrite length_app; cbn; lia).
  rewrite lookup_app_r by lia. rewrite Nat.sub_diag. cbn [lookup list_lookup].
  destruct (Z.leb_spec 192 (u8 b)); [lia|].
  destruct (Z.leb_spec 128 (u8 b)); [lia|]. done.
Qed.

(** X27. A byte that begins no character stalls the channel. When the
    content buffer begins with such a byte, a WriteContent of ASCII text
    writes nothing on the content channel, however much text there is,
    and adds the text to the buffer. *)
Theorem stray_byte_stalls (sw : StreamWriter) (b : byte) (rest : list byte) (s : string) :
  gone (sw_w sw) = false ->
  contentBuffer sw = b :: rest ->
  stray b ->
  s <> "" -> plainASCII s ->
  contentDeltas (emits sw (OpContent s)) = []
  /\ wire (sw_w (exec sw (OpContent s))) = wire (sw_w sw) ++ roleDue sw
  /\ contentBuffer (exec sw (OpContent s)) = contentBuffer sw ++ bytes s.
Proof.
  intros Hg Hcb Hb Hne Hascii.
  assert (Hx : extractValidUTF8 (contentBuffer sw ++ bytes s)
               = ("", contentBuffer sw ++ bytes s)).
  { rewrite Hcb. set (data := (b :: rest) ++ bytes s).
    assert (Hinv : forall v', v' `prefix_of` data -> v' <> [] -> Valid v' = false).
    { intros v' [k Hk] Hv'. destruct v' as [|c v']; [done|].
      subst data. cbn in Hk. injection Hk as <- _. by apply Valid_stray. }
    unfold extractValidUTF8.
    assert (Hlen : (length data =? 0) = false) by done. rewrite Hlen.
    assert (Hvd : Valid data = false) by (by apply Valid_stray). rewrite Hvd.
    assert (Hend : exists d c, data = d ++ [c] /\ (u8 c < 0x80)%Z).
    { unfold plainASCII in Hascii. subst data.
      assert (Hbs : bytes s <> []) by (unfold bytes; by destruct s).
      destruct (bytes s) as [|x xs] using rev_ind; [done|].
      apply Forall_app in Hascii as [_ Hx]. rewrite Forall_singleton in Hx.
      exists ((b :: rest) ++ xs), x. by rewrite app_assoc. }
    destruct Hend as (d & c & Ed & Hc).
    assert (Hs : scanTail data (if length data <? 4 then length data else 4)
                   (if length data <? 4 then length data else 4) = None).
    { rewrite Ed. apply scanTail_ascii_end; [done|].
      rewrite length_app. cbn [length]. destruct (Nat.ltb_spec (length d + 1) 4); lia. }
    rewrite Hs.
    destruct (stripTail_spec (rev data) []) as [(v & Hv & (Hp & Hval & _) & _)|[_ Hst]];
      rewrite rev_involutive in *.
    - by rewrite (Hinv v Hp Hv) in Hval.
    - by rewrite Hst, app_nil_r. }
  rewrite (WriteContent_healthy sw s _ _ Hg Hx). cbn [emits contentBuffer sw_w wire].
  unfold bytes in *. rewrite Hx. cbn [fst chunkIf nonempty_string].
  rewrite app_nil_r. split_and!; try done.
  by destruct (deltas_roleDue sw) as [-> _].
Qed.

End StrayFacts.

(** X27, on a run: the byte FF, then the text hello. *)
Lemma stray_byte_stalls_witness :
  let sw := exec (NewStreamWriter freshSink "chatcmpl-0" 0 "m")
              (OpContent (string_of_list_byte [Byte.xff])) in
  contentDeltas (emits sw (OpContent "hello")) = []
  /\ wire (sw_w (exec sw (OpContent "hello"))) = wire (sw_w sw) ++ roleDue sw
  /\ contentBuffer (exec sw (OpContent "hello")) = contentBuffer sw ++ bytes "hello".
Proof.
  intros sw.
  apply (stray_byte_stalls sw Byte.xff [] "hello");
    [reflexivity|reflexivity|split; [by vm_compute|reflexivity]|discriminate|].
  unfold plainASCII. repeat constructor.
Defined.

(** ** The answer of the plain handler *)

Section AnswerOfHandler.
Context `{MT : ModelTable} `{RT : Runtime} `{SV : Services}.

(** X28. handleNonStreamRequest calls the upstream once and then does
    one thing. An upstream error is answered with the status of the
    error when it is an API error and with 500 otherwise, and with the
    text of the error. An upstream answer without candidates makes the
    handler panic before it answers. Any other upstream answer is
    answered with 200 and a completion that names the model the client
    asked for, not the resolved one. *)
Theorem non_stream_answer (req : OpenAIChatRequest) (token : Account) :
  exists upstream answer,
    handleNonStreamRequest req token = [CallGenerateContent upstream token; answer]
    /\ ar_Model upstream = ResolveModelName (req_Model req)
    /\ match api_GenerateContent upstream token with
       | inr err =>
           answer = WriteError (default StatusInternalServerError (err_Status err))
                               (err_Error err)
       | inl resp =>
           match resp_Candidates resp with
           | [] => answer = Panic
           | _ :: _ =>
               exists completion,
                 answer = WriteJSON StatusOK completion
                 /\ cc_Model completion = req_Model req
                 /\ cc_Usage completion = ConvertUsage (resp_UsageMetadata resp)
           end
       end.
Proof.
  unfold handleNonStreamRequest.
  set (upstream := if IsImageModel (req_Model req) then _ else _).
  exists upstream. destruct (api_GenerateContent upstream token) as [resp|err] eqn:E.
  - unfold ConvertToOpenAIResponse. destruct (resp_Candidates resp) as [|cand0 rest].
    + exists Panic. split; [done|]. split; [|done]. subst upstream.
      by destruct (IsImageModel (req_Model req)).
    + eexists. split; [reflexivity|]. split; [|by eexists].
      subst upstream. by destruct (IsImageModel (req_Model req)).
  - eexists. split; [reflexivity|]. split.
    + subst upstream. by destruct (IsImageModel (req_Model req)).
    + unfold getErrorStatus. by destruct (err_Status err).
Qed.

End AnswerOfHandler.

(** ** The name of a tool result *)

Section ToolResultFacts.
Context `{RT : Runtime}.

(** X29. A tool result is sent under the name of the function that was
    called. When an assistant message with tool calls is followed by the
    tool message that answers one of them, the turns built end with the
    model turn of the assistant message and a user turn whose one part is
    a function response with the id of the call, the name of the first
    call of the message that has this id, and the text of the tool
    message as output. *)
Theorem tool_result_named (pre : list OpenAIMessage) (amsg tmsg : OpenAIMessage)
    (before after : list OpenAIToolCall) (tc : OpenAIToolCall) :
  m_Role amsg = "assistant" -> m_Role tmsg = "tool" ->
  m_ToolCalls amsg = before ++ tc :: after ->
  Forall (fun tc' => otc_ID tc' <> otc_ID tc) before ->
  m_ToolCallID tmsg = otc_ID tc ->
  convertMessages (pre ++ [amsg; tmsg])
  = convertMessages pre
    ++ [ {| c_Role := "model"; c_Parts := assistantParts amsg |};
         {| c_Role := "user";
            c_Parts :=
              [ {| p_Text := ""; p_FunctionCall := None;
                   p_FunctionResponse :=
                     Some {| fr_ID := otc_ID tc;
                             fr_Name := ofc_Name (otc_Function tc);
                             fr_Response :=
                               {[ "output" := JString (getTextContent (m_Content tmsg)) ]} |};
                   p_InlineData := None; p_Thought := false;
                   p_ThoughtSignature := "" |} ] |} ].
Proof.
  intros Ha Ht Hcalls Hbefore Hid.
  rewrite convertMessages_app. cbn [fold_left]. set (cs := convertMessages pre).
  set (head := if nonempty_string (getTextContent (m_Content amsg))
               then [ {| p_Text := getTextContent (m_Content amsg); p_FunctionCall := None;
                         p_FunctionResponse := None; p_InlineData := None;
                         p_Thought := false; p_ThoughtSignature := "" |} ]
               else []).
  assert (Hparts : assistantParts amsg
                   = (head ++ map toolCallPart before)
                     ++ toolCallPart tc :: map toolCallPart after).
  { unfold assistantParts. fold head. by rewrite Hcalls, map_app, <- app_assoc. }
  assert (Hturn : convertMessage cs amsg
                  = cs ++ [ {| c_Role := "model"; c_Parts := assistantParts amsg |} ]).
  { unfold convertMessage. rewrite Ha. cbn [String.eqb Ascii.eqb Bool.eqb andb].
    rewrite Hparts at 1. rewrite length_app. cbn [length].
    by rewrite Nat.add_succ_r. }
  rewrite Hturn, (convertMessage_tool _ _ Ht), appendFunctionResponse_model by done.
  do 4 f_equal. unfold toolResponsePart. rewrite Hid. do 3 f_equal.
  rewrite findFunctionName_snoc. cbn [c_Parts]. rewrite Hparts.
  rewrite (findInParts_first (head ++ map toolCallPart before) (map toolCallPart after)
             (toolCallPart tc)
             {| fc_ID := otc_ID tc; fc_Name := ofc_Name (otc_Function tc);
                fc_Args := parseArgs (ofc_Arguments (otc_Function tc)) |}
             (otc_ID tc)); [done| |done|done].
  intros q fc Hin Hq. apply elem_of_app in Hin as [Hin|Hin].
  - subst head. destruct (nonempty_string _); [|by apply elem_of_nil in Hin].
    apply list_elem_of_singleton in Hin as ->. done.
  - apply list_elem_of_fmap in Hin as (tc' & -> & Hin').
    cbn in Hq. injection Hq as <-. cbn.
    rewrite Forall_forall in Hbefore. by apply Hbefore.
Qed.

End ToolResultFacts.

(** X29, on a run. *)
Lemma tool_result_named_witness :
  let RT := Sample.runtime in
  let amsg := Sample.withToolCalls (Sample.message "assistant" "")
                [Sample.toolCall "c1" "get_weather"] in
  let tmsg := Sample.toolResult "c1" "sunny" in
  exists response,
    convertMessages [Sample.message "user" "weather?"; amsg; tmsg]
    = convertMessages [Sample.message "user" "weather?"]
      ++ [ {| c_Role := "model"; c_Parts := assistantParts amsg |};
           {| c_Role := "user"; c_Parts := [response] |} ]
    /\ (fr_Name <$> p_FunctionResponse response) = Some "get_weather".
Proof.
  intros RT amsg tmsg. eexists. split.
  - apply (tool_result_named (RT := RT) [Sample.message "user" "weather?"] amsg tmsg
             [] [] (Sample.toolCall "c1" "get_weather") eq_refl eq_refl eq_refl).
    + constructor.
    + reflexivity.
  - reflexivity.
Defined.
